(** * Runbook analyzer, retrieval agent and chat-mode classifier

    A shallow embedding of [src/analyzer.py], [src/agent.py] and
    [src/chatbot.py], and the properties of the scoring rubric, the
    keyword retrieval and the intent classifier.

    Conventions of the embedding.
    - A Python [str] is a [list ascii]; a character stands for the Unicode
      code point with the same number, so the documents covered are those
      over U+0000..U+00FF.  The character classes ([str.isspace], [\s],
      [\w], [\d], [str.lower], the line boundaries of [str.splitlines])
      are the ones CPython uses on that range.
    - A Python [float] is the rational number [Q] that it denotes.  Every
      dimension score is an integer and every overall score a multiple of
      1/4, for which binary floating point is exact; the sums and the
      quotients of the health summary round, through [Py.float], to the
      nearest double.  Infinities and NaN are not modelled: no score comes
      near the largest double.
    - A Python [dict] is a [gmap]; the file system is a finite map from
      paths to nodes, and a raised exception is the [Raise] branch of
      [result]. *)

From Stdlib Require Import QArith Qpower Lqa Ascii.
From Stdlib Require String.
From stdpp Require Import gmap strings list sorting.

(** ** Text and its literals *)

Definition text := list ascii.

Inductive text_lit := tnil | tcons (a : ascii) (t : text_lit).

Fixpoint text_of_bytes (l : list Byte.byte) : text_lit :=
  match l with
  | [] => tnil
  | b :: l => tcons (ascii_of_byte b) (text_of_bytes l)
  end.

Fixpoint bytes_of_text (t : text_lit) : list Byte.byte :=
  match t with
  | tnil => []
  | tcons a t => byte_of_ascii a :: bytes_of_text t
  end.

Declare Scope text_scope.
Delimit Scope text_scope with text.
#[warnings="-via-type-remapping,-via-type-mismatch"]
String Notation text text_of_bytes bytes_of_text
  (via text_lit mapping [[nil] => tnil, [cons] => tcons]) : text_scope.
Bind Scope text_scope with text.
Open Scope text_scope.

(** Characters that a Rocq string literal cannot hold. *)
Definition LF : ascii := "010"%char.
Definition CR : ascii := "013"%char.
Definition DQUOTE : ascii := "034"%char.
Definition SQUOTE : ascii := "039"%char.

(** ** Python string primitives *)

Module Py.

Definition code (c : ascii) : N := N_of_ascii c.

Definition between (lo hi : N) (c : ascii) : bool :=
  ((lo <=? code c) && (code c <=? hi))%N.

(** [str.isspace] on one character; also the class [\s] of [re]. *)
Definition isspace (c : ascii) : bool :=
  between 9 13 c || between 28 32 c || (code c =? 133)%N || (code c =? 160)%N.

(** [\d] of [re]. *)
Definition isdecimal (c : ascii) : bool := between 48 57 c.

(** [\w] of [re]: alphanumeric or underscore. *)
Definition isword (c : ascii) : bool :=
  between 48 57 c || between 65 90 c || (code c =? 95)%N || between 97 122 c
  || (code c =? 170)%N || between 178 179 c || (code c =? 181)%N
  || between 185 186 c || between 188 190 c
  || between 192 214 c || between 216 246 c || between 248 255 c.

Definition isupper (c : ascii) : bool :=
  between 65 90 c || (between 192 222 c && negb (code c =? 215)%N).

Definition lower_char (c : ascii) : ascii :=
  if isupper c then ascii_of_N (code c + 32) else c.

(** Upper case; the three lower-case letters whose capital lies beyond
    U+00FF (181, 223, 255) are left as they are. *)
Definition upper_char (c : ascii) : ascii :=
  if between 97 122 c || (between 224 254 c && negb (code c =? 247)%N)
  then ascii_of_N (code c - 32) else c.

(** [s.lower()] *)
Definition lower (s : text) : text := map lower_char s.

Definition iscased (c : ascii) : bool :=
  isupper c || between 97 122 c || (code c =? 170)%N || (code c =? 181)%N
  || (code c =? 186)%N || between 223 246 c || between 248 255 c.

(** [s.title()]: a cased character is capitalised after an uncased one
    and lowered after a cased one. *)
Fixpoint title_from (prev_cased : bool) (s : text) : text :=
  match s with
  | [] => []
  | c :: s' =>
      (if prev_cased then lower_char c else upper_char c)
        :: title_from (iscased c) s'
  end.

Definition title (s : text) : text := title_from false s.

(** [s.lstrip(chars)], [s.rstrip(chars)], [s.strip(chars)], with the
    stripped set as a predicate. *)
Fixpoint lstrip_by (p : ascii → bool) (s : text) : text :=
  match s with
  | [] => []
  | c :: s' => if p c then lstrip_by p s' else s
  end.

Fixpoint rstrip_by (p : ascii → bool) (s : text) : text :=
  match s with
  | [] => []
  | c :: s' =>
      match rstrip_by p s' with
      | [] => if p c then [] else [c]
      | r => c :: r
      end
  end.

Definition strip_by (p : ascii → bool) (s : text) : text :=
  rstrip_by p (lstrip_by p s).

(** [s.strip()] *)
Definition strip (s : text) : text := strip_by isspace s.

(** [s.strip(c)] for a one-character argument *)
Definition strip_char (c : ascii) (s : text) : text := strip_by (Ascii.eqb c) s.

(** [s.rstrip(c)] for a one-character argument *)
Definition rstrip_char (c : ascii) (s : text) : text := rstrip_by (Ascii.eqb c) s.

(** The line boundaries of [str.splitlines]. *)
Definition islinebreak (c : ascii) : bool :=
  between 10 13 c || between 28 30 c || (code c =? 133)%N.

(** [s.splitlines()]: the lines without their terminators; [\r\n] is one
    terminator, and a final terminator opens no further line. *)
Fixpoint splitlines (s : text) : list text :=
  match s with
  | [] => []
  | c :: s' =>
      if islinebreak c then
        match s' with
        | c2 :: s'' =>
            if Ascii.eqb c CR && Ascii.eqb c2 LF
            then [] :: splitlines s''
            else [] :: splitlines s'
        | [] => [[]]
        end
      else
        match splitlines s' with
        | [] => [[c]]
        | l :: ls => (c :: l) :: ls
        end
  end.

(** [s.startswith(p)] *)
Fixpoint startswith (p s : text) : bool :=
  match p, s with
  | [], _ => true
  | _ :: _, [] => false
  | a :: p', b :: s' => Ascii.eqb a b && startswith p' s'
  end.

(** [s.endswith(p)] *)
Definition endswith (p s : text) : bool := startswith (rev p) (rev s).

(** [t in hay] for strings: [t] occurs as a substring. *)
Fixpoint contains (t hay : text) : bool :=
  startswith t hay ||
  match hay with
  | [] => false
  | _ :: hay' => contains t hay'
  end.

(** [s.split(c, 1)]: cut at the first occurrence of [c]; one piece when
    there is none. *)
Fixpoint split1 (c : ascii) (s : text) : list text :=
  match s with
  | [] => [[]]
  | x :: s' =>
      if Ascii.eqb x c then [[]; s']
      else match split1 c s' with
           | k :: rest => (x :: k) :: rest
           | [] => [[x]]
           end
  end.

(** [sep.join(parts)] *)
Fixpoint join (sep : text) (parts : list text) : text :=
  match parts with
  | [] => []
  | [p] => p
  | p :: ps => p ++ sep ++ join sep ps
  end.

(** The order of [str]: lexicographic on code points. *)
Fixpoint text_leb (a b : text) : bool :=
  match a, b with
  | [], _ => true
  | _ :: _, [] => false
  | x :: a', y :: b' =>
      if (code x <? code y)%N then true
      else if (code y <? code x)%N then false
      else text_leb a' b'
  end.

(** [sorted(names)] on strings, as an insertion sort; the order is total
    and equal strings are identical, so every sort gives this list. *)
Fixpoint insert_sorted (x : text) (l : list text) : list text :=
  match l with
  | [] => [x]
  | y :: l' => if text_leb x y then x :: l else y :: insert_sorted x l'
  end.

Definition sorted (l : list text) : list text :=
  foldr insert_sorted [] l.

(** [min(a, b)] and [max(a, b)] on floats: the first argument unless the
    second is strictly smaller (larger). *)
Definition min (a b : Q) : Q := if Qle_bool a b then a else b.
Definition max (a b : Q) : Q := if Qle_bool b a then a else b.

(** Round [n / d], for [0 < d], to the nearest integer, ties to even. *)
Definition rne (n d : Z) : Z :=
  let q := (n / d)%Z in
  let r := (n mod d)%Z in
  if (2 * r <? d)%Z then q
  else if (d <? 2 * r)%Z then (q + 1)%Z
  else if Z.even q then q else (q + 1)%Z.

(** The exponent [e] of the binade of [n / d]:
    [2 ^ e <= n / d < 2 ^ (e + 1)]. *)
Definition ilog2 (n d : positive) : Z :=
  let l := (Z.log2 (Z.pos n) - Z.log2 (Z.pos d))%Z in
  if Qle_bool (2 ^ l) (Z.pos n # d) then l else (l - 1)%Z.

(** The double nearest to the positive rational [n / d]: 53 significant
    bits, on a grid that is never finer than [2 ^ -1074], the spacing of
    the subnormal numbers. *)
Definition float_pos (n d : positive) : Q :=
  let s := Z.max (ilog2 n d - 52) (-1074) in
  let y := ((Z.pos n # d) / 2 ^ s)%Q in
  (inject_Z (rne (Qnum y) (QDen y)) * 2 ^ s)%Q.

(** The double nearest to [x], ties to even: what a float operation
    returns when its exact result is [x], and [float(n)] of an integer. *)
Definition float (x : Q) : Q :=
  let q := Qred x in
  match Qnum q with
  | Z0 => 0
  | Z.pos n => float_pos n (Qden q)
  | Z.neg n => - float_pos n (Qden q)
  end%Q.

(** [a + b] and [a / b] on floats, for [b] other than 0. *)
Definition fadd (a b : Q) : Q := float (a + b).
Definition truediv (a b : Q) : Q := float (a / b).

(** [sum(values)] on floats starts from 0 and adds from the left, each
    addition rounding.  (From Python 3.12 on the rounding errors of the
    additions are compensated at the end; that changes nothing where the
    additions are exact.) *)
Definition sum (values : list Q) : Q := foldl fadd 0%Q values.

(** [bool(s)] of a string: non-empty. *)
Definition truthy (s : text) : bool :=
  match s with [] => false | _ => true end.

(** [bool(d.get(k))] for a dictionary of strings: the key is present with
    a non-empty value. *)
Definition get_truthy (d : gmap text text) (k : text) : bool :=
  match d !! k with
  | Some v => truthy v
  | None => false
  end.

(** [os.path.join(a, b)] (POSIX). *)
Definition path_join (a b : text) : text :=
  if startswith "/" b then b
  else if negb (truthy a) || endswith "/" a then a ++ b
  else a ++ "/" ++ b.

(** [os.path.basename(p)] (POSIX): what follows the last slash. *)
Fixpoint basename (p : text) : text :=
  match p with
  | [] => []
  | c :: p' => if contains "/" p then basename p' else p
  end.

End Py.

(** ** Regular expressions

    The fragment of Python's [re] that the program's patterns use:
    literals, classes, [.], greedy and lazy repetition of a one-character
    item, concatenation, ordered alternation, one capturing group, and the
    anchors [^], [$] and [\b].  Matching is the backtracking search of
    [re]: alternatives are tried left to right, a greedy repetition tries
    the longest run first and a lazy one the shortest. *)

Module Re.

Record flags := Flags {
  ignorecase : bool;   (* re.I *)
  multiline : bool;    (* re.M *)
  dotall : bool        (* re.S *)
}.

Definition NOFLAG : flags := Flags false false false.
Definition I : flags := Flags true false false.
Definition M : flags := Flags false true false.
Definition S : flags := Flags false false true.

Inductive atom :=
| Chr (c : ascii)                        (* a literal character *)
| Dot                                    (* .  *)
| Space                                  (* \s *)
| Digit                                  (* \d *)
| Class (ranges : list (ascii * ascii)). (* [...] as a list of ranges *)

Inductive regex :=
| Eps
| One (a : atom)
| Star (a : atom)        (* a*  *)
| Plus (a : atom)        (* a+  *)
| StarLazy (a : atom)    (* a*? *)
| PlusLazy (a : atom)    (* a+? *)
| Cat (r1 r2 : regex)
| Alt (r1 r2 : regex)
| Group (r : regex)      (* ( ), the capturing group 1 *)
| Bol                    (* ^  *)
| Eol                    (* $  *)
| WordB.                 (* \b *)

(** A literal string and an n-ary concatenation or alternation. *)
Fixpoint lit (s : text) : regex :=
  match s with
  | [] => Eps
  | [c] => One (Chr c)
  | c :: s' => Cat (One (Chr c)) (lit s')
  end.

Fixpoint seq (rs : list regex) : regex :=
  match rs with
  | [] => Eps
  | [r] => r
  | r :: rs' => Cat r (seq rs')
  end.

Fixpoint alts (rs : list regex) : regex :=
  match rs with
  | [] => Eps
  | [r] => r
  | r :: rs' => Alt r (alts rs')
  end.

Definition in_range (x : ascii) (r : ascii * ascii) : bool :=
  ((Py.code r.1 <=? Py.code x) && (Py.code x <=? Py.code r.2))%N.

Definition atom_match (f : flags) (a : atom) (x : ascii) : bool :=
  match a with
  | Chr c =>
      if ignorecase f
      then Ascii.eqb (Py.lower_char x) (Py.lower_char c)
      else Ascii.eqb x c
  | Dot => dotall f || negb (Ascii.eqb x LF)
  | Space => Py.isspace x
  | Digit => Py.isdecimal x
  | Class ranges =>
      existsb (in_range x) ranges
      || (ignorecase f
          && (existsb (in_range (Py.lower_char x)) ranges
              || existsb (in_range (Py.upper_char x)) ranges))
  end.

(** A position in the subject: the character before it, its offset, the
    text after it, and what group 1 has captured so far. *)
Record cursor := Cursor {
  before : option ascii;
  offset : nat;
  after : text;
  group1 : option text
}.

Definition start_of (s : text) : cursor := Cursor None 0 s None.

Definition step (x : ascii) (rest : text) (c : cursor) : cursor :=
  Cursor (Some x) (Datatypes.S (offset c)) rest (group1 c).

Definition is_word_opt (o : option ascii) : bool :=
  match o with
  | Some x => Py.isword x
  | None => false
  end.

Definition at_bol (f : flags) (c : cursor) : bool :=
  match before c with
  | None => true
  | Some x => multiline f && Ascii.eqb x LF
  end.

Definition at_eol (f : flags) (c : cursor) : bool :=
  match after c with
  | [] => true
  | x :: rest =>
      Ascii.eqb x LF && (multiline f || match rest with [] => true | _ => false end)
  end.

Definition at_wordb (c : cursor) : bool :=
  xorb (is_word_opt (before c)) (is_word_opt (head (after c))).

(** Greedy repetition of a one-character test: consume while the test
    holds, then give back one character at a time until the rest of the
    pattern [k] matches. *)
Fixpoint greedy (p : ascii → bool) (b : option ascii) (off : nat) (s : text)
    (g : option text) (k : cursor → option cursor) : option cursor :=
  match s with
  | x :: s' =>
      if p x then
        match greedy p (Some x) (Datatypes.S off) s' g k with
        | Some e => Some e
        | None => k (Cursor b off s g)
        end
      else k (Cursor b off s g)
  | [] => k (Cursor b off s g)
  end.

(** Lazy repetition: try the rest of the pattern first, and consume one
    more character only when it fails. *)
Fixpoint lazy (p : ascii → bool) (b : option ascii) (off : nat) (s : text)
    (g : option text) (k : cursor → option cursor) : option cursor :=
  match k (Cursor b off s g) with
  | Some e => Some e
  | None =>
      match s with
      | x :: s' => if p x then lazy p (Some x) (Datatypes.S off) s' g k else None
      | [] => None
      end
  end.

(** [run f r c k]: match [r] at cursor [c] and continue with [k]; the
    first success in backtracking order. *)
Fixpoint run (f : flags) (r : regex) (c : cursor)
    (k : cursor → option cursor) : option cursor :=
  match r with
  | Eps => k c
  | One a =>
      match after c with
      | x :: s' => if atom_match f a x then k (step x s' c) else None
      | [] => None
      end
  | Star a => greedy (atom_match f a) (before c) (offset c) (after c) (group1 c) k
  | Plus a =>
      match after c with
      | x :: s' =>
          if atom_match f a x
          then greedy (atom_match f a) (Some x) (Datatypes.S (offset c)) s' (group1 c) k
          else None
      | [] => None
      end
  | StarLazy a => lazy (atom_match f a) (before c) (offset c) (after c) (group1 c) k
  | PlusLazy a =>
      match after c with
      | x :: s' =>
          if atom_match f a x
          then lazy (atom_match f a) (Some x) (Datatypes.S (offset c)) s' (group1 c) k
          else None
      | [] => None
      end
  | Cat r1 r2 => run f r1 c (λ c', run f r2 c' k)
  | Alt r1 r2 =>
      match run f r1 c k with
      | Some e => Some e
      | None => run f r2 c k
      end
  | Group r1 =>
      run f r1 c (λ c',
        k (Cursor (before c') (offset c') (after c')
             (Some (take (offset c' - offset c) (after c)))))
  | Bol => if at_bol f c then k c else None
  | Eol => if at_eol f c then k c else None
  | WordB => if at_wordb c then k c else None
  end.

(** A match object: [m.start()], [m.end()] and [m.group(1)]. *)
Record match_obj := Match {
  m_start : nat;
  m_end : nat;
  m_group1 : option text
}.

Definition match_at (f : flags) (r : regex) (c : cursor)
    (accept : cursor → bool) : option match_obj :=
  match run f r c (λ e, if accept e then Some e else None) with
  | Some e => Some (Match (offset c) (offset e) (group1 e))
  | None => None
  end.

(** [re.match(r, s, f)]: a match that starts at offset 0. *)
Definition match_ (f : flags) (r : regex) (s : text) : option match_obj :=
  match_at f r (start_of s) (λ _, true).

(** [re.search(r, s, f)]: the match at the leftmost offset that has one. *)
Fixpoint search_from (f : flags) (r : regex) (b : option ascii) (off : nat)
    (s : text) : option match_obj :=
  match match_at f r (Cursor b off s None) (λ _, true) with
  | Some m => Some m
  | None =>
      match s with
      | x :: s' => search_from f r (Some x) (Datatypes.S off) s'
      | [] => None
      end
  end.

Definition search (f : flags) (r : regex) (s : text) : option match_obj :=
  search_from f r None 0 s.

(** [bool(re.search(r, s, f))] *)
Definition found (f : flags) (r : regex) (s : text) : bool :=
  match search f r s with Some _ => true | None => false end.

(** The matches that [findall] and [finditer] report starting at one
    offset: the first match there and, when that one is empty, the next
    search from the same offset, which must advance. *)
Definition matches_here (f : flags) (r : regex) (c : cursor) : list match_obj :=
  match match_at f r c (λ _, true) with
  | None => []
  | Some m =>
      if (m_end m =? m_start m)%nat then
        match match_at f r c (λ e, negb (offset e =? offset c)%nat) with
        | Some m' => [m; m']
        | None => [m]
        end
      else [m]
  end.

(** The offset from which the search resumes, as a number of characters
    to skip after the current one. *)
Definition resume (off : nat) (ms : list match_obj) : nat :=
  match last ms with
  | Some m => Nat.pred (m_end m - off)
  | None => 0
  end.

Fixpoint finditer_from (f : flags) (r : regex) (skip : nat) (b : option ascii)
    (off : nat) (s : text) : list match_obj :=
  match skip, s with
  | Datatypes.S n, x :: s' => finditer_from f r n (Some x) (Datatypes.S off) s'
  | Datatypes.S n, [] => []
  | O, _ =>
      let ms := matches_here f r (Cursor b off s None) in
      ms ++ match s with
            | x :: s' => finditer_from f r (resume off ms) (Some x) (Datatypes.S off) s'
            | [] => []
            end
  end.

Definition finditer (f : flags) (r : regex) (s : text) : list match_obj :=
  finditer_from f r 0 None 0 s.

Fixpoint has_group (r : regex) : bool :=
  match r with
  | Group _ => true
  | Cat r1 r2 | Alt r1 r2 => has_group r1 || has_group r2
  | _ => false
  end.

(** [s[i:j]] *)
Definition slice (i j : nat) (s : text) : text := take (j - i) (drop i s).

(** [re.findall(r, s, f)]: the text of group 1 of every match when the
    pattern has a group, and the text of the whole match otherwise. *)
Definition findall (f : flags) (r : regex) (s : text) : list text :=
  map (λ m,
         if has_group r then default [] (m_group1 m)
         else slice (m_start m) (m_end m) s)
      (finditer f r s).

End Re.

(** ** Lookahead

    [_extract_sections] needs two more constructs of [re]: the lookahead
    [(?=...)], which matches without consuming, and the end-of-text anchor
    [\Z].  They are layered on the patterns of [Re]. *)

Module ReX.

Import Re.

Inductive xregex :=
| Base (r : regex)
| XCat (r1 r2 : xregex)
| XAlt (r1 r2 : xregex)
| Lookahead (r : xregex)   (* (?=r) *)
| EndZ.                    (* \Z *)

(** [re.M | re.S] *)
Definition MS : flags := Flags false true true.

Fixpoint xrun (f : flags) (r : xregex) (c : cursor)
    (k : cursor → option cursor) : option cursor :=
  match r with
  | Base r0 => run f r0 c k
  | XCat r1 r2 => xrun f r1 c (λ c', xrun f r2 c' k)
  | XAlt r1 r2 =>
      match xrun f r1 c k with
      | Some e => Some e
      | None => xrun f r2 c k
      end
  | Lookahead r1 =>
      match xrun f r1 c Some with
      | Some _ => k c
      | None => None
      end
  | EndZ =>
      match after c with
      | [] => k c
      | _ :: _ => None
      end
  end.

Definition xmatch_at (f : flags) (r : xregex) (c : cursor) : option match_obj :=
  match xrun f r c Some with
  | Some e => Some (Match (offset c) (offset e) (group1 e))
  | None => None
  end.

(** [pattern.search(s)]: the match at the leftmost offset that has one. *)
Fixpoint xsearch_from (f : flags) (r : xregex) (b : option ascii) (off : nat)
    (s : text) : option match_obj :=
  match xmatch_at f r (Cursor b off s None) with
  | Some m => Some m
  | None =>
      match s with
      | x :: s' => xsearch_from f r (Some x) (Datatypes.S off) s'
      | [] => None
      end
  end.

Definition xsearch (f : flags) (r : xregex) (s : text) : option match_obj :=
  xsearch_from f r None 0 s.

End ReX.

(** ** The file system and exceptions *)

Inductive exn :=
| FileNotFoundError (path : text)
| IsADirectoryError (path : text)
| NotADirectoryError (path : text).

(** The outcome of a call that may raise. *)
Inductive result (A : Type) :=
| Ok (a : A)
| Raise (e : exn).
Arguments Ok {A} a.
Arguments Raise {A} e.

Global Instance result_ret : MRet result := λ A a, Ok a.
Global Instance result_bind : MBind result := λ A B f m,
  match m with
  | Ok a => f a
  | Raise e => Raise e
  end.

(** [try: body / except Exception: handler] *)
Definition try_except {A} (body : result A) (handler : exn → result A) : result A :=
  match body with
  | Ok a => Ok a
  | Raise e => handler e
  end.

(** [for x in xs: s = body(s, x)], stopping at the first exception. *)
Fixpoint for_each {A St} (xs : list A) (s : St) (body : St → A → result St)
    : result St :=
  match xs with
  | [] => Ok s
  | x :: xs' => s' ← body s x; for_each xs' s' body
  end.

(** A path names a text file (with its decoded content) or a directory
    (with its entries in the order [os.listdir] reports them), or
    nothing. *)
Inductive node :=
| File (content : text)
| Dir (entries : list text).

Module Os.

Definition exists_ (fs : gmap text node) (path : text) : bool :=
  bool_decide (is_Some (fs !! path)).

Definition isdir (fs : gmap text node) (path : text) : bool :=
  match fs !! path with
  | Some (Dir _) => true
  | _ => false
  end.

Definition listdir (fs : gmap text node) (path : text) : result (list text) :=
  match fs !! path with
  | Some (Dir entries) => Ok entries
  | Some (File _) => Raise (NotADirectoryError path)
  | None => Raise (FileNotFoundError path)
  end.

(** [open(path).read()] with the decoding fallbacks of [_read_text]: the
    last fallback replaces undecodable bytes, so reading a file that can
    be opened always gives some text. *)
Definition read_text (fs : gmap text node) (path : text) : result text :=
  match fs !! path with
  | Some (File content) => Ok content
  | Some (Dir _) => Raise (IsADirectoryError path)
  | None => Raise (FileNotFoundError path)
  end.

End Os.

(** ** analyzer.py *)

Record RunbookAnalysis := {
  filename : text;
  overall_score : Q;
  completeness_score : Q;
  structure_score : Q;
  safety_score : Q;
  clarity_score : Q;
  issues : list text;
  recommendations : list text;
  metadata : gmap text text
}.

Module RunbookAnalyzer.

Import Re.

Definition REQUIRED_SECTIONS : list text := ["diagnosis"; "remediation"; "rollback"].

Definition REQUIRED_METADATA_KEYS : list text :=
  ["title"; "version"; "service_owner"; "severity"; "trigger_criteria"].

(** [^\s*##\s+(.+?)\s*$] with [re.MULTILINE] *)
Definition _H2_RE : regex :=
  seq [Bol; Star Space; lit "##"; Plus Space; Group (PlusLazy Dot); Star Space; Eol].

(** [^\s*---\s*\n(.*?)\n---\s*\n] with [re.DOTALL] *)
Definition _YAML_FRONTMATTER_RE : regex :=
  seq [Bol; Star Space; lit "---"; Star Space; One (Chr LF);
       Group (StarLazy Dot);
       One (Chr LF); lit "---"; Star Space; One (Chr LF)].

(** [[- ]] *)
Definition dash_or_space : atom := Class [("-"%char, "-"%char); (" "%char, " "%char)].

(** [trigger\s*criteria] *)
Definition trigger_re : regex := seq [lit "trigger"; Star Space; lit "criteria"].

(** [\b(validate|verification|verify|confirm|check)\b] *)
Definition validation_re : regex :=
  seq [WordB;
       Group (alts [lit "validate"; lit "verification"; lit "verify";
                    lit "confirm"; lit "check"]);
       WordB].

(** [\b(escalat|on[- ]call|owner|contact)\b] *)
Definition owner_re : regex :=
  seq [WordB;
       Group (alts [lit "escalat"; seq [lit "on"; One dash_or_space; lit "call"];
                    lit "owner"; lit "contact"]);
       WordB].

Definition destructive_patterns : list regex :=
  [ (* \brm\s+-rf\b *)
    seq [WordB; lit "rm"; Plus Space; lit "-rf"; WordB];
    (* \b(drop\s+database|drop\s+table)\b *)
    seq [WordB;
         Group (alts [seq [lit "drop"; Plus Space; lit "database"];
                      seq [lit "drop"; Plus Space; lit "table"]]);
         WordB];
    (* \b(delete\s+from)\b *)
    seq [WordB; Group (seq [lit "delete"; Plus Space; lit "from"]); WordB];
    (* \b(kill\s+-9)\b *)
    seq [WordB; Group (seq [lit "kill"; Plus Space; lit "-9"]); WordB];
    (* \bshutdown\b *)
    seq [WordB; lit "shutdown"; WordB];
    (* \breboot\b *)
    seq [WordB; lit "reboot"; WordB] ].

(** [\b(confirm|are you sure|double[- ]check|approval)\b] *)
Definition confirmation_re : regex :=
  seq [WordB;
       Group (alts [lit "confirm"; lit "are you sure";
                    seq [lit "double"; One dash_or_space; lit "check"];
                    lit "approval"]);
       WordB].

(** [\b(safety|warning|caution)\b] *)
Definition safety_re : regex :=
  seq [WordB; Group (alts [lit "safety"; lit "warning"; lit "caution"]); WordB].

(** The list-item pattern of [_score_clarity]: [^\s*], then group 1 with
    the alternatives [\d+\.], [\-] and an escaped star, then [\s+]. *)
Definition step_re : regex :=
  seq [Bol; Star Space;
       Group (alts [seq [Plus Digit; One (Chr ".")]; One (Chr "-"); One (Chr "*")]);
       Plus Space].

(** The running [score, issues, recs] of a scorer. *)
Definition tally : Type := Q * list text * list text.

(** One check of a scorer: add [points] when it passes, and otherwise
    append an issue and a recommendation. *)
Definition check (passed : bool) (points : Q) (issue rec : text) (t : tally) : tally :=
  let '(score, issues, recs) := t in
  if passed then ((score + points)%Q, issues, recs)
  else (score, issues ++ [issue], recs ++ [rec]).

Definition _score_completeness (metadata : gmap text text) (body : text)
    (headings : list text) : tally :=
  let t : tally := (0%Q, [], []) in
  (* Trigger criteria (metadata or text) *)
  let t :=
    check (Py.get_truthy metadata "trigger_criteria" || found I trigger_re body)
      25
      "Missing trigger criteria (when to use this runbook)."
      "Add `trigger_criteria` in frontmatter and describe clear activation conditions."
      t in
  (* Required sections *)
  let present := map (λ s, (s, bool_decide (s ∈ headings))) REQUIRED_SECTIONS in
  let missing := map (λ p, Py.title p.1) (filter (λ p, negb p.2 = true) present) in
  let t :=
    check (forallb snd present)
      25
      ("Missing required sections: " ++ Py.join ", " missing ++ ".")
      "Add the missing required sections: Diagnosis, Remediation, Rollback."
      t in
  (* Validation steps *)
  let t :=
    check (found I validation_re body)
      25
      "No explicit validation/verification steps found."
      "Add a 'Validation' step after remediation to confirm the issue is resolved."
      t in
  (* Escalation contacts / owner *)
  let t :=
    check (Py.get_truthy metadata "service_owner" || found I owner_re body)
      25
      "No service owner / escalation contact found."
      "Add `service_owner` in frontmatter and escalation/on-call contact info."
      t in
  t.

Definition _score_structure (metadata : gmap text text) (body : text)
    (headings : list text) : tally :=
  let t : tally := (0%Q, [], []) in
  (* Frontmatter presence and required keys *)
  let t :=
    if bool_decide (metadata ≠ ∅) then
      let '(score, issues, recs) := t in
      let score := (score + 40)%Q in
      let missing_keys :=
        filter (λ k, negb (Py.get_truthy metadata k) = true) REQUIRED_METADATA_KEYS in
      match missing_keys with
      | _ :: _ =>
          ((score - Py.min 40 (8 * inject_Z (Z.of_nat (length missing_keys))))%Q,
           issues ++ ["Frontmatter is missing keys: " ++ Py.join ", " missing_keys ++ "."],
           recs ++ ["Add missing required frontmatter keys (title, version, service_owner, severity, trigger_criteria)."])
      | [] => (score, issues, recs)
      end
    else
      let '(score, issues, recs) := t in
      (score,
       issues ++ ["Missing YAML frontmatter metadata block."],
       recs ++ ["Add a YAML frontmatter block (`--- ... ---`) with runbook metadata."]) in
  (* Heading structure *)
  let t :=
    check (match headings with [] => false | _ => true end)
      30
      "No H2 sections (##) detected; runbook may be poorly structured."
      "Use consistent headings like '## Diagnosis', '## Remediation', and '## Rollback'."
      t in
  (* Version and ownership *)
  let t :=
    check (Py.get_truthy metadata "version")
      15
      "No version found in metadata."
      "Add a `version` field in frontmatter for runbook change control."
      t in
  let t :=
    check (Py.get_truthy metadata "service_owner")
      15
      "No service owner found in metadata."
      "Add `service_owner` in frontmatter."
      t in
  let '(score, issues, recs) := t in
  (Py.min 100 score, issues, recs).

Definition _score_safety (body : text) (headings : list text) : tally :=
  let t : tally := (100%Q, [], []) in
  let destructive_found := existsb (λ p, found I p body) destructive_patterns in
  let t :=
    if destructive_found then
      if negb (found I confirmation_re body) then
        let '(score, issues, recs) := t in
        ((score - 35)%Q,
         issues ++ ["Potentially destructive actions detected without an explicit confirmation/approval step."],
         recs ++ ["Add a confirmation/approval step before any destructive command."])
      else t
    else t in
  let t :=
    if negb (bool_decide ("rollback" ∈ headings)) then
      let '(score, issues, recs) := t in
      ((score - 40)%Q,
       issues ++ ["No rollback section found (required for safe operations)."],
       recs ++ ["Add a Rollback section with clear recovery steps."])
    else t in
  let t :=
    if negb (found I safety_re body) then
      let '(score, issues, recs) := t in
      ((score - 15)%Q,
       issues ++ ["No safety warnings/cautions found."],
       recs ++ ["Add a short 'Safety' note (permissions, impact, maintenance window, backups)."])
    else t in
  let '(score, issues, recs) := t in
  (Py.max 0 (Py.min 100 score), issues, recs).

Definition nonblank (ln : text) : bool := Py.truthy (Py.strip ln).

Definition _score_clarity (body : text) : tally :=
  let lines := map (Py.rstrip_char LF) (Py.splitlines body) in
  let non_empty := filter (λ ln, nonblank ln = true) lines in
  match non_empty with
  | [] => (0%Q, ["Runbook content is empty."], ["Add clear, step-by-step runbook content."])
  | _ :: _ =>
      (* Step presence: numbered lists or bullet lists *)
      let has_steps := existsb (λ ln, bool_decide (is_Some (match_ NOFLAG step_re ln))) non_empty in
      (* Code fences *)
      let has_code_fences := Py.contains "```" body in
      (* Overlong lines *)
      let long_lines := filter (λ ln, 140 < length ln) non_empty in
      let score := 0%Q in
      let score := (score + (if has_steps then 45 else 20))%Q in
      let score := (score + (if has_code_fences then 30 else 15))%Q in
      let score :=
        (score + (if bool_decide (length long_lines ≤ Nat.max 3 (length non_empty / 10))
                  then 25 else 10))%Q in
      let issues : list text := [] in
      let recs : list text := [] in
      let '(issues, recs) :=
        if negb has_steps
        then (issues ++ ["No step-by-step list detected (harder to follow during incidents)."],
              recs ++ ["Use numbered steps for Diagnosis/Remediation/Rollback procedures."])
        else (issues, recs) in
      let '(issues, recs) :=
        if negb has_code_fences
        then (issues ++ ["No fenced code blocks found for commands."],
              recs ++ ["Wrap commands in fenced code blocks (```bash ... ```)."])
        else (issues, recs) in
      let '(issues, recs) :=
        match long_lines with
        | _ :: _ =>
            (issues ++ ["Runbook contains very long lines that may reduce readability."],
             recs ++ ["Wrap long lines and keep steps concise (aim for <140 chars per line)."])
        | [] => (issues, recs)
        end in
      (Py.min 100 score, issues, recs)
  end.

(** Minimal YAML key:value parser (no nested structures). *)
Definition _parse_yaml_kv (raw : text) : gmap text text :=
  foldl (λ (meta : gmap text text) (line : text),
           let line := Py.strip line in
           if negb (Py.truthy line) || Py.startswith "#" line then meta
           else if negb (Py.contains ":" line) then meta
           else match Py.split1 ":" line with
                | [k; v] =>
                    <[ Py.strip k :=
                         Py.strip_char SQUOTE (Py.strip_char DQUOTE (Py.strip v)) ]> meta
                | _ => meta
                end)
        ∅ (Py.splitlines raw).

Definition _parse_frontmatter (content : text) : gmap text text * text :=
  match match_ S _YAML_FRONTMATTER_RE content with
  | None => (∅, content)
  | Some m =>
      let raw := default [] (m_group1 m) in
      let body := drop (m_end m) content in
      let metadata := _parse_yaml_kv raw in
      (metadata, body)
  end.

Definition _read_text (fs : gmap text node) (path : text) : result text :=
  Os.read_text fs path.

Definition analyze_runbook (fs : gmap text node) (runbook_path : text)
    : result RunbookAnalysis :=
  if negb (Os.exists_ fs runbook_path) then Raise (FileNotFoundError runbook_path)
  else
    content ← _read_text fs runbook_path;
    let '(metadata, body) := _parse_frontmatter content in
    let headings := map (λ h, Py.lower (Py.strip h)) (findall M _H2_RE body) in
    let '(completeness, completeness_issues, completeness_recs) :=
      _score_completeness metadata body headings in
    let '(structure, structure_issues, structure_recs) :=
      _score_structure metadata body headings in
    let '(safety, safety_issues, safety_recs) := _score_safety body headings in
    let '(clarity, clarity_issues, clarity_recs) := _score_clarity body in
    let issues := completeness_issues ++ structure_issues ++ safety_issues ++ clarity_issues in
    let recommendations := completeness_recs ++ structure_recs ++ safety_recs ++ clarity_recs in
    let overall := ((completeness + structure + safety + clarity) / 4)%Q in
    mret {| filename := Py.basename runbook_path;
            overall_score := overall;
            completeness_score := completeness;
            structure_score := structure;
            safety_score := safety;
            clarity_score := clarity;
            issues := issues;
            recommendations := recommendations;
            metadata := metadata |}.

Definition analyze_all_runbooks (fs : gmap text node) (runbook_dir : text)
    : result (list RunbookAnalysis) :=
  if negb (Os.isdir fs runbook_dir) then mret []
  else
    names ← Os.listdir fs runbook_dir;
    for_each (Py.sorted names) [] (λ analyses name,
      if negb (Py.endswith ".md" (Py.lower name)) then mret analyses
      else
        let path := Py.path_join runbook_dir name in
        try_except
          (a ← analyze_runbook fs path; mret (analyses ++ [a]))
          (* Keep batch analysis resilient: skip bad files. *)
          (λ _, mret analyses)).

(** [sum(values) / len(values)]; it is called on non-empty lists only (the
    division would raise for an empty one). *)
Definition avg (values : list Q) : Q :=
  Py.truediv (Py.sum values) (Py.float (inject_Z (Z.of_nat (length values)))).

Definition get_health_summary (analyses : list RunbookAnalysis) : gmap text Q :=
  match analyses with
  | [] =>
      {[ "overall_health" := 0%Q;
         "average_completeness" := 0%Q;
         "average_structure" := 0%Q;
         "average_safety" := 0%Q;
         "average_clarity" := 0%Q ]}
  | _ :: _ =>
      {[ "overall_health" := avg (map overall_score analyses);
         "average_completeness" := avg (map completeness_score analyses);
         "average_structure" := avg (map structure_score analyses);
         "average_safety" := avg (map safety_score analyses);
         "average_clarity" := avg (map clarity_score analyses) ]}
  end.

End RunbookAnalyzer.

(** ** agent.py *)

Module RunbookAgent.

Import Re.

(** [[a-zA-Z0-9_]+] *)
Definition token_re : regex :=
  Plus (Class [("a"%char, "z"%char); ("A"%char, "Z"%char);
               ("0"%char, "9"%char); ("_"%char, "_"%char)]).

Definition _tokens (text_ : text) : list text :=
  let toks := findall NOFLAG token_re (Py.lower text_) in
  (* drop very short tokens *)
  filter (λ t, 3 ≤ length t) toks.

Definition _keyword_score (alert_tokens : list text) (content : text) : nat :=
  let hay := Py.lower content in
  length (filter (λ t, (Py.truthy t && Py.contains t hay) = true) alert_tokens).

Definition _read_text (fs : gmap text node) (path : text) : result text :=
  Os.read_text fs path.

Definition _find_best_runbook (fs : gmap text node) (runbook_dir : text)
    (alert_text : text) : result (option text) :=
  if negb (Os.isdir fs runbook_dir) then mret None
  else
    let alert_tokens := _tokens alert_text in
    let best : nat * option text := (0, None) in
    names ← Os.listdir fs runbook_dir;
    best ← for_each names best (λ best name,
      if negb (Py.endswith ".md" (Py.lower name)) then mret best
      else
        let path := Py.path_join runbook_dir name in
        content ← _read_text fs path;
        let score := _keyword_score alert_tokens content in
        if bool_decide (best.1 < score) then mret (score, Some path)
        else mret best);
    mret best.2.

(** The pattern of [section(name)]: the heading line
    [^\s*##\s+name\s*$\n], group 1 with the lazy [.*?], and the lookahead
    for the next heading [^\s*##\s+] or the end of the text; with
    [re.M | re.S].  The escaped name matches itself, character by
    character. *)
Definition section_re (name : text) : ReX.xregex :=
  ReX.XCat
    (ReX.Base (seq [Bol; Star Space; lit "##"; Plus Space; lit name; Star Space; Eol;
                    One (Chr LF); Group (StarLazy Dot)]))
    (ReX.Lookahead
       (ReX.XAlt (ReX.Base (seq [Bol; Star Space; lit "##"; Plus Space])) ReX.EndZ)).

(** Grab everything after [## Name] until the next [## ]. *)
Definition section (body : text) (name : text) : text :=
  match ReX.xsearch ReX.MS (section_re name) body with
  | Some m => Py.strip (default [] (m_group1 m))
  | None => []
  end.

Definition _extract_sections (body : text) : text * text * text :=
  (section body "Diagnosis", section body "Remediation", section body "Rollback").

(** [a or b] on strings. *)
Definition or_else (a b : text) : text := if Py.truthy a then a else b.

Definition no_match_message : text :=
  "I couldn't find a matching runbook for this alert.

Try running `python cli.py --analyze` to see available runbooks, or add a new markdown runbook under `runbooks/`.".

Definition handle_alert (fs : gmap text node) (runbook_dir : text)
    (alert_text : text) : result text :=
  runbook_path ← _find_best_runbook fs runbook_dir alert_text;
  match runbook_path with
  | Some runbook_path =>
      if negb (Py.truthy runbook_path) then mret no_match_message
      else
        content ← _read_text fs runbook_path;
        let '(_, body) := RunbookAnalyzer._parse_frontmatter content in
        let steps := _extract_sections body in
        let title := Py.basename runbook_path in
        let response_lines : list text :=
          [ "Matched runbook: " ++ title;
            "";
            "## Diagnosis";
            or_else steps.1.1 "No explicit Diagnosis steps found.";
            "";
            "## Remediation";
            or_else steps.1.2 "No explicit Remediation steps found.";
            "";
            "## Rollback";
            or_else steps.2 "No explicit Rollback steps found.";
            "";
            "Safety note: confirm impact/approvals before any destructive action." ] in
        mret (Py.join [LF] response_lines)
  | None => mret no_match_message
  end.

End RunbookAgent.

(** ** chatbot.py *)

Module RunbookChatbot.

Import Re.

(** [\b(analyz|health|score|review|assess|improv|recommend)\b] *)
Definition analysis_re : regex :=
  seq [WordB;
       Group (alts [lit "analyz"; lit "health"; lit "score"; lit "review";
                    lit "assess"; lit "improv"; lit "recommend"]);
       WordB].

(** [\b(incident|alert|error|failure|latency|timeout|crash|outage)\b] *)
Definition incident_re : regex :=
  seq [WordB;
       Group (alts [lit "incident"; lit "alert"; lit "error"; lit "failure";
                    lit "latency"; lit "timeout"; lit "crash"; lit "outage"]);
       WordB].

Definition _detect_mode (message : text) : text :=
  let m := Py.lower message in
  if found NOFLAG analysis_re m then "analysis"
  else if found NOFLAG incident_re m then "incident"
  else "general".

End RunbookChatbot.

(** * Vocabulary of the properties

    The definitions that the statements below use: projections, the
    specification-level counterparts of the loops, well-formedness
    conditions, and the sample documents and directories on which the
    program is evaluated. *)

Import Re RunbookAnalyzer RunbookAgent.

(** ** Scores *)

(** The score and the issues of a tally. *)
Definition score_of (t : tally) : Q := t.1.1.
Definition issues_of (t : tally) : list text := t.1.2.

(** The headings that [analyze_runbook] derives from a body. *)
Definition headings_of (body : text) : list text :=
  map (λ h, Py.lower (Py.strip h)) (findall M _H2_RE body).

(** The non-blank lines that [_score_clarity] inspects. *)
Definition clarity_lines (body : text) : list text :=
  filter (λ ln, nonblank ln = true) (map (Py.rstrip_char LF) (Py.splitlines body)).

(** A line that starts a numbered or bulleted list item. *)
Definition is_step (ln : text) : bool :=
  bool_decide (is_Some (match_ NOFLAG step_re ln)).

(** The deductions from the safety score that apply to a document. *)
Definition safety_deductions (body : text) (headings : list text) : Q :=
  ((if existsb (λ p, found I p body) destructive_patterns
        && negb (found I confirmation_re body) then 35 else 0)
   + (if negb (bool_decide ("rollback" ∈ headings)) then 40 else 0)
   + (if negb (found I safety_re body) then 15 else 0))%Q.

(** The arithmetic mean of one score over a list of analyses. *)
Definition arithmetic_mean (f : RunbookAnalysis → Q) (l : list RunbookAnalysis) : Q :=
  (foldr (λ a acc, f a + acc) 0 l / inject_Z (Z.of_nat (length l)))%Q.

(** The dictionary [d] has the number [v] under the key [k]. *)
Definition has_field (d : gmap text Q) (k : text) (v : Q) : Prop :=
  ∃ x, d !! k = Some x ∧ (x == v)%Q.

(** ** Directories and candidates *)

(** A directory entry is considered when its name ends in [.md], whatever
    the case of the letters. *)
Definition is_markdown (name : text) : bool := Py.endswith ".md" (Py.lower name).

(** The entries of a directory in listing order; none when the path is
    not a directory. *)
Definition entries (fs : gmap text node) (dir : text) : list text :=
  match fs !! dir with
  | Some (Dir names) => names
  | _ => []
  end.

(** The candidate documents among [names]: path and content of every
    markdown entry that is a readable file, in the order of [names]. *)
Definition candidates_in (fs : gmap text node) (dir : text) (names : list text)
    : list (text * text) :=
  omap (λ name,
          if is_markdown name then
            match fs !! Py.path_join dir name with
            | Some (File content) => Some (Py.path_join dir name, content)
            | _ => None
            end
          else None)
       names.

Definition candidates (fs : gmap text node) (dir : text) : list (text * text) :=
  candidates_in fs dir (entries fs dir).

(** Every markdown entry among [names] is a file that can be read. *)
Definition readable_in (fs : gmap text node) (dir : text) (names : list text) : Prop :=
  ∀ name, name ∈ names → is_markdown name = true →
    ∃ content, fs !! Py.path_join dir name = Some (File content).

Definition readable (fs : gmap text node) (dir : text) : Prop :=
  readable_in fs dir (entries fs dir).

(** A check of [readable] that computes. *)
Definition readableb (fs : gmap text node) (dir : text) : bool :=
  forallb (λ name,
             if is_markdown name then
               match fs !! Py.path_join dir name with
               | Some (File _) => true
               | _ => false
               end
             else true)
          (entries fs dir).

(** The body of the loop of [_find_best_runbook]. *)
Definition consider (fs : gmap text node) (dir : text) (alert_tokens : list text)
    (best : nat * option text) (name : text) : result (nat * option text) :=
  if negb (Py.endswith ".md" (Py.lower name)) then mret best
  else
    let path := Py.path_join dir name in
    content ← RunbookAgent._read_text fs path;
    let score := _keyword_score alert_tokens content in
    if bool_decide (best.1 < score) then mret (score, Some path)
    else mret best.

(** The same update on a candidate that has been read. *)
Definition pick (alert_tokens : list text) (best : nat * option text)
    (cand : text * text) : nat * option text :=
  if bool_decide (best.1 < _keyword_score alert_tokens cand.2)
  then (_keyword_score alert_tokens cand.2, Some cand.1)
  else best.

(** [p] is the first candidate of [cs] with the maximal score, and that
    score is positive. *)
Definition first_best (toks : list text) (cs : list (text * text)) (p : text) : Prop :=
  ∃ pre c post,
    cs = pre ++ (p, c) :: post
    ∧ 0 < _keyword_score toks c
    ∧ Forall (λ q, _keyword_score toks q.2 < _keyword_score toks c) pre
    ∧ Forall (λ q, _keyword_score toks q.2 ≤ _keyword_score toks c) post.

(** The body of the loop of [analyze_all_runbooks]. *)
Definition analyze_entry (fs : gmap text node) (dir : text)
    (analyses : list RunbookAnalysis) (name : text) : result (list RunbookAnalysis) :=
  if negb (Py.endswith ".md" (Py.lower name)) then mret analyses
  else
    let path := Py.path_join dir name in
    try_except
      (a ← analyze_runbook fs path; mret (analyses ++ [a]))
      (λ _, mret analyses).

(** The analysis that the batch keeps for an entry, if any. *)
Definition kept (fs : gmap text node) (dir : text) (name : text) : option RunbookAnalysis :=
  if is_markdown name then
    match analyze_runbook fs (Py.path_join dir name) with
    | Ok a => Some a
    | Raise _ => None
    end
  else None.

(** ** Frontmatter *)

(** The closing delimiter of the frontmatter pattern: [\n---\s*\n]. *)
Definition closing_re : regex :=
  seq [One (Chr LF); lit "---"; Star Space; One (Chr LF)].

(** The character before the position that follows [pre]. *)
Definition before_after (b : option ascii) (pre : text) : option ascii :=
  match last pre with
  | Some x => Some x
  | None => b
  end.

(** No character of the text ends a line. *)
Definition nobreak (s : text) : Prop := Forall (λ x, Py.islinebreak x = false) s.

(** The trimming of a value in [_parse_yaml_kv]: [v.strip()], then the
    strip of the double quote, then the strip of the single quote. *)
Definition trim_value (v : text) : text :=
  Py.strip_char SQUOTE (Py.strip_char DQUOTE (Py.strip v)).

(** The body of the loop of [_parse_yaml_kv]. *)
Definition parse_line (meta : gmap text text) (line : text) : gmap text text :=
  let line := Py.strip line in
  if negb (Py.truthy line) || Py.startswith "#" line then meta
  else if negb (Py.contains ":" line) then meta
  else match Py.split1 ":" line with
       | [k; v] =>
           <[ Py.strip k :=
                Py.strip_char SQUOTE (Py.strip_char DQUOTE (Py.strip v)) ]> meta
       | _ => meta
       end.

(** What holds of every key that the parser stores: it has no line
    boundary and no colon, it neither starts nor ends with whitespace, and
    it does not start with the comment sign. *)
Record key_ok (k : text) : Prop := {
  key_nobreak : nobreak k;
  key_nocolon : ":"%char ∉ k;
  key_head : ∀ c, head k = Some c → Py.isspace c = false ∧ c ≠ "#"%char;
  key_last : ∀ c, last k = Some c → Py.isspace c = false
}.

(** What holds of every entry that the parser stores. *)
Definition entry_ok (k v : text) : Prop := key_ok k ∧ nobreak v.

(** Modelled from the spec: the program has no serializer, so [render],
    [serialize_items] and [serialize] follow the words of the round-trip
    property: the entries as [key: value] lines inside a block delimited
    by [---] lines.  [serialize_items] takes the entries in the order in
    which they are to be written; [serialize] writes them in the order of
    [map_to_list]. *)
Definition render (kv : text * text) : text := kv.1 ++ ": " ++ kv.2.

Definition serialize_items (items : list (text * text)) : text :=
  "---" ++ LF :: Py.join [LF] (render <$> items) ++ LF :: "---" ++ [LF].

Definition serialize (m : gmap text text) : text := serialize_items (map_to_list m).

(** The shape of a line that [serialize_items] writes, as far as the
    frontmatter pattern sees it: no line feed, a colon, and a first
    character that is not whitespace. *)
Definition plain_line (l : text) : Prop :=
  Forall (λ x, x ≠ LF) l ∧ ":"%char ∈ l ∧ ∃ c l', l = c :: l' ∧ Py.isspace c = false.

(** A character that [trim_value] removes from either end of a value. *)
Definition edge (c : ascii) : bool :=
  Py.isspace c || Ascii.eqb DQUOTE c || Ascii.eqb SQUOTE c.

(** A value that neither starts nor ends with whitespace or a quote
    character. *)
Definition plain_value (v : text) : Prop :=
  (∀ c, head v = Some c → edge c = false) ∧ (∀ c, last v = Some c → edge c = false).

(** ** Sample documents and directories *)

(** A directory with one runbook and a text file that is no candidate. *)
Definition sample_fs : gmap text node :=
  {[ "runbooks" := Dir ["notes.txt"; "db.md"];
     "runbooks/db.md" := File "## Diagnosis
1. Look at the slow query log.
";
     "runbooks/notes.txt" := File "latency" ]}.

(** Two runbooks of which one mentions the database and its latency. *)
Definition retrieval_fs : gmap text node :=
  {[ "runbooks" := Dir ["disk.md"; "db.MD"];
     "runbooks/disk.md" := File "Free space on the volume.";
     "runbooks/db.MD" := File "Database LATENCY: look at slow queries." ]}.

(** A directory with two runbooks, a text file, a subdirectory named like
    a runbook and a name that leads nowhere. *)
Definition batch_fs : gmap text node :=
  {[ "runbooks" := Dir ["z.MD"; "notes.txt"; "archive.md"; "gone.md"; "a.md"];
     "runbooks/z.MD" := File "## Rollback
";
     "runbooks/notes.txt" := File "## Diagnosis";
     "runbooks/archive.md" := Dir [];
     "runbooks/a.md" := File [] ]}.

(** A runbook with the five frontmatter keys, the three required
    sections, numbered steps, a code fence, a safety warning and a
    validation step. *)
Definition complete_runbook : text := "---
title: Database latency
version: 1.2
service_owner: dba-team
severity: high
trigger_criteria: p99 latency above 500ms
---
# Database latency

## Diagnosis
1. Look at the slow query log.

```bash
tail -n 50 /var/log/db/slow.log
```

## Remediation
1. Restart the connection pooler.

Safety: run this in a maintenance window.

Validation: latency is back under 200ms.

## Rollback
1. Restore the previous pooler configuration.
".

(** Frontmatter with a quoted value that keeps blanks inside its quotes. *)
Definition quoted_runbook : text := "---
title: Database latency
owner: 'dba team'
note: ' padded '
---
body
".

(** Frontmatter whose values are plain once parsed. *)
Definition plain_runbook : text := "---
title: Database latency
owner: 'dba team'
---
body
".

(** ** Issues, recommendations and the analysis of a text *)

(** The recommendations of a scorer's result. *)
Definition recs_of (t : tally) : list text := t.2.

(** The number of required frontmatter keys that are present with a
    non-empty value. *)
Definition present_keys (metadata : gmap text text) : nat :=
  length (filter (λ k, Py.get_truthy metadata k = true) REQUIRED_METADATA_KEYS).

(** A number of points as a score. *)
Definition points (n : nat) : Q := inject_Z (Z.of_nat n).

(** What [analyze_runbook] returns for a readable file. *)
Definition analysis_of (runbook_path content : text) : RunbookAnalysis :=
  let '(metadata, body) := _parse_frontmatter content in
  let headings := headings_of body in
  let c := _score_completeness metadata body headings in
  let s := _score_structure metadata body headings in
  let sa := _score_safety body headings in
  let cl := _score_clarity body in
  {| filename := Py.basename runbook_path;
     overall_score := ((score_of c + score_of s + score_of sa + score_of cl) / 4)%Q;
     completeness_score := score_of c;
     structure_score := score_of s;
     safety_score := score_of sa;
     clarity_score := score_of cl;
     issues := issues_of c ++ issues_of s ++ issues_of sa ++ issues_of cl;
     recommendations := recs_of c ++ recs_of s ++ recs_of sa ++ recs_of cl;
     metadata := metadata |}.

(** Every character of the text is whitespace. *)
Definition blank (s : text) : Prop := Forall (λ c, Py.isspace c = true) s.

(** ** Parsed values *)

(** A trimmed value neither starts nor ends with a single quote. *)
Definition unquoted (v : text) : Prop := head v ≠ Some SQUOTE ∧ last v ≠ Some SQUOTE.

(** ** The order of names and scored analyses *)

(** The order of [str] as a relation. *)
Definition text_le (a b : text) : Prop := Py.text_leb a b = true.

(** A score as the analyses hold it: a multiple of a quarter between 0
    and 100. *)
Definition graded (x : Q) : Prop :=
  ∃ k : Z, (0 <= k <= 400)%Z ∧ (x == inject_Z k / 4)%Q.

(** A check of [graded] that computes. *)
Definition gradedb (x : Q) : bool :=
  let q := Qred (x * 4) in
  (Z.pos (Qden q) =? 1)%Z && (0 <=? Qnum q)%Z && (Qnum q <=? 400)%Z.

(** The five scores of an analysis are such scores. *)
Definition graded_scores (a : RunbookAnalysis) : Prop :=
  graded (overall_score a) ∧ graded (completeness_score a)
  ∧ graded (structure_score a) ∧ graded (safety_score a)
  ∧ graded (clarity_score a).

Definition graded_scoresb (a : RunbookAnalysis) : bool :=
  gradedb (overall_score a) && gradedb (completeness_score a)
  && gradedb (structure_score a) && gradedb (safety_score a)
  && gradedb (clarity_score a).

(** A whole number. *)
Definition whole (x : Q) : Prop := ∃ z : Z, (x == inject_Z z)%Q.

(** Three analyses: a complete runbook under two names and a short one. *)
Definition sample_analyses : list RunbookAnalysis :=
  [analysis_of "runbooks/latency.md" complete_runbook;
   analysis_of "runbooks/pooler.md" complete_runbook;
   analysis_of "runbooks/db.md" "## Diagnosis
1. Look at the slow query log.
"].

(** ** Tokens and responses *)

(** A character of a token: a lower-case ASCII letter, a digit or the
    underscore. *)
Definition token_char (c : ascii) : bool :=
  Py.between 97 122 c || Py.isdecimal c || Ascii.eqb c "_".

(** The response for a matched runbook, from its title and the texts
    under the three headings. *)
Definition matched_response (title diagnosis remediation rollback : text) : text :=
  Py.join [LF]
    [ "Matched runbook: " ++ title; ""; "## Diagnosis"; diagnosis; "";
      "## Remediation"; remediation; ""; "## Rollback"; rollback; "";
      "Safety note: confirm impact/approvals before any destructive action." ].

(** ** The parts of the section pattern *)

(** The pattern of the heading line with the lazy group. *)
Definition heading_line (name : text) : regex :=
  seq [Bol; Star Space; lit "##"; Plus Space; lit name; Star Space; Eol;
       One (Chr LF); Group (StarLazy Dot)].

(** The pattern of the lookahead: the next heading or the end. *)
Definition heading_ahead : ReX.xregex :=
  ReX.XAlt (ReX.Base (seq [Bol; Star Space; lit "##"; Plus Space])) ReX.EndZ.

(** A text that starts with a character that is not whitespace. *)
Definition starts_plain (s : text) : Prop :=
  ∃ c r, s = c :: r ∧ Py.isspace c = false.

(** The rest of the section pattern after the lazy group that started at
    offset [off] of the text [s]: the group is closed and the lookahead
    is tried. *)
Definition after_group (s : text) (off : nat) (c' : cursor) : option cursor :=
  ReX.xrun ReX.MS (ReX.Lookahead heading_ahead)
    (Cursor (before c') (offset c') (after c') (Some (take (offset c' - off) s))) Some.

(** ** Whole words *)

(** The alternatives of the analysis pattern of [_detect_mode]. *)
Definition analysis_stems : list text :=
  ["analyz"; "health"; "score"; "review"; "assess"; "improv"; "recommend"].

(** The alternatives of the incident pattern. *)
Definition incident_words : list text :=
  ["incident"; "alert"; "error"; "failure"; "latency"; "timeout"; "crash"; "outage"].

(** [\b(w1|w2|...)\b] *)
Definition whole_word_re (words : list text) : regex :=
  seq [WordB; Group (alts (map lit words)); WordB].

(** The text [w] stands in [pre ++ w ++ post] as a whole word: no word
    character before it and none after it. *)
Definition whole_word (pre w post : text) : Prop :=
  (∀ c, last pre = Some c → Py.isword c = false)
  ∧ (∀ c, head post = Some c → Py.isword c = false).

(** * Properties *)

(** ** Arithmetic of the scorers *)

Lemma py_min_le_l (a b : Q) : (Py.min a b <= a)%Q.
Proof.
  unfold Py.min. destruct (Qle_bool a b) eqn:E; [lra|].
  destruct (Qlt_le_dec b a) as [H|H]; [lra|].
  apply Qle_bool_iff in H. congruence.
Qed.

Lemma py_min_le_r (a b : Q) : (Py.min a b <= b)%Q.
Proof.
  unfold Py.min. destruct (Qle_bool a b) eqn:E; [|lra].
  by apply Qle_bool_iff.
Qed.

Lemma py_min_glb (a b c : Q) : (c <= a)%Q → (c <= b)%Q → (c <= Py.min a b)%Q.
Proof. unfold Py.min. by destruct (Qle_bool a b). Qed.

Lemma py_min_r (a b : Q) : (b <= a)%Q → (Py.min a b == b)%Q.
Proof.
  intros H. unfold Py.min. destruct (Qle_bool a b) eqn:E; [|reflexivity].
  apply Qle_bool_iff in E. lra.
Qed.

Lemma py_max_r (a b : Q) : (a <= b)%Q → (Py.max a b == b)%Q.
Proof.
  intros H. unfold Py.max. destruct (Qle_bool b a) eqn:E; [|reflexivity].
  apply Qle_bool_iff in E. lra.
Qed.

Lemma check_score (passed : bool) (points : Q) (issue rec : text) (t : tally) :
  score_of (check passed points issue rec t)
  = if passed then (score_of t + points)%Q else score_of t.
Proof. destruct t as [[s i] r]. by destruct passed. Qed.

Lemma check_issues (passed : bool) (points : Q) (issue rec : text) (t : tally) :
  issues_of (check passed points issue rec t)
  = if passed then issues_of t else issues_of t ++ [issue].
Proof. destruct t as [[s i] r]. by destruct passed. Qed.

(** Completeness is a sum of four all-or-nothing quarters. *)
Lemma completeness_range (metadata : gmap text text) (body : text) (headings : list text) :
  (0 <= score_of (_score_completeness metadata body headings) <= 100)%Q.
Proof.
  unfold _score_completeness. rewrite !check_score. unfold score_of. simpl.
  repeat match goal with |- context [if ?b then _ else _] => destruct b end; lra.
Qed.

Lemma missing_keys_length (metadata : gmap text text) :
  length (filter (λ k, negb (Py.get_truthy metadata k) = true) REQUIRED_METADATA_KEYS) ≤ 5.
Proof. etrans; [apply length_filter|]. done. Qed.

(** Structure: the penalty for missing keys never exceeds the 40 points
    granted for the frontmatter block. *)
Lemma structure_range (metadata : gmap text text) (body : text) (headings : list text) :
  (0 <= score_of (_score_structure metadata body headings) <= 100)%Q.
Proof.
  unfold _score_structure.
  set (mk := filter _ REQUIRED_METADATA_KEYS).
  set (pen := Py.min 40 (8 * inject_Z (Z.of_nat (length mk)))).
  assert (Hpen : (0 <= pen <= 40)%Q).
  { split; [|apply py_min_le_l].
    apply py_min_glb; [lra|].
    assert (0 <= inject_Z (Z.of_nat (length mk)))%Q.
    { change 0%Q with (inject_Z 0). rewrite <- Zle_Qle. lia. }
    lra. }
  clearbody pen.
  set (t := check (Py.get_truthy metadata "service_owner") 15 _ _ _).
  assert (Ht : (0 <= score_of t)%Q); [subst t|destruct t as [[s i] r]].
  - rewrite !check_score.
    destruct (bool_decide (metadata ≠ ∅)); [destruct mk|];
      unfold score_of; simpl;
      repeat match goal with |- context [if ?b then _ else _] => destruct b end; lra.
  - unfold score_of in *. simpl in *. split.
    + apply py_min_glb; lra.
    + apply py_min_le_l.
Qed.

Lemma safety_score_eq (body : text) (headings : list text) :
  (score_of (_score_safety body headings) == 100 - safety_deductions body headings)%Q.
Proof.
  unfold _score_safety, safety_deductions, score_of.
  destruct (existsb _ destructive_patterns), (found I confirmation_re body),
    (bool_decide ("rollback" ∈ headings)), (found I safety_re body);
    vm_compute; reflexivity.
Qed.

Lemma safety_deductions_range (body : text) (headings : list text) :
  (0 <= safety_deductions body headings <= 90)%Q.
Proof.
  unfold safety_deductions.
  repeat match goal with |- context [if ?b then _ else _] => destruct b end; lra.
Qed.

Lemma clarity_range (body : text) :
  (0 <= score_of (_score_clarity body) <= 100)%Q.
Proof.
  unfold _score_clarity.
  destruct (filter _ _) as [|ln non_empty']; [unfold score_of; simpl; lra|].
  set (non_empty := ln :: non_empty').
  match goal with |- context [existsb ?f non_empty] => destruct (existsb f non_empty) end;
  destruct (Py.contains "```" body);
  match goal with |- context [bool_decide ?P] => destruct (bool_decide P) end;
  match goal with |- context [filter ?P non_empty] => destruct (filter P non_empty) end;
  unfold score_of; simpl; split;
  first [apply py_min_glb; lra | apply py_min_le_l].
Qed.

(** ** The analysis result *)

(** C1.  Every analysis that [analyze_runbook] returns for a readable
    document has its four dimension scores between 0 and 100, and its
    overall score is the sum of the four divided by 4. *)
Theorem analysis_scores_in_range_and_overall_is_mean
    (fs : gmap text node) (path content : text) :
  fs !! path = Some (File content) →
  ∃ r, analyze_runbook fs path = Ok r
    ∧ (0 <= completeness_score r <= 100)%Q
    ∧ (0 <= structure_score r <= 100)%Q
    ∧ (0 <= safety_score r <= 100)%Q
    ∧ (0 <= clarity_score r <= 100)%Q
    ∧ overall_score r
      = ((completeness_score r + structure_score r + safety_score r + clarity_score r) / 4)%Q.
Proof.
  intros Hfile. unfold analyze_runbook, Os.exists_, RunbookAnalyzer._read_text, Os.read_text.
  rewrite Hfile. rewrite bool_decide_eq_true_2 by eauto. simpl.
  destruct (_parse_frontmatter content) as [metadata body].
  set (headings := map _ (findall M _H2_RE body)).
  pose proof (completeness_range metadata body headings) as Hc.
  pose proof (structure_range metadata body headings) as Hs.
  pose proof (safety_score_eq body headings) as Hsa.
  pose proof (safety_deductions_range body headings) as Hd.
  pose proof (clarity_range body) as Hcl.
  destruct (_score_completeness metadata body headings) as [[c ci] cr].
  destruct (_score_structure metadata body headings) as [[s si] sr].
  destruct (_score_safety body headings) as [[sa sai] sar].
  destruct (_score_clarity body) as [[cl cli] clr].
  unfold score_of in *. simpl in *.
  eexists. split; [reflexivity|]. simpl.
  repeat split; try tauto; lra.
Qed.

Lemma analysis_scores_in_range_and_overall_is_mean_witness :
  ∃ r, analyze_runbook sample_fs "runbooks/db.md" = Ok r
    ∧ (0 <= completeness_score r <= 100)%Q
    ∧ (0 <= structure_score r <= 100)%Q
    ∧ (0 <= safety_score r <= 100)%Q
    ∧ (0 <= clarity_score r <= 100)%Q
    ∧ overall_score r
      = ((completeness_score r + structure_score r + safety_score r + clarity_score r) / 4)%Q.
Proof.
  apply (analysis_scores_in_range_and_overall_is_mean sample_fs "runbooks/db.md"
           "## Diagnosis
1. Look at the slow query log.
").
  vm_compute. reflexivity.
Defined.

(** C10.  The safety score is 100 less the deductions that apply, the
    deductions sum to at most 90, so the score is at least 10 whatever the
    body and the headings: the clamp at 0 does not bind and 0 is not a
    possible safety score. *)
Theorem safety_score_at_least_10 (body : text) (headings : list text) :
  (score_of (_score_safety body headings) == 100 - safety_deductions body headings)%Q
  ∧ (safety_deductions body headings <= 35 + 40 + 15)%Q
  ∧ (10 <= score_of (_score_safety body headings))%Q
  ∧ ¬ (score_of (_score_safety body headings) == 0)%Q.
Proof.
  pose proof (safety_score_eq body headings) as He.
  pose proof (safety_deductions_range body headings) as Hd.
  repeat split; lra.
Qed.

(** C4.  The empty document parses to no metadata, an empty body and no
    headings; its completeness and structure are 0, its safety is 45
    (100 - 40 - 15) and its clarity is 0 with the single issue of the
    empty-content branch. *)
Theorem empty_document_scores :
  _parse_frontmatter [] = (∅, [])
  ∧ headings_of [] = []
  ∧ score_of (_score_completeness ∅ [] []) = 0%Q
  ∧ score_of (_score_structure ∅ [] []) = 0%Q
  ∧ score_of (_score_safety [] []) = 45%Q
  ∧ issues_of (_score_safety [] [])
    = ["No rollback section found (required for safe operations).";
       "No safety warnings/cautions found."]
  ∧ _score_clarity []
    = (0%Q, ["Runbook content is empty."], ["Add clear, step-by-step runbook content."]).
Proof. vm_compute. repeat split; reflexivity. Qed.

(** The same scores as [analyze_runbook] reports them for an empty file. *)
Lemma empty_file_analysis :
  ∃ r, analyze_runbook {[ "empty.md" := File [] ]} "empty.md" = Ok r
    ∧ completeness_score r = 0%Q ∧ structure_score r = 0%Q
    ∧ safety_score r = 45%Q ∧ clarity_score r = 0%Q
    ∧ overall_score r = (45 # 4)%Q.
Proof. eexists. split; [vm_compute; reflexivity|]. vm_compute. repeat split; reflexivity. Qed.

(** ** The intent classifier *)

(** C2.  On the message [Please analyze this alert for latency issues]
    the classifier answers [incident] and not [analysis]: the analysis
    pattern holds the stems [analyz] and [improv] between two
    word boundaries, so it matches neither [analyze] nor [improve], and
    the incident pattern then finds [alert]. *)
Theorem detect_mode_analyze_alert :
  RunbookChatbot._detect_mode "Please analyze this alert for latency issues" = "incident"
  ∧ found NOFLAG RunbookChatbot.analysis_re "please analyze this alert for latency issues" = false
  ∧ RunbookChatbot._detect_mode "analyze my runbook" = "general"
  ∧ RunbookChatbot._detect_mode "how can I improve it" = "general"
  ∧ RunbookChatbot._detect_mode "analyz this alert" = "analysis".
Proof. vm_compute. repeat split; reflexivity. Qed.

(** The five other words of the analysis vocabulary do take precedence
    over an incident word. *)
Lemma detect_mode_precedence_examples :
  RunbookChatbot._detect_mode "Health of the latency runbook" = "analysis"
  ∧ RunbookChatbot._detect_mode "score this alert" = "analysis"
  ∧ RunbookChatbot._detect_mode "review the outage" = "analysis"
  ∧ RunbookChatbot._detect_mode "assess the crash" = "analysis"
  ∧ RunbookChatbot._detect_mode "recommend a fix for the timeout" = "analysis"
  ∧ RunbookChatbot._detect_mode "Database latency high" = "incident".
Proof. vm_compute. repeat split; reflexivity. Qed.

(** ** A complete runbook *)

(** C3.  [complete_runbook] has all that a complete runbook needs: the five
    frontmatter keys, the three headings, a numbered list, a code fence, a
    [Safety:] warning, a [Validation:] step, no destructive pattern and no
    long line.  Structure, safety and clarity are 100, but completeness is
    75: the validation pattern has [validate], [verification], [verify],
    [confirm] and [check], and not [validation]. *)
Theorem complete_runbook_scores :
  let '(metadata, body) := _parse_frontmatter complete_runbook in
  let headings := headings_of body in
  forallb (Py.get_truthy metadata) REQUIRED_METADATA_KEYS = true
  ∧ headings = ["diagnosis"; "remediation"; "rollback"]
  ∧ existsb (λ ln, bool_decide (is_Some (match_ NOFLAG step_re ln))) (Py.splitlines body) = true
  ∧ Py.contains "```" body = true
  ∧ Py.contains "Safety:" body = true
  ∧ Py.contains "Validation:" body = true
  ∧ existsb (λ p, found I p body) destructive_patterns = false
  ∧ forallb (λ ln, bool_decide (length ln ≤ 140)) (Py.splitlines complete_runbook) = true
  ∧ found I validation_re body = false
  ∧ _score_completeness metadata body headings
    = (75%Q, ["No explicit validation/verification steps found."],
       ["Add a 'Validation' step after remediation to confirm the issue is resolved."])
  ∧ score_of (_score_structure metadata body headings) = 100%Q
  ∧ score_of (_score_safety body headings) = 100%Q
  ∧ score_of (_score_clarity body) = 100%Q.
Proof. vm_compute. repeat split; reflexivity. Qed.

(** What the scorers do guarantee: with a word of the validation pattern
    in the body, the same conditions give 100 on every dimension. *)
Lemma complete_document_scores (metadata : gmap text text) (body : text)
    (headings : list text) :
  Forall (λ k, Py.get_truthy metadata k = true) REQUIRED_METADATA_KEYS →
  Forall (λ s, s ∈ headings) REQUIRED_SECTIONS →
  found I validation_re body = true →
  found I safety_re body = true →
  existsb (λ p, found I p body) destructive_patterns = false →
  existsb is_step (clarity_lines body) = true →
  Py.contains "```" body = true →
  Forall (λ ln, length ln ≤ 140) (clarity_lines body) →
  score_of (_score_completeness metadata body headings) = 100%Q
  ∧ score_of (_score_structure metadata body headings) = 100%Q
  ∧ score_of (_score_safety body headings) = 100%Q
  ∧ score_of (_score_clarity body) = 100%Q.
Proof.
  intros Hkeys Hsections Hval Hsafe Hdestr Hstep Hfence Hlong.
  unfold REQUIRED_METADATA_KEYS in Hkeys. rewrite !Forall_cons in Hkeys.
  destruct Hkeys as (Ht & Hv & Ho & Hs & Htc & _).
  unfold REQUIRED_SECTIONS in Hsections. rewrite !Forall_cons in Hsections.
  destruct Hsections as (Hd & Hr & Hrb & _).
  assert (Hne : metadata ≠ ∅).
  { intros ->. unfold Py.get_truthy in Ht. by rewrite lookup_empty in Ht. }
  split_and!.
  - unfold _score_completeness. rewrite !check_score. cbn [map REQUIRED_SECTIONS forallb fst snd].
    rewrite Htc, Hval, Ho, !bool_decide_eq_true_2 by done. by vm_compute.
  - unfold _score_structure. rewrite bool_decide_eq_true_2 by done.
    assert (filter (λ k, negb (Py.get_truthy metadata k) = true) REQUIRED_METADATA_KEYS = [])
      as ->.
    { unfold REQUIRED_METADATA_KEYS. rewrite !filter_cons, filter_nil.
      by rewrite Ht, Hv, Ho, Hs, Htc. }
    rewrite Hv, Ho. destruct headings as [|h hs]; [by apply elem_of_nil in Hd|].
    by vm_compute.
  - unfold _score_safety. rewrite Hdestr, Hsafe, bool_decide_eq_true_2 by done.
    by vm_compute.
  - unfold _score_clarity. fold (clarity_lines body). fold is_step.
    destruct (clarity_lines body) as [|ln lns] eqn:El; [done|].
    rewrite Hstep, Hfence.
    assert (filter (λ ln0, 140 < length ln0) (ln :: lns) = []) as ->.
    { clear -Hlong. induction Hlong as [|x l Hx Hl IH]; [done|].
      rewrite filter_cons. case_decide; [lia|done]. }
    rewrite bool_decide_eq_true_2 by (simpl; lia). by vm_compute.
Qed.

(** ** Retrieval *)

Lemma find_best_unfold (fs : gmap text node) (dir alert : text) :
  _find_best_runbook fs dir alert
  = if negb (Os.isdir fs dir) then Ok None
    else names ← Os.listdir fs dir;
         best ← for_each names (0, None) (consider fs dir (_tokens alert));
         mret best.2.
Proof. reflexivity. Qed.

Lemma for_each_cons {A St} (x : A) (xs : list A) (s : St) (body : St → A → result St) :
  for_each (x :: xs) s body = body s x ≫= λ s', for_each xs s' body.
Proof. reflexivity. Qed.

Lemma consider_other (fs : gmap text node) (dir : text) (toks : list text)
    (best : nat * option text) (name : text) :
  is_markdown name = false → consider fs dir toks best name = Ok best.
Proof. unfold consider, is_markdown. by intros ->. Qed.

Lemma consider_file (fs : gmap text node) (dir : text) (toks : list text)
    (best : nat * option text) (name content : text) :
  is_markdown name = true →
  fs !! Py.path_join dir name = Some (File content) →
  consider fs dir toks best name = Ok (pick toks best (Py.path_join dir name, content)).
Proof.
  unfold consider, is_markdown, RunbookAgent._read_text, Os.read_text, pick.
  intros -> ->. simpl. by destruct (bool_decide _).
Qed.

Lemma consider_returned (fs : gmap text node) (dir : text) (toks : list text)
    (best best' : nat * option text) (name : text) :
  is_markdown name = true →
  consider fs dir toks best name = Ok best' →
  ∃ content, fs !! Py.path_join dir name = Some (File content).
Proof.
  unfold consider, is_markdown, RunbookAgent._read_text, Os.read_text.
  intros ->. simpl. destruct (fs !! Py.path_join dir name) as [[content|?]|]; by eauto.
Qed.

(** The loop returns when every markdown entry is readable, and then it
    has folded [pick] over the candidates. *)
Lemma loop_returns (fs : gmap text node) (dir : text) (toks : list text)
    (names : list text) (best : nat * option text) :
  readable_in fs dir names →
  for_each names best (consider fs dir toks)
  = Ok (foldl (pick toks) best (candidates_in fs dir names)).
Proof.
  revert best. induction names as [|name names IH]; intros best Hr; [done|].
  assert (Hr' : readable_in fs dir names).
  { intros n Hn. apply Hr. by right. }
  rewrite for_each_cons. unfold candidates_in. simpl.
  destruct (is_markdown name) eqn:Emd.
  - destruct (Hr name) as [content Hc]; [by left|done|].
    rewrite (consider_file _ _ _ _ _ content), Hc by done. simpl. by apply IH.
  - rewrite consider_other by done. simpl. by apply IH.
Qed.

(** Conversely the loop returns only when every markdown entry is
    readable. *)
Lemma loop_returned (fs : gmap text node) (dir : text) (toks : list text)
    (names : list text) (best best' : nat * option text) :
  for_each names best (consider fs dir toks) = Ok best' →
  readable_in fs dir names.
Proof.
  revert best. induction names as [|name names IH]; intros best Hloop n Hn Hmd.
  { by apply elem_of_nil in Hn. }
  rewrite for_each_cons in Hloop.
  destruct (consider fs dir toks best name) as [b1|e] eqn:Ec; [|done].
  simpl in Hloop.
  apply elem_of_cons in Hn as [->|Hn].
  - by eapply consider_returned.
  - by eapply IH.
Qed.

(** What a fold of [pick] selects: either nothing beats the initial
    score, or the result is the first candidate that attains the maximal
    score, which is larger than the initial one. *)
Lemma pick_selects (toks : list text) (cs : list (text * text)) (b : nat)
    (bp : option text) :
  (foldl (pick toks) (b, bp) cs = (b, bp)
   ∧ Forall (λ q, _keyword_score toks q.2 ≤ b) cs)
  ∨ (∃ pre p c post,
       cs = pre ++ (p, c) :: post
       ∧ foldl (pick toks) (b, bp) cs = (_keyword_score toks c, Some p)
       ∧ b < _keyword_score toks c
       ∧ Forall (λ q, _keyword_score toks q.2 < _keyword_score toks c) pre
       ∧ Forall (λ q, _keyword_score toks q.2 ≤ _keyword_score toks c) post).
Proof.
  revert b bp. induction cs as [|[p c] cs IH]; intros b bp.
  { left. by split. }
  assert (Hstep : pick toks (b, bp) (p, c)
                  = if bool_decide (b < _keyword_score toks c)
                    then (_keyword_score toks c, Some p) else (b, bp)) by done.
  simpl foldl. rewrite Hstep. clear Hstep. case_bool_decide as Hlt.
  - destruct (IH (_keyword_score toks c) (Some p))
      as [[Heq Hall]|(pre & p' & c' & post & -> & Heq & Hb & Hpre & Hpost)].
    + right. exists [], p, c, cs. split_and!; [done|done|done|constructor|done].
    + right. exists ((p, c) :: pre), p', c', post.
      split_and!; [done|done|lia| |done]. by constructor.
  - destruct (IH b bp)
      as [[Heq Hall]|(pre & p' & c' & post & -> & Heq & Hb & Hpre & Hpost)].
    + left. split; [done|]. constructor; [simpl; lia|done].
    + right. exists ((p, c) :: pre), p', c', post.
      split_and!; [done|done|done| |done]. constructor; [simpl; lia|done].
Qed.

Lemma pick_from_zero (toks : list text) (cs : list (text * text)) :
  ((foldl (pick toks) (0, None) cs).2 = None
   ∧ Forall (λ q, _keyword_score toks q.2 = 0) cs)
  ∨ (∃ p, (foldl (pick toks) (0, None) cs).2 = Some p ∧ first_best toks cs p).
Proof.
  destruct (pick_selects toks cs 0 None)
    as [[Heq Hall]|(pre & p & c & post & -> & Heq & Hb & Hpre & Hpost)].
  - left. rewrite Heq. split; [done|].
    eapply Forall_impl; [exact Hall|]. simpl. lia.
  - right. exists p. rewrite Heq. split; [done|]. by exists pre, c, post.
Qed.

Lemma first_best_positive (toks : list text) (cs : list (text * text)) (p : text) :
  first_best toks cs p →
  ∃ c, (p, c) ∈ cs ∧ 0 < _keyword_score toks c
       ∧ Forall (λ q, _keyword_score toks q.2 ≤ _keyword_score toks c) cs.
Proof.
  intros (pre & c & post & -> & Hpos & Hpre & Hpost). exists c.
  split; [set_solver|]. split; [done|].
  apply Forall_app. split.
  - eapply Forall_impl; [exact Hpre|]. simpl. lia.
  - by constructor.
Qed.

(** The finder on a readable directory. *)
Lemma find_best_readable (fs : gmap text node) (dir alert : text) :
  readable fs dir →
  _find_best_runbook fs dir alert
  = Ok (foldl (pick (_tokens alert)) (0, None) (candidates fs dir)).2.
Proof.
  intros Hr. rewrite find_best_unfold. unfold candidates, readable, entries in *.
  unfold Os.isdir, Os.listdir.
  destruct (fs !! dir) as [[content|names]|]; simpl; try done.
  by rewrite loop_returns.
Qed.

(** Whenever the finder returns, the directory was readable. *)
Lemma find_best_returned (fs : gmap text node) (dir alert : text) (r : option text) :
  _find_best_runbook fs dir alert = Ok r → readable fs dir.
Proof.
  rewrite find_best_unfold. unfold readable, entries, Os.isdir, Os.listdir.
  destruct (fs !! dir) as [[content|names]|]; simpl;
    try (intros _ n Hn; by apply elem_of_nil in Hn).
  destruct (for_each names _ _) as [best'|e] eqn:Eloop; [|done].
  intros _. by eapply loop_returned.
Qed.

(** When some markdown entry cannot be read, the finder raises: it has no
    handler around the read. *)
Lemma find_best_raises (fs : gmap text node) (dir alert : text) :
  ¬ readable fs dir → ∃ e, _find_best_runbook fs dir alert = Raise e.
Proof.
  intros Hn. destruct (_find_best_runbook fs dir alert) as [r|e] eqn:E; [|by eexists].
  by apply find_best_returned in E.
Qed.

Lemma candidates_in_file (fs : gmap text node) (dir : text) (names : list text)
    (p c : text) :
  (p, c) ∈ candidates_in fs dir names → fs !! p = Some (File c).
Proof.
  unfold candidates_in. rewrite list_elem_of_omap. intros (name & _ & Hsome).
  destruct (is_markdown name); [|done].
  destruct (fs !! Py.path_join dir name) as [[content|?]|] eqn:E; by simplify_eq.
Qed.

Lemma candidates_in_elem (fs : gmap text node) (dir : text) (names : list text)
    (name content : text) :
  name ∈ names → is_markdown name = true →
  fs !! Py.path_join dir name = Some (File content) →
  (Py.path_join dir name, content) ∈ candidates_in fs dir names.
Proof.
  intros Hn Hmd Hc. unfold candidates_in. rewrite list_elem_of_omap.
  exists name. split; [done|]. by rewrite Hmd, Hc.
Qed.


Lemma readableb_readable (fs : gmap text node) (dir : text) :
  readableb fs dir = true → readable fs dir.
Proof.
  unfold readableb, readable. rewrite forallb_forall.
  intros Hall name Hn Hmd. apply list_elem_of_In in Hn.
  specialize (Hall name Hn). rewrite Hmd in Hall.
  destruct (fs !! Py.path_join dir name) as [[content|?]|]; by eauto.
Qed.



(** What the finder selects on [sample_fs]: [notes.txt] mentions the
    alert but is no candidate, and [db.md] matches two tokens. *)
Lemma find_best_runbook_sample :
  _find_best_runbook sample_fs "runbooks" "Slow query latency" = Ok (Some "runbooks/db.md")
  ∧ _find_best_runbook sample_fs "runbooks" "disk full" = Ok None
  ∧ _find_best_runbook sample_fs "nowhere" "Slow query latency" = Ok None.
Proof. vm_compute. repeat split; reflexivity. Qed.

Lemma tokens_database_latency_high :
  _tokens "Database Latency High" = ["database"; "latency"; "high"].
Proof. vm_compute. reflexivity. Qed.

Lemma keyword_score_cons (t : text) (toks : list text) (content : text) :
  _keyword_score (t :: toks) content
  = (if Py.truthy t && Py.contains t (Py.lower content) then 1 else 0)
    + _keyword_score toks content.
Proof.
  unfold _keyword_score. rewrite filter_cons.
  destruct (Py.truthy t && Py.contains t (Py.lower content)); by case_decide.
Qed.

(** C5.  For the alert [Database Latency High], a document that contains
    [database] and [latency] but not [high] (ignoring case) has keyword
    score 2; a document that contains none of the three tokens has score
    0 and is never the one the finder returns; and when the directory is
    readable the finder returns a document of score at least 2. *)
Theorem database_latency_retrieval (fs : gmap text node) (dir : text)
    (names : list text) (n1 c1 n0 c0 : text) :
  fs !! dir = Some (Dir names) →
  n1 ∈ names → is_markdown n1 = true → fs !! Py.path_join dir n1 = Some (File c1) →
  n0 ∈ names → is_markdown n0 = true → fs !! Py.path_join dir n0 = Some (File c0) →
  Py.contains "database" (Py.lower c1) = true →
  Py.contains "latency" (Py.lower c1) = true →
  Py.contains "high" (Py.lower c1) = false →
  Forall (λ t, Py.contains t (Py.lower c0) = false) (_tokens "Database Latency High") →
  _keyword_score (_tokens "Database Latency High") c1 = 2
  ∧ _keyword_score (_tokens "Database Latency High") c0 = 0
  ∧ _find_best_runbook fs dir "Database Latency High" ≠ Ok (Some (Py.path_join dir n0))
  ∧ (readable fs dir →
     ∃ p c, _find_best_runbook fs dir "Database Latency High" = Ok (Some p)
            ∧ fs !! p = Some (File c)
            ∧ 2 ≤ _keyword_score (_tokens "Database Latency High") c).
Proof.
  intros Hdir Hn1 Hmd1 Hf1 Hn0 Hmd0 Hf0 Hdb Hlat Hhigh Hnone.
  set (toks := _tokens "Database Latency High") in *.
  assert (Hs1 : _keyword_score toks c1 = 2).
  { subst toks. rewrite tokens_database_latency_high, !keyword_score_cons.
    by rewrite Hdb, Hlat, Hhigh. }
  assert (Hs0 : _keyword_score toks c0 = 0).
  { subst toks. rewrite tokens_database_latency_high in *.
    rewrite !Forall_cons in Hnone. destruct Hnone as (H1 & H2 & H3 & _).
    rewrite !keyword_score_cons. by rewrite H1, H2, H3. }
  assert (Hcand : (Py.path_join dir n1, c1) ∈ candidates fs dir).
  { unfold candidates, entries. rewrite Hdir. by apply candidates_in_elem. }
  split_and!; [done|done| |].
  - intros Hret. pose proof (find_best_returned _ _ _ _ Hret) as Hr.
    rewrite (find_best_readable _ _ _ Hr) in Hret. fold toks in Hret.
    injection Hret as Hret.
    destruct (pick_from_zero toks (candidates fs dir))
      as [[Hn _]|(p & Hsome & Hfirst)]; [congruence|].
    assert (p = Py.path_join dir n0) as -> by congruence.
    apply first_best_positive in Hfirst as (c & Hin & Hpos & _).
    apply candidates_in_file in Hin. assert (c = c0) as -> by congruence. lia.
  - intros Hr. rewrite (find_best_readable _ _ _ Hr). fold toks.
    destruct (pick_from_zero toks (candidates fs dir))
      as [[_ Hzero]|(p & Hsome & Hfirst)].
    + rewrite Forall_forall in Hzero. specialize (Hzero _ Hcand). simpl in Hzero. lia.
    + apply first_best_positive in Hfirst as (c & Hin & Hpos & Hmax).
      exists p, c. split_and!; [by rewrite Hsome|by eapply candidates_in_file|].
      rewrite Forall_forall in Hmax. specialize (Hmax _ Hcand). simpl in Hmax. lia.
Qed.

Lemma database_latency_retrieval_witness :
  _keyword_score (_tokens "Database Latency High") "Database LATENCY: look at slow queries." = 2
  ∧ _keyword_score (_tokens "Database Latency High") "Free space on the volume." = 0
  ∧ _find_best_runbook retrieval_fs "runbooks" "Database Latency High"
    ≠ Ok (Some (Py.path_join "runbooks" "disk.md"))
  ∧ ∃ p c, _find_best_runbook retrieval_fs "runbooks" "Database Latency High" = Ok (Some p)
           ∧ retrieval_fs !! p = Some (File c)
           ∧ 2 ≤ _keyword_score (_tokens "Database Latency High") c.
Proof.
  destruct (database_latency_retrieval retrieval_fs "runbooks" ["disk.md"; "db.MD"]
              "db.MD" "Database LATENCY: look at slow queries."
              "disk.md" "Free space on the volume.") as (H1 & H2 & H3 & H4).
  - vm_compute. reflexivity.
  - apply list_elem_of_In. simpl. tauto.
  - vm_compute. reflexivity.
  - vm_compute. reflexivity.
  - apply list_elem_of_In. simpl. tauto.
  - vm_compute. reflexivity.
  - vm_compute. reflexivity.
  - vm_compute. reflexivity.
  - vm_compute. reflexivity.
  - vm_compute. reflexivity.
  - rewrite tokens_database_latency_high. repeat constructor.
  - split_and!; [exact H1|exact H2|exact H3|].
    apply H4, readableb_readable. vm_compute. reflexivity.
Defined.

(** ** Batch analysis *)

Lemma analyze_all_unfold (fs : gmap text node) (dir : text) :
  analyze_all_runbooks fs dir
  = if negb (Os.isdir fs dir) then Ok []
    else names ← Os.listdir fs dir;
         for_each (Py.sorted names) [] (analyze_entry fs dir).
Proof. reflexivity. Qed.

Lemma analyze_entry_kept (fs : gmap text node) (dir : text)
    (analyses : list RunbookAnalysis) (name : text) :
  analyze_entry fs dir analyses name
  = Ok (analyses ++ option_list (kept fs dir name)).
Proof.
  unfold analyze_entry, kept, is_markdown.
  destruct (Py.endswith ".md" (Py.lower name)); simpl; [|by rewrite app_nil_r].
  destruct (analyze_runbook fs (Py.path_join dir name)); simpl; [done|].
  by rewrite app_nil_r.
Qed.

Lemma analyze_loop (fs : gmap text node) (dir : text) (names : list text)
    (analyses : list RunbookAnalysis) :
  for_each names analyses (analyze_entry fs dir)
  = Ok (analyses ++ omap (kept fs dir) names).
Proof.
  revert analyses. induction names as [|name names IH]; intros analyses.
  { simpl. by rewrite app_nil_r. }
  rewrite for_each_cons, analyze_entry_kept. simpl. rewrite IH, <- app_assoc.
  by destruct (kept fs dir name).
Qed.

Lemma insert_sorted_perm (x : text) (l : list text) :
  Py.insert_sorted x l ≡ₚ x :: l.
Proof.
  induction l as [|y l IH]; simpl; [done|].
  destruct (Py.text_leb x y); [done|]. rewrite IH. apply Permutation_swap.
Qed.

Lemma sorted_perm (l : list text) : Py.sorted l ≡ₚ l.
Proof.
  unfold Py.sorted. induction l as [|x l IH]; simpl; [done|].
  by rewrite insert_sorted_perm, IH.
Qed.

(** A single analysis returns exactly for a path that names a file. *)
Lemma analyze_runbook_returns (fs : gmap text node) (path : text) :
  (∃ r, analyze_runbook fs path = Ok r) ↔ ∃ content, fs !! path = Some (File content).
Proof.
  split.
  - intros [r Hr]. unfold analyze_runbook, Os.exists_, RunbookAnalyzer._read_text,
      Os.read_text in Hr.
    destruct (fs !! path) as [[content|?]|]; [by eauto| |].
    + by rewrite bool_decide_eq_true_2 in Hr by eauto.
    + rewrite bool_decide_eq_false_2 in Hr; [done|]. by intros [? ?].
  - intros [content Hc]. unfold analyze_runbook, Os.exists_,
      RunbookAnalyzer._read_text, Os.read_text.
    rewrite Hc, bool_decide_eq_true_2 by eauto. simpl.
    destruct (_parse_frontmatter content) as [metadata body].
    destruct (_score_completeness _ _ _) as [[c ci] cr].
    destruct (_score_structure _ _ _) as [[s si] sr].
    destruct (_score_safety _ _) as [[sa sai] sar].
    destruct (_score_clarity _) as [[cl cli] clr].
    by eexists.
Qed.



(** On [batch_fs] the text file is not considered, the directory named
    [archive.md] and the missing [gone.md] are skipped, and the two
    readable runbooks are analysed in sorted order. *)
Lemma analyze_all_runbooks_sample :
  (λ r, match r with Ok l => Some (map filename l) | Raise _ => None end)
    (analyze_all_runbooks batch_fs "runbooks") = Some ["a.md"; "z.MD"]
  ∧ (∃ e, analyze_runbook batch_fs "runbooks/archive.md" = Raise e)
  ∧ (∃ e, analyze_runbook batch_fs "runbooks/gone.md" = Raise e)
  ∧ analyze_all_runbooks batch_fs "runbooks/a.md" = Ok []
  ∧ analyze_all_runbooks batch_fs "nowhere" = Ok [].
Proof.
  split_and!; [vm_compute; reflexivity|eexists; vm_compute; reflexivity
              |eexists; vm_compute; reflexivity|vm_compute; reflexivity
              |vm_compute; reflexivity].
Qed.

(** ** The frontmatter round trip *)

Lemma frontmatter_re_unfold :
  _YAML_FRONTMATTER_RE
  = Cat Bol (Cat (Star Space) (Cat (lit "---") (Cat (Star Space)
      (Cat (One (Chr LF)) (Cat (Group (StarLazy Dot)) closing_re))))).
Proof. reflexivity. Qed.

Lemma run_cat f r1 r2 c k : run f (Cat r1 r2) c k = run f r1 c (λ c', run f r2 c' k).
Proof. reflexivity. Qed.

Lemma run_one f a b off x s g k :
  run f (One a) (Cursor b off (x :: s) g) k
  = if atom_match f a x then k (Cursor (Some x) (Datatypes.S off) s g) else None.
Proof. reflexivity. Qed.

Lemma run_bol f off s g k :
  run f Bol (Cursor None off s g) k = k (Cursor None off s g).
Proof. reflexivity. Qed.

Lemma run_group_lazy f a b off s g k :
  run f (Group (StarLazy a)) (Cursor b off s g) k
  = lazy (atom_match f a) b off s g
      (λ c', k (Cursor (before c') (offset c') (after c') (Some (take (offset c' - off) s)))).
Proof. reflexivity. Qed.

Lemma run_star f a b off s g k :
  run f (Star a) (Cursor b off s g) k = greedy (atom_match f a) b off s g k.
Proof. reflexivity. Qed.

Lemma greedy_stop p b off x s g k :
  p x = false → greedy p b off (x :: s) g k = k (Cursor b off (x :: s) g).
Proof. intros H. simpl. by rewrite H. Qed.

Lemma greedy_more p b off x s g k :
  p x = true →
  greedy p b off (x :: s) g k
  = match greedy p (Some x) (Datatypes.S off) s g k with
    | Some e => Some e
    | None => k (Cursor b off (x :: s) g)
    end.
Proof. intros H. simpl. by rewrite H. Qed.

Lemma chr_match_S (c x : ascii) : atom_match S (Chr c) x = Ascii.eqb x c.
Proof. reflexivity. Qed.

Lemma isspace_not_LF (x : ascii) : Py.isspace x = false → Ascii.eqb x LF = false.
Proof.
  intros H. destruct (Ascii.eqb_spec x LF) as [Hx|Hx]; [|done].
  rewrite Hx in H. vm_compute in H. discriminate H.
Qed.

(** Three dashes at the cursor. *)
Lemma run_dashes b off s g k :
  run S (lit "---") (Cursor b off ("-"%char :: "-"%char :: "-"%char :: s) g) k
  = k (Cursor (Some "-"%char) (3 + off) s g).
Proof. reflexivity. Qed.

(** After a run of whitespace that holds no line feed and ends at a
    character that is neither, [\s*\n] cannot match. *)
Lemma spaces_then_lf_fails (u : text) (c : ascii) (rest : text) b off g k :
  Forall (λ x, x ≠ LF) u → Py.isspace c = false →
  greedy (atom_match S Space) b off (u ++ c :: rest) g
    (λ c', run S (One (Chr LF)) c' k) = None.
Proof.
  intros Hu Hc. revert b off. induction Hu as [|x u Hx Hu IH]; intros b off.
  - rewrite app_nil_l, greedy_stop by done.
    by rewrite run_one, chr_match_S, isspace_not_LF.
  - assert (Ascii.eqb x LF = false) as Hx' by by apply Ascii.eqb_neq.
    rewrite <- app_comm_cons.
    destruct (atom_match S Space x) eqn:Ex.
    + rewrite greedy_more, IH by done. by rewrite run_one, chr_match_S, Hx'.
    + rewrite greedy_stop by done. by rewrite run_one, chr_match_S, Hx'.
Qed.

(** The closing delimiter does not match at the line feed before a line
    that holds a colon and no line feed. *)
Lemma closing_fails_before_line (l rest : text) b off g k :
  Forall (λ x, x ≠ LF) l → ":"%char ∈ l →
  run S closing_re (Cursor b off (LF :: l ++ rest) g) k = None.
Proof.
  intros Hl Hcolon. unfold closing_re. simpl seq.
  rewrite run_cat, run_one, chr_match_S, Ascii.eqb_refl, run_cat.
  assert (Hd : ∀ (x : ascii) s b off g k,
            x ≠ "-"%char → run S (lit "---") (Cursor b off (x :: s) g) k = None).
  { intros x s b' off' g' k' Hx. simpl lit. rewrite run_cat, run_one, chr_match_S.
    by apply Ascii.eqb_neq in Hx as ->. }
  assert (Hnd : ":"%char ≠ "-"%char) by done.
  destruct l as [|x1 l]; [by apply elem_of_nil in Hcolon|].
  destruct (decide (x1 = "-"%char)) as [->|]; [|by rewrite <- app_comm_cons, Hd].
  apply elem_of_cons in Hcolon as [?|Hcolon]; [done|].
  destruct l as [|x2 l]; [by apply elem_of_nil in Hcolon|].
  destruct (decide (x2 = "-"%char)) as [->|].
  2:{ simpl lit. rewrite <- !app_comm_cons, run_cat, run_one. simpl atom_match.
      rewrite run_cat, run_one, chr_match_S. by apply Ascii.eqb_neq in n as ->. }
  apply elem_of_cons in Hcolon as [?|Hcolon]; [done|].
  destruct l as [|x3 l]; [by apply elem_of_nil in Hcolon|].
  destruct (decide (x3 = "-"%char)) as [->|].
  2:{ simpl lit. rewrite <- !app_comm_cons, run_cat, run_one. simpl atom_match.
      rewrite run_cat, run_one. simpl atom_match.
      rewrite run_one, chr_match_S. by apply Ascii.eqb_neq in n as ->. }
  apply elem_of_cons in Hcolon as [?|Hcolon]; [done|].
  rewrite <- !app_comm_cons, run_dashes, run_cat, run_star.
  apply list_elem_of_split in Hcolon as (u & w & ->).
  rewrite <- app_assoc, <- app_comm_cons.
  apply spaces_then_lf_fails; [|done].
  do 3 apply Forall_cons_1 in Hl as [_ Hl].
  by apply Forall_app in Hl as [Hl _].
Qed.

Lemma lazy_unfold p b off s g k :
  lazy p b off s g k
  = match k (Cursor b off s g) with
    | Some e => Some e
    | None =>
        match s with
        | x :: s' => if p x then lazy p (Some x) (Datatypes.S off) s' g k else None
        | [] => None
        end
    end.
Proof. by destruct s. Qed.

(** A lazy repetition walks over a prefix at whose positions the rest of
    the pattern fails. *)
Lemma lazy_skip (p : ascii → bool) (pre s : text) b off g k :
  Forall (λ x, p x = true) pre →
  (∀ pre1 x pre2 b', pre = pre1 ++ x :: pre2 →
     k (Cursor b' (off + length pre1) (x :: pre2 ++ s) g) = None) →
  lazy p b off (pre ++ s) g k
  = lazy p (before_after b pre) (off + length pre) s g k.
Proof.
  intros Hp. revert b off. induction Hp as [|x pre Hx Hp IH]; intros b off Hk.
  { simpl. by rewrite Nat.add_0_r. }
  rewrite lazy_unfold. rewrite <- app_comm_cons.
  specialize (Hk [] x pre b eq_refl) as Hk0. simpl in Hk0.
  rewrite Nat.add_0_r in Hk0. rewrite Hk0, Hx, IH.
  - f_equal; [|simpl; lia].
    unfold before_after. rewrite last_cons. by destruct (last pre).
  - intros pre1 y pre2 b' ->.
    specialize (Hk (x :: pre1) y pre2 b' eq_refl). simpl in Hk.
    by rewrite Nat.add_succ_r in Hk.
Qed.

Lemma split_at_first (c : ascii) (l r p1 p2 : text) :
  Forall (λ x, x ≠ c) l → l ++ c :: r = p1 ++ c :: p2 →
  (p1 = l ∧ p2 = r) ∨ ∃ p1', p1 = l ++ c :: p1' ∧ r = p1' ++ c :: p2.
Proof.
  intros Hl. revert p1. induction Hl as [|x l Hx Hl IH]; intros p1 Heq.
  - destruct p1 as [|y p1]; simpl in *; simplify_eq; [by left|right; by eexists].
  - destruct p1 as [|y p1]; simpl in *; simplify_eq.
    destruct (IH _ H0) as [[-> ->]|(p1' & -> & ->)]; [by left|right; by eexists].
Qed.

Lemma join_cons_head (sep l : text) (ls : list text) :
  ∃ rest, Py.join sep (l :: ls) = l ++ rest.
Proof. destruct ls; [exists []; simpl; by rewrite app_nil_r|by eexists]. Qed.

(** A separator inside a join of lines without line feeds is followed by
    one of the lines. *)
Lemma join_after_LF (lines : list text) (pre1 pre2 : text) :
  Forall (Forall (λ x, x ≠ LF)) lines →
  Py.join [LF] lines = pre1 ++ LF :: pre2 →
  ∃ l rest, pre2 = l ++ rest ∧ l ∈ lines.
Proof.
  intros Hl. revert pre1. induction Hl as [|l lines Hl Hls IH]; intros pre1 Heq.
  { by destruct pre1. }
  destruct lines as [|l2 lines].
  { simpl in Heq. subst l. apply Forall_app in Hl as [_ Hl].
    by apply Forall_cons_1 in Hl as [? _]. }
  change (Py.join [LF] (l :: l2 :: lines)) with (l ++ LF :: Py.join [LF] (l2 :: lines)) in Heq.
  destruct (split_at_first LF l _ pre1 pre2 Hl Heq) as [[-> ->]|(p1' & -> & Heq')].
  - destruct (join_cons_head [LF] l2 lines) as [rest Hrest].
    exists l2, rest. split; [done|]. right. by left.
  - destruct (IH _ Heq') as (l' & rest & -> & Hin).
    exists l', rest. split; [done|]. by right.
Qed.

Lemma closing_at_end b off g k :
  run S closing_re (Cursor b off (LF :: "---" ++ [LF]) g) k
  = k (Cursor (Some LF) (5 + off) [] g).
Proof. reflexivity. Qed.

Lemma frontmatter_match_lines (lines : list text) :
  lines ≠ [] → Forall plain_line lines →
  match_ S _YAML_FRONTMATTER_RE
    ("---" ++ LF :: Py.join [LF] lines ++ LF :: "---" ++ [LF])
  = Some (Match 0 (9 + length (Py.join [LF] lines)) (Some (Py.join [LF] lines))).
Proof.
  intros Hne Hlines.
  assert (HJ : ∃ c J', Py.join [LF] lines = c :: J' ∧ Py.isspace c = false).
  { destruct lines as [|l lines]; [done|].
    apply Forall_cons_1 in Hlines as [(_ & _ & c & l' & -> & Hc) _].
    destruct (join_cons_head [LF] (c :: l') lines) as [rest Hrest].
    rewrite Hrest. by eexists _, _. }
  destruct HJ as (c & J' & HJ & Hc). rewrite HJ.
  unfold match_, match_at, start_of.
  rewrite frontmatter_re_unfold.
  cbn [app]. rewrite run_cat, run_bol.
  rewrite run_cat, run_star, greedy_stop by done.
  rewrite run_cat, run_dashes.
  rewrite run_cat, run_star, greedy_more by done.
  rewrite greedy_stop by done.
  rewrite run_cat, run_one, chr_match_S, (isspace_not_LF c Hc).
  rewrite run_cat, run_one, chr_match_S, Ascii.eqb_refl.
  rewrite run_cat, run_group_lazy.
  rewrite (app_comm_cons J' _ c).
  rewrite lazy_skip.
  - rewrite lazy_unfold. cbv beta. cbn [after offset before].
    rewrite closing_at_end.
    replace (Datatypes.S (3 + 0) + length (c :: J') - Datatypes.S (3 + 0))
      with (length (c :: J')) by lia.
    rewrite take_app_length. cbn [offset group1]. do 2 f_equal.
  - by apply Forall_true.
  - intros pre1 x pre2 b' Heq. rewrite <- HJ in Heq.
    cbv beta. cbn [before offset after].
    destruct (decide (x = LF)) as [->|Hx].
    + destruct (join_after_LF lines pre1 pre2) as (l & rest & -> & Hin).
      * eapply Forall_impl; [exact Hlines|]. by intros ? [? _].
      * done.
      * rewrite Forall_forall in Hlines. destruct (Hlines _ Hin) as (Hlf & Hcolon & _).
        rewrite <- app_assoc. by apply closing_fails_before_line.
    + unfold closing_re. simpl seq. rewrite run_cat, run_one, chr_match_S.
      by apply Ascii.eqb_neq in Hx as ->.
Qed.

(** *** Stripping *)

Lemma lstrip_by_keep (p : ascii → bool) (c : ascii) (s : text) :
  p c = false → Py.lstrip_by p (c :: s) = c :: s.
Proof. intros H. simpl. by rewrite H. Qed.

Lemma lstrip_by_drop (p : ascii → bool) (c : ascii) (s : text) :
  p c = true → Py.lstrip_by p (c :: s) = Py.lstrip_by p s.
Proof. intros H. simpl. by rewrite H. Qed.

Lemma rstrip_by_cons (p : ascii → bool) (c : ascii) (s : text) :
  Py.rstrip_by p (c :: s)
  = match Py.rstrip_by p s with
    | [] => if p c then [] else [c]
    | r => c :: r
    end.
Proof. reflexivity. Qed.

Lemma rstrip_by_keep (p : ascii → bool) (c : ascii) (s : text) :
  p c = false → Py.rstrip_by p (c :: s) = c :: Py.rstrip_by p s.
Proof. intros H. rewrite rstrip_by_cons, H. by destruct (Py.rstrip_by p s). Qed.

(** Stripping on the right does not reach past a character that stays. *)
Lemma rstrip_by_app (p : ascii → bool) (a : text) (c : ascii) (b : text) :
  p c = false → Py.rstrip_by p (a ++ c :: b) = a ++ c :: Py.rstrip_by p b.
Proof.
  intros H. induction a as [|x a IH]; simpl app; [by apply rstrip_by_keep|].
  rewrite rstrip_by_cons, IH. by destruct a.
Qed.

Lemma rstrip_by_idemp (p : ascii → bool) (s : text) :
  Py.rstrip_by p (Py.rstrip_by p s) = Py.rstrip_by p s.
Proof.
  induction s as [|c s IH]; [done|].
  rewrite (rstrip_by_cons p c s).
  destruct (Py.rstrip_by p s) as [|x r] eqn:E.
  - destruct (p c) eqn:Ec; [done|]. simpl. by rewrite Ec.
  - rewrite rstrip_by_cons, IH. done.
Qed.

Lemma lstrip_rstrip_comm (p : ascii → bool) (s : text) :
  Py.lstrip_by p (Py.rstrip_by p s) = Py.rstrip_by p (Py.lstrip_by p s).
Proof.
  induction s as [|c s IH]; [done|].
  destruct (p c) eqn:Ec.
  - rewrite lstrip_by_drop, <- IH, rstrip_by_cons by done.
    destruct (Py.rstrip_by p s) as [|x r]; [by rewrite Ec|by rewrite lstrip_by_drop].
  - rewrite (lstrip_by_keep p c s), rstrip_by_keep by done. by apply lstrip_by_keep.
Qed.

(** What stripping removes only shortens the text: every property of all
    characters survives. *)
Lemma lstrip_by_Forall (P : ascii → Prop) (p : ascii → bool) (s : text) :
  Forall P s → Forall P (Py.lstrip_by p s).
Proof.
  induction 1 as [|c s Hc Hs IH]; simpl; [done|].
  destruct (p c); [done|by constructor].
Qed.

Lemma rstrip_by_Forall (P : ascii → Prop) (p : ascii → bool) (s : text) :
  Forall P s → Forall P (Py.rstrip_by p s).
Proof.
  induction 1 as [|c s Hc Hs IH]; [done|].
  rewrite rstrip_by_cons. destruct (Py.rstrip_by p s); [|by constructor].
  destruct (p c); [done|by repeat constructor].
Qed.

Lemma strip_by_Forall (P : ascii → Prop) (p : ascii → bool) (s : text) :
  Forall P s → Forall P (Py.strip_by p s).
Proof. intros. by apply rstrip_by_Forall, lstrip_by_Forall. Qed.

(** The first character of a stripped text is one that stays. *)
Lemma lstrip_by_head (p : ascii → bool) (s : text) (c : ascii) (r : text) :
  Py.lstrip_by p s = c :: r → p c = false.
Proof.
  induction s as [|x s IH]; [done|]. simpl.
  destruct (p x) eqn:Ex; [done|]. by intros [= <- _].
Qed.

Lemma rstrip_by_head (p : ascii → bool) (s : text) (c : ascii) (r : text) :
  Py.rstrip_by p s = c :: r → ∃ s', s = c :: s'.
Proof.
  destruct s as [|x s]; [done|]. rewrite rstrip_by_cons.
  destruct (Py.rstrip_by p s); [destruct (p x)|]; intros [= <- _]; by eexists.
Qed.

Lemma strip_by_head (p : ascii → bool) (s : text) (c : ascii) (r : text) :
  Py.strip_by p s = c :: r → p c = false.
Proof.
  unfold Py.strip_by. intros H. apply rstrip_by_head in H as [s' H].
  by eapply lstrip_by_head.
Qed.

(** The last character of a stripped text is one that stays. *)
Lemma rstrip_by_last (p : ascii → bool) (s : text) (c : ascii) :
  last (Py.rstrip_by p s) = Some c → p c = false.
Proof.
  induction s as [|x s IH]; [done|]. rewrite rstrip_by_cons.
  destruct (Py.rstrip_by p s) as [|y r] eqn:E.
  - destruct (p x) eqn:Ex; [done|]. by intros [= <-].
  - rewrite last_cons. destruct (last (y :: r)) eqn:El; [exact IH|].
    by apply last_None in El.
Qed.

Lemma rstrip_by_id (p : ascii → bool) (s : text) :
  (∀ c, last s = Some c → p c = false) → Py.rstrip_by p s = s.
Proof.
  induction s as [|x s IH]; [done|]. intros Hlast.
  rewrite rstrip_by_cons. destruct s as [|y s].
  - simpl. by rewrite (Hlast x).
  - rewrite IH; [done|]. intros c Hc. apply Hlast. by rewrite last_cons, Hc.
Qed.

Lemma lstrip_by_id (p : ascii → bool) (s : text) :
  (∀ c, head s = Some c → p c = false) → Py.lstrip_by p s = s.
Proof. destruct s as [|x s]; [done|]. intros H. by apply lstrip_by_keep, H. Qed.

Lemma strip_by_id (p : ascii → bool) (s : text) :
  (∀ c, head s = Some c → p c = false) →
  (∀ c, last s = Some c → p c = false) →
  Py.strip_by p s = s.
Proof. intros Hh Hl. unfold Py.strip_by. by rewrite lstrip_by_id, rstrip_by_id. Qed.

(** Stripping a text of which only the right end was stripped, after a
    leading blank. *)
Lemma strip_after_blank (c : ascii) (v : text) :
  Py.isspace c = true →
  Py.strip (Py.rstrip_by Py.isspace (c :: v)) = Py.strip v.
Proof.
  intros Hc. unfold Py.strip, Py.strip_by.
  by rewrite lstrip_rstrip_comm, rstrip_by_idemp, lstrip_by_drop.
Qed.

(** *** Lines *)

Lemma splitlines_cons_plain (c : ascii) (s : text) :
  Py.islinebreak c = false →
  Py.splitlines (c :: s)
  = match Py.splitlines s with
    | [] => [[c]]
    | l :: ls => (c :: l) :: ls
    end.
Proof. intros H. simpl. by rewrite H. Qed.

Lemma splitlines_LF (s : text) : Py.splitlines (LF :: s) = [] :: Py.splitlines s.
Proof. by destruct s. Qed.

Lemma splitlines_line (l : text) : nobreak l → l ≠ [] → Py.splitlines l = [l].
Proof.
  induction 1 as [|c l Hc Hl IH]; [done|]. intros _.
  rewrite splitlines_cons_plain by done.
  destruct l as [|x l]; [done|]. by rewrite IH.
Qed.

Lemma splitlines_line_LF (l rest : text) :
  nobreak l → Py.splitlines (l ++ LF :: rest) = l :: Py.splitlines rest.
Proof.
  induction 1 as [|c l Hc Hl IH]; [apply splitlines_LF|].
  rewrite <- app_comm_cons, splitlines_cons_plain, IH by done. done.
Qed.

Lemma splitlines_join (lines : list text) :
  Forall (λ l, nobreak l ∧ l ≠ []) lines →
  Py.splitlines (Py.join [LF] lines) = lines.
Proof.
  induction 1 as [|l lines [Hl Hne] Hls IH]; [done|].
  destruct lines as [|l2 lines]; [by apply splitlines_line|].
  change (Py.join [LF] (l :: l2 :: lines)) with (l ++ LF :: Py.join [LF] (l2 :: lines)).
  by rewrite splitlines_line_LF, IH.
Qed.

(** Every line that [splitlines] returns is free of line boundaries. *)
Lemma splitlines_nobreak (s : text) : Forall nobreak (Py.splitlines s).
Proof.
  assert (H : ∀ n (s : text), length s ≤ n → Forall nobreak (Py.splitlines s)).
  { clear s. induction n as [|n IH]; intros s Hn.
    { destruct s; [constructor|simpl in Hn; lia]. }
    destruct s as [|c s]; [constructor|]. simpl in Hn.
    destruct (Py.islinebreak c) eqn:Ec.
    - simpl. rewrite Ec. destruct s as [|c2 s]; [by repeat constructor|].
      destruct (_ && _); (constructor; [constructor|]); apply IH; simpl in *; lia.
    - rewrite splitlines_cons_plain by done.
      assert (Hs : Forall nobreak (Py.splitlines s)) by (apply IH; lia).
      destruct (Py.splitlines s) as [|l ls]; [by repeat constructor|].
      apply Forall_cons_1 in Hs as [Hl Hls]. constructor; [by constructor|done]. }
  by apply (H (length s)).
Qed.

(** *** Cutting at the colon *)

Lemma contains_char (c : ascii) (s : text) : Py.contains [c] s = true ↔ c ∈ s.
Proof.
  induction s as [|x s IH]; simpl.
  - split; [done|]. by intros ?%elem_of_nil.
  - rewrite elem_of_cons, <- IH, andb_true_r, orb_true_iff.
    destruct (Ascii.eqb_spec c x); intuition congruence.
Qed.

Lemma split1_app (c : ascii) (k w : text) :
  c ∉ k → Py.split1 c (k ++ c :: w) = [k; w].
Proof.
  induction k as [|x k IH]; intros Hk; simpl.
  - by rewrite Ascii.eqb_refl.
  - apply not_elem_of_cons in Hk as [Hx Hk].
    assert (Hxc : Ascii.eqb x c = false) by (apply Ascii.eqb_neq; congruence).
    by rewrite Hxc, IH.
Qed.

Lemma split1_found (c : ascii) (s : text) :
  c ∈ s → ∃ k w, s = k ++ c :: w ∧ (c ∉ k) ∧ Py.split1 c s = [k; w].
Proof.
  induction s as [|x s IH]; [by intros ?%elem_of_nil|]. intros Hin.
  destruct (decide (x = c)) as [->|Hx].
  - exists [], s. split_and!; [done|apply not_elem_of_nil|]. simpl. by rewrite Ascii.eqb_refl.
  - apply elem_of_cons in Hin as [?|Hin]; [congruence|].
    destruct (IH Hin) as (k & w & -> & Hk & Hs).
    exists (x :: k), w. split_and!; [done| |].
    + apply not_elem_of_cons. split; [congruence|done].
    + apply (split1_app c (x :: k) w), not_elem_of_cons. split; [congruence|done].
Qed.

(** *** The parser on one line *)

Lemma startswith_cons (a b : ascii) (p s : text) :
  Py.startswith (a :: p) (b :: s) = Ascii.eqb a b && Py.startswith p s.
Proof. reflexivity. Qed.

Lemma parse_yaml_kv_fold (raw : text) :
  _parse_yaml_kv raw = foldl parse_line ∅ (Py.splitlines raw).
Proof. reflexivity. Qed.

Lemma strip_key (k : text) : key_ok k → Py.strip k = k.
Proof.
  intros Hk. apply strip_by_id.
  - intros c Hc. by apply (key_head k Hk).
  - apply (key_last k Hk).
Qed.

(** The parser reads a line [key: value] back as the key and the trimmed
    value. *)
Lemma parse_rendered_line (meta : gmap text text) (k v : text) :
  key_ok k → parse_line meta (k ++ ": " ++ v) = <[ k := trim_value v ]> meta.
Proof.
  intros Hk. unfold parse_line. cbn [app].
  assert (Hstrip : Py.strip (k ++ ":"%char :: " "%char :: v)
                   = k ++ ":"%char :: Py.rstrip_by Py.isspace (" "%char :: v)).
  { unfold Py.strip, Py.strip_by. rewrite lstrip_by_id.
    - by apply rstrip_by_app.
    - intros c Hc. destruct k as [|x k]; simpl in Hc; simplify_eq; [done|].
      by apply (key_head _ Hk). }
  rewrite Hstrip. clear Hstrip.
  set (w := Py.rstrip_by Py.isspace (" "%char :: v)).
  assert (Py.truthy (k ++ ":"%char :: w) = true) as -> by by destruct k.
  assert (Py.startswith "#" (k ++ ":"%char :: w) = false) as ->.
  { destruct k as [|x k]; [done|].
    destruct (key_head _ Hk x eq_refl) as [_ Hx].
    rewrite <- app_comm_cons, startswith_cons.
    apply andb_false_iff. left. apply Ascii.eqb_neq. congruence. }
  assert (Py.contains ":" (k ++ ":"%char :: w) = true) as ->.
  { apply contains_char. set_solver. }
  simpl negb. cbv iota.
  rewrite split1_app by apply (key_nocolon _ Hk).
  rewrite strip_key by done. unfold trim_value, w.
  by rewrite strip_after_blank.
Qed.

(** One step of the parser keeps every stored entry well formed. *)
Lemma parse_line_ok (meta : gmap text text) (line : text) :
  nobreak line → map_Forall entry_ok meta → map_Forall entry_ok (parse_line meta line).
Proof.
  intros Hline Hmeta. unfold parse_line.
  remember (Py.strip line) as line' eqn:El.
  assert (Hnb : nobreak line') by (subst line'; by apply strip_by_Forall).
  destruct (negb (Py.truthy line') || Py.startswith "#" line') eqn:E1; [done|].
  destruct (negb (Py.contains ":" line')) eqn:E2; [done|].
  apply negb_false_iff, contains_char in E2.
  destruct (split1_found _ _ E2) as (k0 & v0 & Heq & Hk0 & Hsplit).
  rewrite Hsplit. clear Hsplit.
  apply orb_false_iff in E1 as [_ Hhash].
  rewrite Heq in Hnb. apply Forall_app in Hnb as [Hnbk Hnbv].
  apply Forall_cons_1 in Hnbv as [_ Hnbv].
  assert (Hhead : ∀ c, head k0 = Some c → Py.isspace c = false ∧ c ≠ "#"%char).
  { intros c Hc. destruct k0 as [|x k0]; [done|]. injection Hc as ->.
    rewrite <- app_comm_cons in Heq. split.
    - apply (strip_by_head Py.isspace line c (k0 ++ ":"%char :: v0)).
      unfold Py.strip in El. congruence.
    - intros ->. by rewrite Heq, startswith_cons in Hhash. }
  assert (Hl : Py.lstrip_by Py.isspace k0 = k0).
  { apply lstrip_by_id. intros c Hc. by apply Hhead. }
  apply map_Forall_insert_2; [|done]. split; [split|].
  - by apply strip_by_Forall.
  - intros Hin. apply Hk0.
    assert (Hall : Forall (λ x, x ∈ k0) (Py.strip k0)).
    { apply strip_by_Forall, Forall_forall. auto. }
    rewrite Forall_forall in Hall. by apply Hall.
  - intros c Hc. apply Hhead. unfold Py.strip, Py.strip_by in Hc. rewrite Hl in Hc.
    destruct (Py.rstrip_by Py.isspace k0) as [|y r] eqn:Er; [done|].
    simpl in Hc. simplify_eq. by apply rstrip_by_head in Er as [s' ->].
  - intros c Hc. by apply rstrip_by_last in Hc.
  - by do 3 apply strip_by_Forall.
Qed.

Lemma parse_lines_ok (lines : list text) (meta : gmap text text) :
  Forall nobreak lines → map_Forall entry_ok meta →
  map_Forall entry_ok (foldl parse_line meta lines).
Proof.
  intros Hlines. revert meta. induction Hlines as [|l lines Hl Hls IH]; intros meta Hm.
  - done.
  - simpl. by apply IH, parse_line_ok.
Qed.

(** Every entry that the parser returns is well formed. *)
Lemma parse_yaml_kv_ok (raw : text) : map_Forall entry_ok (_parse_yaml_kv raw).
Proof.
  rewrite parse_yaml_kv_fold. apply parse_lines_ok; [apply splitlines_nobreak|].
  apply map_Forall_empty.
Qed.

Lemma parse_frontmatter_ok (content : text) :
  map_Forall entry_ok (_parse_frontmatter content).1.
Proof.
  unfold _parse_frontmatter. destruct (match_ S _YAML_FRONTMATTER_RE content); simpl.
  - apply parse_yaml_kv_ok.
  - apply map_Forall_empty.
Qed.

(** *** Re-serialization *)

Lemma trim_plain_value (v : text) : plain_value v → trim_value v = v.
Proof.
  intros [Hh Hl]. unfold trim_value, Py.strip, Py.strip_char.
  assert (Hparts : ∀ c, edge c = false →
            Py.isspace c = false ∧ Ascii.eqb DQUOTE c = false ∧ Ascii.eqb SQUOTE c = false).
  { intros c Hc. unfold edge in Hc.
    apply orb_false_iff in Hc as [Hc ?]. by apply orb_false_iff in Hc as [? ?]. }
  rewrite (strip_by_id Py.isspace v), (strip_by_id (Ascii.eqb DQUOTE) v).
  - apply strip_by_id; intros c Hc; apply Hparts; auto.
  - intros c Hc. apply Hparts; auto.
  - intros c Hc. apply Hparts; auto.
  - intros c Hc. apply Hparts; auto.
  - intros c Hc. apply Hparts; auto.
Qed.

Lemma nobreak_not_LF (s : text) : nobreak s → Forall (λ x, x ≠ LF) s.
Proof.
  intros Hs. eapply Forall_impl; [exact Hs|].
  intros x Hx ->. vm_compute in Hx. discriminate Hx.
Qed.

Lemma render_plain_line (k v : text) : entry_ok k v → plain_line (render (k, v)).
Proof.
  intros [Hk Hv]. unfold render. simpl. split_and!.
  - apply nobreak_not_LF. apply Forall_app. split; [apply (key_nobreak _ Hk)|].
    by repeat constructor.
  - set_solver.
  - destruct k as [|x k]; [by eexists _, _|].
    exists x, (k ++ ": " ++ v). split; [done|]. by apply (key_head _ Hk).
Qed.

Lemma render_nobreak (k v : text) :
  entry_ok k v → nobreak (render (k, v)) ∧ render (k, v) ≠ [].
Proof.
  intros [Hk Hv]. unfold render. simpl. split.
  - apply Forall_app. split; [apply (key_nobreak _ Hk)|]. by repeat constructor.
  - by destruct k.
Qed.

(** Parsing the rendered lines inserts every key with its trimmed
    value. *)
Lemma parse_rendered (items : list (text * text)) (meta : gmap text text) :
  Forall (λ kv, key_ok kv.1) items →
  foldl parse_line meta (render <$> items)
  = foldl (λ acc kv, <[ kv.1 := trim_value kv.2 ]> acc) meta items.
Proof.
  intros Hitems. revert meta. induction Hitems as [|[k v] items Hk Hi IH]; intros meta.
  - done.
  - rewrite fmap_cons. cbn [foldl]. unfold render at 1. cbn [fst snd].
    rewrite parse_rendered_line by done. apply IH.
Qed.

Lemma foldl_insert_reverse {A B} (g : A → B) (items : list (text * A)) :
  foldl (λ (acc : gmap text B) kv, <[ kv.1 := g kv.2 ]> acc) ∅ items
  = g <$> list_to_map (reverse items).
Proof.
  induction items as [|kv items IH] using rev_ind.
  { simpl. by rewrite fmap_empty. }
  rewrite foldl_snoc, reverse_snoc, IH. simpl. by rewrite fmap_insert.
Qed.

Lemma foldl_insert_items (items : list (text * text)) :
  NoDup items.*1 →
  foldl (λ (acc : gmap text text) kv, <[ kv.1 := trim_value kv.2 ]> acc) ∅ items
  = trim_value <$> list_to_map items.
Proof.
  intros Hnd. rewrite foldl_insert_reverse. f_equal.
  apply list_to_map_proper.
  - by rewrite fmap_reverse, reverse_Permutation.
  - apply reverse_Permutation.
Qed.

(** What parsing re-serialized entries yields, when the keys are distinct
    and every entry is one that the parser can return: the same keys with
    their values trimmed once more, and an empty body. *)
Lemma reparse_serialized_items (items : list (text * text)) :
  NoDup items.*1 → Forall (λ kv, entry_ok kv.1 kv.2) items →
  _parse_frontmatter (serialize_items items) = (trim_value <$> list_to_map items, []).
Proof.
  intros Hnd Hitems. unfold serialize_items.
  destruct (decide (items = [])) as [->|Hne]; [by vm_compute|].
  set (lines := render <$> items).
  assert (Hmatch := frontmatter_match_lines lines).
  unfold _parse_frontmatter. rewrite Hmatch.
  - cbn [m_group1 m_end default]. unfold id. f_equal.
    + rewrite parse_yaml_kv_fold, splitlines_join.
      * unfold lines. rewrite parse_rendered; [by apply foldl_insert_items|].
        eapply Forall_impl; [exact Hitems|]. by intros ? [? _].
      * apply Forall_fmap. eapply Forall_impl; [exact Hitems|].
        intros [k v] Hkv. by apply render_nobreak.
    + apply drop_ge. cbn [app]. rewrite !length_cons, length_app. simpl. lia.
  - unfold lines. by destruct items.
  - apply Forall_fmap. eapply Forall_impl; [exact Hitems|].
    intros [k v] Hkv. by apply render_plain_line.
Qed.

(** The same for the entries of a mapping of the parser, written in any
    order. *)
Lemma reparse_serialized (m : gmap text text) (items : list (text * text)) :
  items ≡ₚ map_to_list m → map_Forall entry_ok m →
  _parse_frontmatter (serialize_items items) = (trim_value <$> m, []).
Proof.
  intros Hperm Hm.
  assert (Hnd : NoDup items.*1).
  { rewrite Hperm. apply NoDup_fst_map_to_list. }
  rewrite reparse_serialized_items; [|done|].
  - do 2 f_equal. rewrite <- (list_to_map_to_list m). by apply list_to_map_proper.
  - rewrite Hperm. apply map_Forall_to_list in Hm.
    eapply Forall_impl; [exact Hm|]. by intros [??].
Qed.

(** C6 (amended).  For every mapping that the frontmatter parser
    returns and whose values neither start nor end with whitespace or a
    quote character, writing its entries, in any order, as [key: value]
    lines inside a [---] block and parsing that block gives exactly the
    same mapping (and an empty body). *)
Theorem frontmatter_roundtrip_plain_values (content : text)
    (items : list (text * text)) :
  items ≡ₚ map_to_list (_parse_frontmatter content).1 →
  map_Forall (λ _ v, plain_value v) (_parse_frontmatter content).1 →
  _parse_frontmatter (serialize_items items) = ((_parse_frontmatter content).1, []).
Proof.
  intros Hperm Hplain.
  rewrite (reparse_serialized _ _ Hperm) by apply parse_frontmatter_ok.
  f_equal. apply map_eq. intros k. rewrite lookup_fmap.
  destruct ((_parse_frontmatter content).1 !! k) as [v|] eqn:Ek; [|done].
  simpl. f_equal. apply trim_plain_value. by apply (Hplain k).
Qed.

(** C6 (counterexample).  The round trip is not exact for every mapping
    of the parser: a quoted value keeps the blanks inside its quotes, and
    they are stripped when the value is written back without quotes and
    parsed again. *)
Lemma frontmatter_roundtrip_counterexample :
  (_parse_frontmatter quoted_runbook).1 !! "note" = Some " padded "
  ∧ (_parse_frontmatter (serialize (_parse_frontmatter quoted_runbook).1)).1 !! "note"
    = Some "padded"
  ∧ (_parse_frontmatter (serialize (_parse_frontmatter quoted_runbook).1)).1
    ≠ (_parse_frontmatter quoted_runbook).1.
Proof.
  assert (H1 : (_parse_frontmatter quoted_runbook).1 !! "note" = Some " padded ")
    by (vm_compute; reflexivity).
  assert (H2 : (_parse_frontmatter (serialize (_parse_frontmatter quoted_runbook).1)).1
               !! "note" = Some "padded") by (vm_compute; reflexivity).
  split_and!; [done|done|]. intros Heq. rewrite Heq, H1 in H2. discriminate H2.
Qed.

Lemma frontmatter_roundtrip_plain_values_witness :
  _parse_frontmatter
    (serialize_items [("title", "Database latency"); ("owner", "dba team")])
  = ((_parse_frontmatter plain_runbook).1, []).
Proof.
  apply (frontmatter_roundtrip_plain_values plain_runbook).
  - match goal with
    | |- _ ≡ₚ ?l =>
        assert (El : l = [("owner", "dba team"); ("title", "Database latency")])
          by (vm_compute; reflexivity);
        rewrite El
    end.
    apply Permutation_swap.
  - apply map_Forall_to_list.
    match goal with
    | |- Forall _ ?l =>
        assert (El : l = [("owner", "dba team"); ("title", "Database latency")])
          by (vm_compute; reflexivity);
        rewrite El
    end.
    repeat constructor; simpl; intros c [= <-]; reflexivity.
Defined.

(** ** The rubric, scorer by scorer *)

Lemma check_recs (passed : bool) (pts : Q) (issue rec : text) (t : tally) :
  recs_of (check passed pts issue rec t)
  = if passed then recs_of t else recs_of t ++ [rec].
Proof. destruct t as [[s i] r]. by destruct passed. Qed.

(** X1.  The completeness score is 100 minus 25 for every reported issue:
    each of the four checks of [_score_completeness] either gives its 25
    points or reports one issue together with one recommendation, so
    there are at most four issues and as many recommendations. *)
Theorem completeness_counts_missed_checks (metadata : gmap text text) (body : text)
    (headings : list text) :
  let t := _score_completeness metadata body headings in
  (score_of t == 100 - 25 * points (length (issues_of t)))%Q
  ∧ length (issues_of t) = length (recs_of t)
  ∧ length (issues_of t) ≤ 4.
Proof.
  unfold _score_completeness. cbv zeta.
  rewrite !check_score, !check_issues, !check_recs.
  repeat match goal with |- context [if ?b then _ else _] => destruct b end;
    (split_and!; [vm_compute; reflexivity|reflexivity|simpl; lia]).
Qed.

Ltac destruct_keys metadata :=
  destruct (Py.get_truthy metadata "title");
  destruct (Py.get_truthy metadata "version");
  destruct (Py.get_truthy metadata "service_owner");
  destruct (Py.get_truthy metadata "severity");
  destruct (Py.get_truthy metadata "trigger_criteria").

Lemma get_truthy_empty (k : text) : Py.get_truthy ∅ k = false.
Proof. unfold Py.get_truthy. by rewrite lookup_empty. Qed.

(** X2.  For any metadata, the structure score is 8 points for each of
    the five required keys that is present with a non-empty value, plus
    30 when there is a heading, plus 15 for a version and 15 for a
    service owner: the 40 points of the frontmatter minus the penalty for
    missing keys come to 8 per present key, with or without frontmatter. *)
Theorem structure_score_formula (metadata : gmap text text) (body : text)
    (headings : list text) :
  (score_of (_score_structure metadata body headings)
   == 8 * points (present_keys metadata)
      + (match headings with [] => 0 | _ :: _ => 30 end)
      + (if Py.get_truthy metadata "version" then 15 else 0)
      + (if Py.get_truthy metadata "service_owner" then 15 else 0))%Q.
Proof.
  unfold _score_structure, present_keys, REQUIRED_METADATA_KEYS.
  rewrite !filter_cons, !filter_nil.
  destruct (decide (metadata = ∅)) as [->|Hne].
  - rewrite bool_decide_eq_false_2 by (by intros ?). rewrite !get_truthy_empty.
    destruct headings; vm_compute; reflexivity.
  - rewrite bool_decide_eq_true_2 by done.
    destruct_keys metadata; destruct headings; vm_compute; reflexivity.
Qed.

Ltac settle_iff :=
  split; intros H;
  first [ reflexivity
        | discriminate H
        | simpl in H; discriminate H
        | vm_compute in H; discriminate H
        | vm_compute; reflexivity ].

Ltac settle_iff_closed :=
  split; intros H;
  first [ vm_compute in H; discriminate H | vm_compute; reflexivity ].

(** X3.  For completeness, structure and safety, the score is 100 exactly
    when the scorer reports no issue. *)
Theorem perfect_score_iff_no_issue (metadata : gmap text text) (body : text)
    (headings : list text) :
  ((score_of (_score_completeness metadata body headings) == 100)%Q
   ↔ issues_of (_score_completeness metadata body headings) = [])
  ∧ ((score_of (_score_structure metadata body headings) == 100)%Q
     ↔ issues_of (_score_structure metadata body headings) = [])
  ∧ ((score_of (_score_safety body headings) == 100)%Q
     ↔ issues_of (_score_safety body headings) = []).
Proof.
  split_and!.
  - unfold _score_completeness. rewrite !check_score, !check_issues.
    repeat match goal with |- context [if ?b then _ else _] => destruct b end;
      settle_iff.
  - unfold _score_structure, REQUIRED_METADATA_KEYS.
    rewrite !filter_cons, !filter_nil.
    destruct (bool_decide (metadata ≠ ∅)).
    + destruct_keys metadata; destruct headings; settle_iff_closed.
    + destruct (Py.get_truthy metadata "version"),
        (Py.get_truthy metadata "service_owner"), headings; settle_iff_closed.
  - unfold _score_safety.
    destruct (existsb _ destructive_patterns), (found I confirmation_re body),
      (bool_decide ("rollback" ∈ headings)), (found I safety_re body);
      settle_iff.
Qed.

Lemma completeness_paired (metadata : gmap text text) (body : text) (headings : list text) :
  length (issues_of (_score_completeness metadata body headings))
  = length (recs_of (_score_completeness metadata body headings)).
Proof.
  unfold _score_completeness. rewrite !check_issues, !check_recs.
  by repeat match goal with |- context [if ?b then _ else _] => destruct b end.
Qed.

Lemma structure_paired (metadata : gmap text text) (body : text) (headings : list text) :
  length (issues_of (_score_structure metadata body headings))
  = length (recs_of (_score_structure metadata body headings)).
Proof.
  unfold _score_structure.
  destruct (bool_decide (metadata ≠ ∅)); [destruct (filter _ _)|];
    destruct headings, (Py.get_truthy metadata "version"),
      (Py.get_truthy metadata "service_owner"); reflexivity.
Qed.

Lemma safety_paired (body : text) (headings : list text) :
  length (issues_of (_score_safety body headings))
  = length (recs_of (_score_safety body headings)).
Proof.
  unfold _score_safety.
  by destruct (existsb _ destructive_patterns), (found I confirmation_re body),
    (bool_decide ("rollback" ∈ headings)), (found I safety_re body).
Qed.

Lemma clarity_paired (body : text) :
  length (issues_of (_score_clarity body)) = length (recs_of (_score_clarity body)).
Proof.
  unfold _score_clarity.
  destruct (filter _ _) as [|ln non_empty']; [done|].
  set (non_empty := ln :: non_empty').
  match goal with |- context [existsb ?f non_empty] => destruct (existsb f non_empty) end;
  destruct (Py.contains "```" body);
  match goal with |- context [bool_decide ?P] => destruct (bool_decide P) end;
  match goal with |- context [filter ?P non_empty] => destruct (filter P non_empty) end;
  reflexivity.
Qed.

Lemma analyze_runbook_file (fs : gmap text node) (path content : text) :
  fs !! path = Some (File content) →
  analyze_runbook fs path = Ok (analysis_of path content).
Proof.
  intros Hc. unfold analyze_runbook, Os.exists_, RunbookAnalyzer._read_text,
    Os.read_text, analysis_of, headings_of.
  rewrite Hc, bool_decide_eq_true_2 by eauto. simpl.
  destruct (_parse_frontmatter content) as [metadata body].
  destruct (_score_completeness _ _ _) as [[c ci] cr].
  destruct (_score_structure _ _ _) as [[s si] sr].
  destruct (_score_safety _ _) as [[sa sai] sar].
  by destruct (_score_clarity _) as [[cl cli] clr].
Qed.

Lemma analyze_runbook_inv (fs : gmap text node) (path : text) (r : RunbookAnalysis) :
  analyze_runbook fs path = Ok r →
  ∃ content, fs !! path = Some (File content) ∧ r = analysis_of path content.
Proof.
  intros Hr. destruct (proj1 (analyze_runbook_returns fs path)) as [content Hc]; [by eauto|].
  exists content. split; [done|]. rewrite (analyze_runbook_file _ _ _ Hc) in Hr. congruence.
Qed.

(** X4.  The analysis of a file that can be read returns, and its list
    of issues is as long as its list of recommendations: every issue is
    reported together with one recommendation. *)
Theorem issues_paired_with_recommendations (fs : gmap text node) (path content : text) :
  fs !! path = Some (File content) →
  ∃ r, analyze_runbook fs path = Ok r
       ∧ length (issues r) = length (recommendations r).
Proof.
  intros Hc. eexists. split; [by apply analyze_runbook_file|].
  unfold analysis_of. destruct (_parse_frontmatter content) as [metadata body]. simpl.
  rewrite !length_app.
  by rewrite completeness_paired, structure_paired, safety_paired, clarity_paired.
Qed.

Lemma issues_paired_with_recommendations_witness :
  ∃ r, analyze_runbook sample_fs "runbooks/db.md" = Ok r
       ∧ length (issues r) = length (recommendations r).
Proof.
  apply (issues_paired_with_recommendations sample_fs "runbooks/db.md"
           "## Diagnosis
1. Look at the slow query log.
").
  vm_compute. reflexivity.
Defined.

(** *** Blank bodies *)

Lemma linebreak_isspace (c : ascii) : Py.islinebreak c = true → Py.isspace c = true.
Proof. destruct c as [[] [] [] [] [] [] [] []]; vm_compute; congruence. Qed.

Lemma isspace_not_word (c : ascii) : Py.isspace c = true → Py.isword c = false.
Proof. destruct c as [[] [] [] [] [] [] [] []]; vm_compute; congruence. Qed.

Lemma lstrip_by_nil (p : ascii → bool) (s : text) :
  Py.lstrip_by p s = [] ↔ Forall (λ c, p c = true) s.
Proof.
  induction s as [|c s IH]; simpl; [by split|].
  destruct (p c) eqn:Ec.
  - rewrite IH. split; [by constructor|]. by intros [_ ?]%Forall_cons_1.
  - split; [done|]. intros [? _]%Forall_cons_1. congruence.
Qed.

Lemma strip_by_nil (p : ascii → bool) (s : text) :
  Py.strip_by p s = [] ↔ Forall (λ c, p c = true) s.
Proof.
  rewrite <- lstrip_by_nil. unfold Py.strip_by. split; [|by intros ->].
  destruct (Py.lstrip_by p s) as [|c r] eqn:E; [done|].
  apply lstrip_by_head in E. rewrite rstrip_by_keep by done. done.
Qed.

Lemma nonblank_false (l : text) : nonblank l = false ↔ blank l.
Proof.
  unfold nonblank, blank. rewrite <- strip_by_nil. unfold Py.strip.
  by destruct (Py.strip_by Py.isspace l).
Qed.

(** The characters of the lines are characters of the text, and every
    character of the text is a line boundary or lies on a line. *)
Lemma splitlines_chars (s : text) :
  (∀ l c, l ∈ Py.splitlines s → c ∈ l → c ∈ s)
  ∧ (∀ c, c ∈ s → Py.islinebreak c = true ∨ ∃ l, l ∈ Py.splitlines s ∧ c ∈ l).
Proof.
  assert (H : ∀ n (s : text), length s ≤ n →
    (∀ l c, l ∈ Py.splitlines s → c ∈ l → c ∈ s)
    ∧ (∀ c, c ∈ s → Py.islinebreak c = true ∨ ∃ l, l ∈ Py.splitlines s ∧ c ∈ l)).
  { clear s. induction n as [|n IH]; intros s Hn.
    { destruct s; [|simpl in Hn; lia]. split; [by intros l c ?%elem_of_nil|by intros c ?%elem_of_nil]. }
    destruct s as [|x s]; [split; [by intros l c ?%elem_of_nil|by intros c ?%elem_of_nil]|].
    simpl in Hn. destruct (Py.islinebreak x) eqn:Ex.
    - assert (Hcases : ∃ s', length s' ≤ n ∧ Py.splitlines (x :: s) = [] :: Py.splitlines s'
                             ∧ (∀ c, c ∈ s' → c ∈ s)
                             ∧ (∀ c, c ∈ s → Py.islinebreak c = true ∨ c ∈ s')).
      { simpl. rewrite Ex. destruct s as [|c2 s''].
        - exists []. split_and!; [simpl; lia|done|done|by intros c ?%elem_of_nil].
        - destruct (Ascii.eqb x CR && Ascii.eqb c2 LF) eqn:Ecr.
          + exists s''. split_and!; [simpl in *; lia|done|by right|].
            intros c [->|?]%elem_of_cons; [|by right].
            left. apply andb_true_iff in Ecr as [_ ->%Ascii.eqb_eq]. done.
          + exists (c2 :: s''). split_and!; [simpl in *; lia|done|done|by right]. }
      destruct Hcases as (s' & Hlen & -> & Hsub & Hsup).
      destruct (IH s' Hlen) as [IH1 IH2]. split.
      + intros l c [->|Hl]%elem_of_cons Hc; [by apply elem_of_nil in Hc|].
        right. eauto.
      + intros c [->|Hc]%elem_of_cons; [by left|].
        destruct (Hsup c Hc) as [?|Hc']; [by left|].
        destruct (IH2 c Hc') as [?|(l & Hl & Hcl)]; [by left|].
        right. exists l. split; [by right|done].
    - rewrite splitlines_cons_plain by done.
      destruct (IH s ltac:(lia)) as [IH1 IH2]. split.
      + destruct (Py.splitlines s) as [|l0 ls] eqn:Es.
        * intros l c [->|Hl]%elem_of_cons Hc; [|by apply elem_of_nil in Hl].
          apply elem_of_cons in Hc as [->|Hc]; [by left|by apply elem_of_nil in Hc].
        * intros l c [->|Hl]%elem_of_cons Hc.
          -- apply elem_of_cons in Hc as [->|Hc]; [by left|]. right. apply (IH1 l0); [by left|done].
          -- right. apply (IH1 l); [by right|done].
      + intros c [->|Hc]%elem_of_cons.
        * right. destruct (Py.splitlines s) as [|l0 ls]; eexists; (split; [by left|by left]).
        * destruct (IH2 c Hc) as [?|(l & Hl & Hcl)]; [by left|]. right.
          destruct (Py.splitlines s) as [|l0 ls]; [by apply elem_of_nil in Hl|].
          apply elem_of_cons in Hl as [->|Hl].
          -- exists (x :: l0). split; [by left|by right].
          -- exists l. split; [by right|done]. }
  by apply (H (length s)).
Qed.

Lemma rstrip_LF_line (l : text) : nobreak l → Py.rstrip_char LF l = l.
Proof.
  intros Hl. apply rstrip_by_id. intros c Hc.
  assert (Hin : c ∈ l).
  { destruct l as [|x l] using rev_ind; [done|]. rewrite last_snoc in Hc. set_solver. }
  unfold nobreak in Hl. rewrite Forall_forall in Hl. specialize (Hl c Hin).
  destruct (Ascii.eqb_spec LF c) as [<-|]; [by vm_compute in Hl|done].
Qed.

(** [_score_clarity] finds no line to inspect exactly when the body is
    blank. *)
Lemma clarity_lines_nil (body : text) : clarity_lines body = [] ↔ blank body.
Proof.
  unfold clarity_lines. destruct (splitlines_chars body) as [Hsub Hsup].
  pose proof (splitlines_nobreak body) as Hnb. rewrite Forall_forall in Hnb.
  split.
  - intros Hnil. apply Forall_forall. intros c Hc.
    destruct (Hsup c Hc) as [?|(l & Hl & Hcl)]; [by apply linebreak_isspace|].
    assert (Hb : blank l).
    { apply nonblank_false. destruct (nonblank l) eqn:E; [|done].
      assert (Hin : l ∈ filter (λ ln, nonblank ln = true)
                          (map (Py.rstrip_char LF) (Py.splitlines body))).
      { apply list_elem_of_filter. split; [done|].
        apply list_elem_of_fmap. exists l. by rewrite rstrip_LF_line by auto. }
      rewrite Hnil in Hin. by apply elem_of_nil in Hin. }
    unfold blank in Hb. rewrite Forall_forall in Hb. auto.
  - intros Hb. destruct (filter _ _) as [|l ls] eqn:E; [done|]. exfalso.
    assert (Hin : l ∈ filter (λ ln, nonblank ln = true)
                        (map (Py.rstrip_char LF) (Py.splitlines body))).
    { rewrite E. by left. }
    apply list_elem_of_filter in Hin as [Hnon Hin].
    apply list_elem_of_fmap in Hin as (l0 & -> & Hl0).
    rewrite rstrip_LF_line in Hnon by auto.
    assert (Hbl : blank l0).
    { apply Forall_forall. intros c Hc. unfold blank in Hb.
      rewrite Forall_forall in Hb. eauto. }
    apply nonblank_false in Hbl. congruence.
Qed.

Lemma clarity_zero_blank_cases (body : text) :
  blank body ∨ (45 <= score_of (_score_clarity body))%Q.
Proof.
  destruct (clarity_lines body) as [|ln lns] eqn:E; [left; by apply clarity_lines_nil|].
  right. unfold _score_clarity. fold (clarity_lines body). rewrite E.
  match goal with |- context [existsb ?f (ln :: lns)] => destruct (existsb f (ln :: lns)) end;
  destruct (Py.contains "```" body);
  match goal with |- context [bool_decide ?P] => destruct (bool_decide P) end;
  match goal with |- context [filter ?P (ln :: lns)] => destruct (filter P (ln :: lns)) end;
  vm_compute; discriminate.
Qed.

(** X5.  The clarity score is 0 exactly when the body holds nothing but
    whitespace; for every other body it is at least 45. *)
Theorem clarity_zero_iff_blank (body : text) :
  ((score_of (_score_clarity body) == 0)%Q ↔ blank body)
  ∧ (¬ blank body → (45 <= score_of (_score_clarity body))%Q).
Proof.
  rewrite <- clarity_lines_nil. unfold _score_clarity. fold (clarity_lines body).
  destruct (clarity_lines body) as [|ln lns]; [split; [by split|done]|].
  match goal with |- context [existsb ?f (ln :: lns)] => destruct (existsb f (ln :: lns)) end;
  destruct (Py.contains "```" body);
  match goal with |- context [bool_decide ?P] => destruct (bool_decide P) end;
  match goal with |- context [filter ?P (ln :: lns)] => destruct (filter P (ln :: lns)) end;
  (split; [split; intros H; [vm_compute in H; discriminate H|discriminate H]
          |intros _; vm_compute; discriminate]).
Qed.

(** *** The lowest overall score *)

(** A pattern that starts with a word boundary is found nowhere in a
    blank text. *)
Lemma search_wordb_blank (f : flags) (r : regex) (b : option ascii) (off : nat)
    (s : text) :
  is_word_opt b = false → blank s → search_from f (Cat WordB r) b off s = None.
Proof.
  intros Hb Hs. revert b off Hb. induction Hs as [|c s Hc Hs IH]; intros b off Hb.
  - simpl. unfold match_at. simpl. unfold at_wordb. simpl. by rewrite Hb.
  - simpl. unfold match_at. simpl. unfold at_wordb. simpl.
    rewrite Hb, (isspace_not_word c Hc). simpl.
    apply IH. simpl. by apply isspace_not_word.
Qed.

Lemma destructive_blank (body : text) :
  blank body → existsb (λ p, found I p body) destructive_patterns = false.
Proof.
  intros Hb. unfold destructive_patterns, found, search. cbn [existsb seq].
  by rewrite !search_wordb_blank.
Qed.

Lemma quarter_le (a b : Q) : (a <= b)%Q → (a / 4 <= b / 4)%Q.
Proof.
  intros H. unfold Qdiv. apply Qmult_le_compat_r; [done|]. vm_compute. discriminate.
Qed.

(** The overall score of the analysis of any text is at least 45/4. *)
Lemma analysis_of_overall_lower (path content : text) :
  (45 / 4 <= overall_score (analysis_of path content))%Q.
Proof.
  unfold analysis_of. destruct (_parse_frontmatter content) as [metadata body]. simpl.
  set (headings := headings_of body).
  pose proof (completeness_range metadata body headings) as Hco.
  pose proof (structure_range metadata body headings) as Hst.
  pose proof (safety_score_eq body headings) as Hsa.
  pose proof (safety_deductions_range body headings) as Hd.
  pose proof (clarity_range body) as Hcl.
  destruct (clarity_zero_blank_cases body) as [Hblank|Hbig].
  - assert (Hded : (safety_deductions body headings <= 55)%Q).
    { unfold safety_deductions. rewrite (destructive_blank body Hblank). simpl.
      repeat match goal with |- context [if ?b then _ else _] => destruct b end; lra. }
    apply quarter_le. lra.
  - apply quarter_le. lra.
Qed.

(** X6.  The overall score of an analysis is never below 11.25 (45/4):
    the safety score of a body without content is 45, and a body with
    content scores at least 45 for clarity and 10 for safety. *)
Theorem overall_score_at_least (fs : gmap text node) (path content : text) :
  fs !! path = Some (File content) →
  ∃ r, analyze_runbook fs path = Ok r ∧ (45 / 4 <= overall_score r)%Q.
Proof.
  intros Hc. eexists. split; [by apply analyze_runbook_file|].
  apply analysis_of_overall_lower.
Qed.

Lemma overall_score_at_least_witness :
  ∃ r, analyze_runbook {[ "empty.md" := File [] ]} "empty.md" = Ok r
       ∧ (45 / 4 <= overall_score r)%Q.
Proof.
  apply (overall_score_at_least {[ "empty.md" := File [] ]} "empty.md" []).
  vm_compute. reflexivity.
Defined.

(** ** What a match consumes *)

Lemma greedy_continues (p : ascii → bool) b off s g k e :
  greedy p b off s g k = Some e →
  ∃ pre rest b', s = pre ++ rest ∧ Forall (λ x, p x = true) pre
                 ∧ k (Cursor b' (off + length pre) rest g) = Some e.
Proof.
  revert b off. induction s as [|x s IH]; intros b off H; simpl in H.
  - exists [], [], b. by rewrite Nat.add_0_r.
  - destruct (p x) eqn:Ex.
    + destruct (greedy p (Some x) (Datatypes.S off) s g k) as [e'|] eqn:E.
      * injection H as ->. destruct (IH _ _ E) as (pre & rest & b' & -> & Hp & Hk).
        exists (x :: pre), rest, b'. split_and!; [done|by constructor|]. simpl.
        by rewrite Nat.add_succ_r.
      * exists [], (x :: s), b. by rewrite Nat.add_0_r.
    + exists [], (x :: s), b. by rewrite Nat.add_0_r.
Qed.

Lemma lazy_continues (p : ascii → bool) b off s g k e :
  lazy p b off s g k = Some e →
  ∃ pre rest b', s = pre ++ rest ∧ k (Cursor b' (off + length pre) rest g) = Some e.
Proof.
  revert b off. induction s as [|x s IH]; intros b off H; rewrite lazy_unfold in H.
  - destruct (k (Cursor b off [] g)) as [e'|] eqn:E; [|done].
    injection H as ->. exists [], [], b. by rewrite Nat.add_0_r.
  - destruct (k (Cursor b off (x :: s) g)) as [e'|] eqn:E.
    + injection H as ->. exists [], (x :: s), b. by rewrite Nat.add_0_r.
    + destruct (p x); [|done].
      destruct (IH _ _ H) as (pre & rest & b' & -> & Hk).
      exists (x :: pre), rest, b'. split; [done|]. simpl. by rewrite Nat.add_succ_r.
Qed.

(** A successful match is a success of the continuation at a later
    position of the same text, with the offset advanced by what was
    consumed. *)
Lemma run_continues (f : flags) (r : regex) (c : cursor) k e :
  run f r c k = Some e →
  ∃ pre c', after c = pre ++ after c' ∧ offset c' = offset c + length pre
            ∧ k c' = Some e.
Proof.
  revert c k e. induction r as [|a|a|a|a|a|r1 IH1 r2 IH2|r1 IH1 r2 IH2|r1 IH1| | |];
    intros c k e H; simpl in H.
  - exists [], c. by rewrite Nat.add_0_r.
  - destruct (after c) as [|x s] eqn:Ea; [done|]. destruct (atom_match f a x); [|done].
    exists [x], (step x s c). simpl. split_and!; [done|lia|done].
  - apply greedy_continues in H as (pre & rest & b' & Hs & _ & Hk).
    eexists pre, _. split_and!; [|..|exact Hk]; simpl; done.
  - destruct (after c) as [|x s] eqn:Ea; [done|]. destruct (atom_match f a x); [|done].
    apply greedy_continues in H as (pre & rest & b' & -> & _ & Hk).
    eexists (x :: pre), _. split_and!; [|..|exact Hk]; simpl; [done|lia].
  - apply lazy_continues in H as (pre & rest & b' & Hs & Hk).
    eexists pre, _. split_and!; [|..|exact Hk]; simpl; done.
  - destruct (after c) as [|x s] eqn:Ea; [done|]. destruct (atom_match f a x); [|done].
    apply lazy_continues in H as (pre & rest & b' & -> & Hk).
    eexists (x :: pre), _. split_and!; [|..|exact Hk]; simpl; [done|lia].
  - apply IH1 in H as (pre1 & c1 & Ha1 & Ho1 & H).
    apply IH2 in H as (pre2 & c2 & Ha2 & Ho2 & H).
    exists (pre1 ++ pre2), c2. split_and!; [|..|done].
    + by rewrite Ha1, Ha2, app_assoc.
    + rewrite length_app. lia.
  - destruct (run f r1 c k) as [e'|] eqn:E.
    + injection H as ->. by apply IH1.
    + by apply IH2.
  - apply IH1 in H as (pre1 & c1 & Ha1 & Ho1 & H).
    eexists pre1, _. split_and!; [|..|exact H]; simpl; done.
  - destruct (at_bol f c); [|done]. exists [], c. by rewrite Nat.add_0_r.
  - destruct (at_eol f c); [|done]. exists [], c. by rewrite Nat.add_0_r.
  - destruct (at_wordb c); [|done]. exists [], c. by rewrite Nat.add_0_r.
Qed.

Lemma run_cat_continues (f : flags) (r1 r2 : regex) (c : cursor) k e :
  run f (Cat r1 r2) c k = Some e →
  ∃ pre c', after c = pre ++ after c' ∧ offset c' = offset c + length pre
            ∧ run f r2 c' k = Some e.
Proof. rewrite run_cat. apply run_continues. Qed.

(** A literal matches only where the text starts with it. *)
Lemma run_lit_starts (f : flags) (p : text) b off s g k :
  ignorecase f = false → Py.startswith p s = false →
  run f (lit p) (Cursor b off s g) k = None.
Proof.
  intros Hf. revert b off s. induction p as [|c p IH]; intros b off s Hs; [done|].
  destruct s as [|x s]; [by destruct p|].
  rewrite startswith_cons in Hs.
  assert (Hm : atom_match f (Chr c) x = Ascii.eqb c x).
  { simpl. rewrite Hf. apply Ascii.eqb_sym. }
  destruct p as [|c2 p].
  - simpl lit. rewrite run_one, Hm. simpl in Hs. rewrite andb_true_r in Hs. by rewrite Hs.
  - change (lit (c :: c2 :: p)) with (Cat (One (Chr c)) (lit (c2 :: p))).
    rewrite run_cat, run_one, Hm.
    destruct (Ascii.eqb c x); [|done]. simpl in Hs. by apply IH.
Qed.

(** ** The body after the frontmatter *)

(** The last part of the frontmatter pattern, [\s*\n]: greedy whitespace
    gives back only up to the last line feed of the run, so what follows
    the match does not start with a line feed. *)
Lemma trailing_blank_line b off s g (k : cursor → option cursor) e :
  (∀ c, k c = Some c) →
  greedy Py.isspace b off s g (λ c, run S (One (Chr LF)) c k) = Some e →
  ∃ pre, s = pre ++ after e ∧ offset e = off + length pre ∧ pre ≠ []
         ∧ head (after e) ≠ Some LF.
Proof.
  intros Hk. revert b off. induction s as [|x s IH]; intros b off H; [done|].
  destruct (Py.isspace x) eqn:Ex.
  - rewrite greedy_more in H by done.
    destruct (greedy Py.isspace (Some x) (Datatypes.S off) s g _) as [e'|] eqn:E.
    + injection H as ->. destruct (IH _ _ E) as (pre & -> & Ho & _ & Hh).
      exists (x :: pre). split_and!; [done|simpl; lia|done|done].
    + rewrite run_one, chr_match_S in H. destruct (Ascii.eqb x LF); [|done].
      rewrite Hk in H. injection H as <-. exists [x]. simpl.
      split_and!; [done|lia|done|].
      destruct s as [|y s]; [done|]. intros [= ->].
      rewrite greedy_more in E by done.
      destruct (greedy Py.isspace _ _ s g _); [done|].
      by rewrite run_one, chr_match_S, Hk in E.
  - rewrite greedy_stop, run_one, chr_match_S in H by done.
    by rewrite (isspace_not_LF x Ex) in H.
Qed.

Ltac advance H p c :=
  let Ha := fresh "Ha" in
  let Ho := fresh "Ho" in
  apply run_cat_continues in H as (p & c & Ha & Ho & H).

(** What a frontmatter match consumes: a non-empty prefix of the
    document, after which the text does not start with a line feed. *)
Lemma frontmatter_match_consumes (content : text) (m : match_obj) :
  match_ S _YAML_FRONTMATTER_RE content = Some m →
  ∃ pre rest, content = pre ++ rest ∧ m_end m = length pre ∧ pre ≠ []
              ∧ head rest ≠ Some LF.
Proof.
  unfold match_, match_at. intros H.
  destruct (run S _YAML_FRONTMATTER_RE (start_of content) _) as [e|] eqn:R; [|done].
  injection H as <-. simpl.
  rewrite frontmatter_re_unfold in R. unfold closing_re in R.
  change (seq [One (Chr LF); lit "---"; Star Space; One (Chr LF)])
    with (Cat (One (Chr LF)) (Cat (lit "---") (Cat (Star Space) (One (Chr LF))))) in R.
  advance R p1 c1. advance R p2 c2. advance R p3 c3. advance R p4 c4.
  advance R p5 c5. advance R p6 c6. advance R p7 c7. advance R p8 c8.
  rewrite run_cat in R. destruct c8 as [b8 o8 a8 g8]. rewrite run_star in R.
  apply trailing_blank_line in R as (p9 & Ha8 & Ho8 & Hne & Hh); [|done].
  simpl in *.
  exists (p1 ++ p2 ++ p3 ++ p4 ++ p5 ++ p6 ++ p7 ++ p8 ++ p9), (after e).
  split_and!; [| |by destruct p1, p2, p3, p4, p5, p6, p7, p8, p9|done].
  - rewrite <- !app_assoc. congruence.
  - rewrite !length_app. lia.
Qed.

(** ** Documents without a frontmatter block *)

Lemma no_dashes_no_match (k : cursor → option cursor) (r : regex) b off s g :
  Py.startswith "---" (Py.lstrip_by Py.isspace s) = false →
  greedy Py.isspace b off s g (λ c, run S (Cat (lit "---") r) c k) = None.
Proof.
  revert b off. induction s as [|x s IH]; intros b off H; [done|].
  destruct (Py.isspace x) eqn:Ex.
  - rewrite greedy_more by done. rewrite lstrip_by_drop in H by done.
    rewrite IH by done. rewrite run_cat. apply run_lit_starts; [done|].
    rewrite startswith_cons. apply andb_false_iff. left.
    destruct (Ascii.eqb_spec "-"%char x) as [<-|]; [by vm_compute in Ex|done].
  - rewrite greedy_stop by done. rewrite lstrip_by_keep in H by done.
    rewrite run_cat. by apply run_lit_starts.
Qed.

Lemma no_dashes_no_frontmatter (content : text) :
  Py.startswith "---" (Py.lstrip_by Py.isspace content) = false →
  match_ S _YAML_FRONTMATTER_RE content = None.
Proof.
  intros H. unfold match_, match_at.
  rewrite frontmatter_re_unfold, run_cat. unfold start_of. rewrite run_bol.
  rewrite run_cat, run_star. by rewrite no_dashes_no_match.
Qed.

(** X7.  [_parse_frontmatter] either finds no frontmatter, and returns
    empty metadata with the whole document as the body, or returns as
    the body what is left of the document after a non-empty prefix; that
    body does not start with a line feed, since the whitespace after the
    closing dashes is consumed up to its last line feed. *)
Theorem frontmatter_body_is_suffix (content : text) :
  let '(metadata, body) := _parse_frontmatter content in
  (metadata = ∅ ∧ body = content)
  ∨ (∃ pre, content = pre ++ body ∧ pre ≠ [] ∧ head body ≠ Some LF).
Proof.
  unfold _parse_frontmatter.
  destruct (match_ S _YAML_FRONTMATTER_RE content) as [m|] eqn:E; [|by left].
  right. apply frontmatter_match_consumes in E as (pre & rest & -> & -> & Hne & Hh).
  exists pre. by rewrite drop_app_length.
Qed.

(** X8.  A document whose first characters after leading whitespace are
    not three dashes has no frontmatter: the metadata are empty and the
    body is the whole document. *)
Theorem no_frontmatter_without_dashes (content : text) :
  Py.startswith "---" (Py.lstrip_by Py.isspace content) = false →
  _parse_frontmatter content = (∅, content).
Proof.
  intros H. unfold _parse_frontmatter. by rewrite no_dashes_no_frontmatter.
Qed.

Lemma no_frontmatter_without_dashes_witness :
  _parse_frontmatter "# Restart the service" = (∅, "# Restart the service").
Proof. apply no_frontmatter_without_dashes. reflexivity. Defined.

(** ** What the parser stores *)

(** The values that the parser stores are trimmed values. *)
Lemma parse_line_values (Q : text → Prop) (meta : gmap text text) (line : text) :
  (∀ v, Q (trim_value v)) →
  map_Forall (λ _, Q) meta → map_Forall (λ _, Q) (parse_line meta line).
Proof.
  intros HQ Hmeta. unfold parse_line.
  destruct (negb (Py.truthy (Py.strip line)) || Py.startswith "#" (Py.strip line)); [done|].
  destruct (negb (Py.contains ":" (Py.strip line))); [done|].
  destruct (Py.split1 ":" (Py.strip line)) as [|k [|v [|]]]; try done.
  apply map_Forall_insert_2; [apply HQ|done].
Qed.

Lemma parse_yaml_kv_values (Q : text → Prop) (raw : text) :
  (∀ v, Q (trim_value v)) → map_Forall (λ _, Q) (_parse_yaml_kv raw).
Proof.
  intros HQ. rewrite parse_yaml_kv_fold.
  assert (H : ∀ lines meta, map_Forall (λ _ : text, Q) meta →
                map_Forall (λ _ : text, Q) (foldl parse_line meta lines)).
  { induction lines as [|l lines IH]; intros meta Hm; [done|].
    simpl. by apply IH, parse_line_values. }
  apply H, map_Forall_empty.
Qed.

Lemma trim_value_unquoted (v : text) : unquoted (trim_value v).
Proof.
  unfold trim_value, Py.strip_char. set (w := Py.strip_by (Ascii.eqb DQUOTE) _). split.
  - destruct (Py.strip_by (Ascii.eqb SQUOTE) w) as [|c r] eqn:E; [done|].
    apply strip_by_head in E. simpl. intros [= ->]. by rewrite Ascii.eqb_refl in E.
  - intros H. apply rstrip_by_last in H. by rewrite Ascii.eqb_refl in H.
Qed.

(** X9.  Every entry of the parsed metadata has a key without line
    boundary and without colon, which neither starts nor ends with
    whitespace and does not start with the comment sign, and a value
    without line boundary that neither starts nor ends with a single
    quote. *)
Theorem parsed_metadata_wellformed (content k v : text) :
  (_parse_frontmatter content).1 !! k = Some v →
  key_ok k ∧ nobreak v ∧ unquoted v.
Proof.
  intros H. split_and!.
  - by apply (parse_frontmatter_ok content k v H).
  - by apply (parse_frontmatter_ok content k v H).
  - revert H. unfold _parse_frontmatter.
    destruct (match_ S _YAML_FRONTMATTER_RE content); simpl; [|by rewrite lookup_empty].
    apply (parse_yaml_kv_values unquoted), trim_value_unquoted.
Qed.

Lemma parsed_metadata_wellformed_witness :
  key_ok "owner" ∧ nobreak "dba team" ∧ unquoted "dba team".
Proof.
  apply (parsed_metadata_wellformed quoted_runbook). vm_compute. reflexivity.
Defined.

(** ** A line added to the frontmatter *)

Lemma splitlines_nil (s : text) : Py.splitlines s = [] → s = [].
Proof.
  destruct s as [|c s]; [done|]. simpl.
  destruct (Py.islinebreak c); [destruct s as [|c2 s]; [done|]|].
  - by destruct (Ascii.eqb c CR && Ascii.eqb c2 LF).
  - by destruct (Py.splitlines s).
Qed.

(** The lines of a text to which a line feed and one more line are
    added: the lines of the text, an empty line when the text is empty
    or ends a line already, and the new line. *)
Lemma splitlines_add_line (raw l : text) :
  nobreak l → l ≠ [] →
  ∃ extra, (extra = [] ∨ extra = [[]])
    ∧ Py.splitlines (raw ++ LF :: l) = Py.splitlines raw ++ extra ++ [l].
Proof.
  intros Hl Hne.
  assert (H : ∀ n (raw : text), length raw ≤ n →
    ∃ extra, (extra = [] ∨ extra = [[]])
      ∧ Py.splitlines (raw ++ LF :: l) = Py.splitlines raw ++ extra ++ [l]).
  { clear raw. induction n as [|n IH]; intros raw Hn.
    { destruct raw; [|simpl in Hn; lia]. exists [[]]. split; [by right|].
      simpl app. by rewrite splitlines_LF, splitlines_line. }
    destruct raw as [|c s].
    { exists [[]]. split; [by right|].
      simpl app. by rewrite splitlines_LF, splitlines_line. }
    simpl in Hn. destruct (Py.islinebreak c) eqn:Ec.
    - destruct s as [|c2 s].
      + destruct (Ascii.eqb c CR) eqn:Ecr.
        * exists []. split; [by left|]. simpl. rewrite Ec, Ecr. simpl.
          by rewrite splitlines_line.
        * exists [[]]. split; [by right|]. simpl app.
          change (Py.splitlines (c :: LF :: l))
            with (if Py.islinebreak c
                  then if Ascii.eqb c CR && Ascii.eqb LF LF
                       then [] :: Py.splitlines l
                       else [] :: Py.splitlines (LF :: l)
                  else match Py.splitlines (LF :: l) with
                       | [] => [[c]]
                       | h :: t => (c :: h) :: t
                       end).
          rewrite Ec, Ecr. simpl andb. cbv iota.
          by rewrite splitlines_LF, splitlines_line.
      + simpl in Hn. destruct (Ascii.eqb c CR && Ascii.eqb c2 LF) eqn:E2.
        * destruct (IH s ltac:(lia)) as (extra & Hex & Heq).
          exists extra. split; [done|]. simpl. by rewrite Ec, E2, Heq.
        * destruct (IH (c2 :: s) ltac:(simpl; lia)) as (extra & Hex & Heq).
          exists extra. split; [done|].
          rewrite <- !app_comm_cons in *.
          change (Py.splitlines (c :: c2 :: s ++ LF :: l))
            with (if Py.islinebreak c
                  then if Ascii.eqb c CR && Ascii.eqb c2 LF
                       then [] :: Py.splitlines (s ++ LF :: l)
                       else [] :: Py.splitlines (c2 :: s ++ LF :: l)
                  else match Py.splitlines (c2 :: s ++ LF :: l) with
                       | [] => [[c]]
                       | h :: t => (c :: h) :: t
                       end).
          change (Py.splitlines (c :: c2 :: s))
            with (if Py.islinebreak c
                  then if Ascii.eqb c CR && Ascii.eqb c2 LF
                       then [] :: Py.splitlines s
                       else [] :: Py.splitlines (c2 :: s)
                  else match Py.splitlines (c2 :: s) with
                       | [] => [[c]]
                       | h :: t => (c :: h) :: t
                       end).
          by rewrite Ec, E2, Heq.
    - destruct (IH s ltac:(lia)) as (extra & Hex & Heq).
      rewrite <- app_comm_cons, !splitlines_cons_plain, Heq by done.
      destruct (Py.splitlines s) as [|h t] eqn:Es.
      + apply splitlines_nil in Es as ->. exists []. split; [by left|].
        simpl app in Heq. rewrite splitlines_LF, splitlines_line in Heq by done.
        destruct Hex as [->| ->]; [done|]. done.
      + exists extra. by split. }
  by apply (H (length raw)).
Qed.

Lemma parse_line_blank (meta : gmap text text) : parse_line meta [] = meta.
Proof. reflexivity. Qed.

(** X10.  Adding a line [key: value] after a frontmatter text sets that
    key to the trimmed value and leaves every other entry as it was: a
    later line overrides an earlier one for the same key. *)
Theorem added_line_sets_key (raw k v : text) :
  key_ok k → nobreak v →
  _parse_yaml_kv (raw ++ LF :: k ++ ": " ++ v) = <[ k := trim_value v ]> (_parse_yaml_kv raw).
Proof.
  intros Hk Hv. rewrite !parse_yaml_kv_fold.
  destruct (splitlines_add_line raw (k ++ ": " ++ v)) as (extra & Hex & ->).
  - apply Forall_app. split; [apply (key_nobreak k Hk)|].
    simpl. by repeat constructor.
  - by destruct k.
  - rewrite !foldl_app. cbn [foldl].
    rewrite parse_rendered_line by done. f_equal.
    by destruct Hex as [->| ->].
Qed.

Lemma added_line_sets_key_witness :
  _parse_yaml_kv ("owner: web team" ++ LF :: "owner" ++ ": " ++ "'dba team'")
  = <[ "owner" := trim_value "'dba team'" ]> (_parse_yaml_kv "owner: web team").
Proof.
  apply (added_line_sets_key "owner: web team" "owner" "'dba team'").
  - split.
    + by repeat constructor.
    + rewrite !elem_of_cons, elem_of_nil. intuition discriminate.
    + intros c [= <-]. split; [reflexivity|discriminate].
    + intros c [= <-]. reflexivity.
  - by repeat constructor.
Defined.

(** A line that the parser skips. *)
Lemma parse_line_skipped (meta : gmap text text) (l : text) :
  Py.strip l = [] ∨ Py.startswith "#" (Py.strip l) = true ∨ ":"%char ∉ l →
  parse_line meta l = meta.
Proof.
  intros H. unfold parse_line.
  destruct (negb (Py.truthy (Py.strip l)) || Py.startswith "#" (Py.strip l)) eqn:E1; [done|].
  apply orb_false_iff in E1 as [Ht Hh]. apply negb_false_iff in Ht.
  destruct H as [H|[H|H]]; [by rewrite H in Ht|congruence|].
  destruct (Py.contains ":" (Py.strip l)) eqn:E2; [|done].
  apply contains_char in E2. exfalso. apply H.
  assert (Hall : Forall (λ x, x ∈ l) (Py.strip l)).
  { apply strip_by_Forall, Forall_forall. auto. }
  rewrite Forall_forall in Hall. by apply Hall.
Qed.

(** X11.  Adding a line that is blank, that is a comment (its first
    character after whitespace is the number sign) or that has no colon
    leaves the parsed entries as they were. *)
Theorem skipped_line_keeps_metadata (raw l : text) :
  nobreak l → l ≠ [] →
  Py.strip l = [] ∨ Py.startswith "#" (Py.strip l) = true ∨ ":"%char ∉ l →
  _parse_yaml_kv (raw ++ LF :: l) = _parse_yaml_kv raw.
Proof.
  intros Hl Hne H. rewrite !parse_yaml_kv_fold.
  destruct (splitlines_add_line raw l Hl Hne) as (extra & Hex & ->).
  rewrite !foldl_app. cbn [foldl]. rewrite parse_line_skipped by done.
  by destruct Hex as [->| ->].
Qed.

Lemma skipped_line_keeps_metadata_witness :
  _parse_yaml_kv ("owner: web team" ++ LF :: "  # owner: dba team")
  = _parse_yaml_kv "owner: web team".
Proof.
  apply (skipped_line_keeps_metadata "owner: web team" "  # owner: dba team").
  - by repeat constructor.
  - done.
  - right. left. vm_compute. reflexivity.
Defined.

(** ** The order of the sort *)

Lemma code_inj (x y : ascii) : Py.code x = Py.code y → x = y.
Proof.
  unfold Py.code. intros H.
  by rewrite <- (ascii_N_embedding x), <- (ascii_N_embedding y), H.
Qed.

Lemma text_leb_total (a b : text) : text_le a b ∨ text_le b a.
Proof.
  unfold text_le. revert b. induction a as [|x a IH]; intros [|y b]; simpl; auto.
  destruct (N.ltb_spec (Py.code x) (Py.code y)), (N.ltb_spec (Py.code y) (Py.code x));
    auto.
Qed.

#[local] Instance text_le_trans : Transitive text_le.
Proof.
  unfold text_le. intros a. induction a as [|x a IH]; intros [|y b] [|z c]; simpl; try done.
  destruct (N.ltb_spec (Py.code x) (Py.code y)), (N.ltb_spec (Py.code y) (Py.code x)),
    (N.ltb_spec (Py.code y) (Py.code z)), (N.ltb_spec (Py.code z) (Py.code y)),
    (N.ltb_spec (Py.code x) (Py.code z)), (N.ltb_spec (Py.code z) (Py.code x));
    try done; try lia.
  apply IH.
Qed.

#[local] Instance text_le_antisym : AntiSymm (=) text_le.
Proof.
  unfold text_le. intros a. induction a as [|x a IH]; intros [|y b]; simpl; try done.
  destruct (N.ltb_spec (Py.code x) (Py.code y)), (N.ltb_spec (Py.code y) (Py.code x));
    try done; try lia.
  intros H1 H2. f_equal; [apply code_inj; lia|by apply IH].
Qed.

Lemma insert_sorted_Sorted (x : text) (l : list text) :
  Sorted text_le l → Sorted text_le (Py.insert_sorted x l).
Proof.
  induction 1 as [|y l Hl IH Hy]; simpl; [by repeat constructor|].
  destruct (Py.text_leb x y) eqn:E.
  - by repeat constructor.
  - constructor; [done|].
    assert (Hyx : text_le y x) by (destruct (text_leb_total x y); [congruence|done]).
    destruct Hy as [|z l Hyz]; simpl; [by constructor|].
    destruct (Py.text_leb x z); by constructor.
Qed.

Lemma sorted_Sorted (l : list text) : Sorted text_le (Py.sorted l).
Proof.
  unfold Py.sorted. induction l as [|x l IH]; simpl; [constructor|].
  by apply insert_sorted_Sorted.
Qed.

(** The sort of a list depends on its elements only. *)
Lemma sorted_permutation (l1 l2 : list text) : l1 ≡ₚ l2 → Py.sorted l1 = Py.sorted l2.
Proof.
  intros H. apply (Sorted_unique text_le); [apply sorted_Sorted..|].
  by rewrite !sorted_perm.
Qed.

(** ** The batch and the order of the listing *)

(** An analysis looks only at the path that it is given. *)
Lemma analyze_runbook_listing (fs : gmap text node) (dir : text)
    (names names' : list text) (path : text) :
  fs !! dir = Some (Dir names) →
  analyze_runbook (<[ dir := Dir names' ]> fs) path = analyze_runbook fs path.
Proof.
  intros Hd. unfold analyze_runbook, Os.exists_, RunbookAnalyzer._read_text, Os.read_text.
  destruct (decide (path = dir)) as [->|Hne].
  - rewrite lookup_insert_eq, Hd. by rewrite !bool_decide_eq_true_2 by eauto.
  - by rewrite lookup_insert_ne.
Qed.

(** X12.  The batch analysis does not depend on the order in which the
    directory lists its entries: listing the same names in another order
    gives the same analyses in the same order. *)
Theorem batch_ignores_listing_order (fs : gmap text node) (dir : text)
    (names names' : list text) :
  fs !! dir = Some (Dir names) → names ≡ₚ names' →
  analyze_all_runbooks (<[ dir := Dir names' ]> fs) dir = analyze_all_runbooks fs dir.
Proof.
  intros Hd Hp. rewrite !analyze_all_unfold. unfold Os.isdir, Os.listdir.
  rewrite lookup_insert_eq, Hd. simpl. rewrite !analyze_loop. simpl.
  rewrite (sorted_permutation names' names) by done. f_equal.
  induction (Py.sorted names) as [|name l IH]; [done|].
  assert (Hk : kept (<[ dir := Dir names' ]> fs) dir name = kept fs dir name).
  { unfold kept. by rewrite (analyze_runbook_listing fs dir names names'). }
  simpl. rewrite Hk. fold (omap (kept (<[ dir := Dir names' ]> fs) dir) l).
  fold (omap (kept fs dir) l). by rewrite IH.
Qed.

Lemma batch_ignores_listing_order_witness :
  analyze_all_runbooks
    (<[ "runbooks" := Dir ["a.md"; "gone.md"; "z.MD"; "archive.md"; "notes.txt"] ]> batch_fs)
    "runbooks"
  = analyze_all_runbooks batch_fs "runbooks".
Proof.
  apply (batch_ignores_listing_order batch_fs "runbooks"
           ["z.MD"; "notes.txt"; "archive.md"; "gone.md"; "a.md"]).
  - vm_compute. reflexivity.
  - apply (Permutation_cons_app [_; _] [_; _]).
    apply (Permutation_cons_app [_; _; _] []).
    apply (Permutation_cons_app [_; _] []).
    apply (Permutation_cons_app [_] []). done.
Defined.

(** ** Rounding to a double *)

Lemma rne_bounds (n d lo hi : Z) :
  (0 < d)%Z → (lo * d <= n)%Z → (n <= hi * d)%Z →
  (lo <= Py.rne n d <= hi)%Z.
Proof.
  intros Hd Hlo Hhi. unfold Py.rne.
  pose proof (Z.div_mod n d ltac:(lia)) as Hn.
  pose proof (Z.mod_pos_bound n d Hd) as Hr.
  set (q := (n / d)%Z) in *. set (r := (n mod d)%Z) in *.
  assert (lo <= q)%Z by nia.
  assert (q <= hi)%Z by nia.
  destruct (Z.ltb_spec (2 * r) d); [lia|].
  assert (q + 1 <= hi)%Z by nia.
  destruct (Z.ltb_spec d (2 * r)); [lia|].
  destruct (Z.even q); lia.
Qed.

Lemma rne_Q_bounds (y : Q) (lo hi : Z) :
  (inject_Z lo <= y)%Q → (y <= inject_Z hi)%Q →
  (lo <= Py.rne (Qnum y) (QDen y) <= hi)%Z.
Proof.
  unfold Qle. simpl. intros Hlo Hhi. apply rne_bounds; lia.
Qed.

Lemma rne_near (n d : Z) :
  (0 < d)%Z → (- d <= 2 * (Py.rne n d * d - n) <= d)%Z.
Proof.
  intros Hd. unfold Py.rne.
  pose proof (Z.div_mod n d ltac:(lia)) as Hn.
  pose proof (Z.mod_pos_bound n d Hd) as Hr.
  set (q := (n / d)%Z) in *. set (r := (n mod d)%Z) in *.
  destruct (Z.ltb_spec (2 * r) d); [nia|].
  destruct (Z.ltb_spec d (2 * r)); [nia|].
  destruct (Z.even q); nia.
Qed.

Lemma rne_Q_near (y : Q) :
  (- (1 / 2) <= inject_Z (Py.rne (Qnum y) (QDen y)) - y <= 1 / 2)%Q.
Proof.
  pose proof (rne_near (Qnum y) (QDen y) ltac:(lia)) as H.
  set (m := Py.rne _ _) in *. destruct y as [ny dy]. unfold Qle. simpl in *. lia.
Qed.

Lemma two_nonzero : ¬ (2 == 0)%Q.
Proof. discriminate. Qed.

Lemma pow2_inject (z : Z) : (0 <= z)%Z → (2 ^ z == inject_Z (2 ^ z))%Q.
Proof. intros Hz. by rewrite Zpower_Qpower. Qed.

(** The power of two of the binade exponent is not above the number. *)
Lemma ilog2_le (n d : positive) : (2 ^ Py.ilog2 n d <= Z.pos n # d)%Q.
Proof.
  unfold Py.ilog2. set (a := Z.log2 (Z.pos n)). set (b := Z.log2 (Z.pos d)).
  destruct (Qle_bool (2 ^ (a - b)) (Z.pos n # d)) eqn:E; [by apply Qle_bool_iff|].
  clear E.
  destruct (Z.log2_spec (Z.pos n) ltac:(lia)) as [Ha _].
  destruct (Z.log2_spec (Z.pos d) ltac:(lia)) as [_ Hb].
  fold a in Ha. fold b in Hb.
  assert (H0a : (0 <= a)%Z) by apply Z.log2_nonneg.
  assert (H0b : (0 <= b)%Z) by apply Z.log2_nonneg.
  replace (a - b - 1)%Z with (a - (b + 1))%Z by lia.
  rewrite Qpower_minus by apply two_nonzero.
  rewrite (pow2_inject a), (pow2_inject (b + 1)) by lia.
  rewrite (Qmake_Qdiv (Z.pos n) d).
  assert (Hd : (0 < inject_Z (Z.pos d))%Q) by (rewrite <- (Zlt_Qlt 0); lia).
  assert (Hp : (0 < inject_Z (2 ^ (b + 1)))%Q).
  { rewrite <- (Zlt_Qlt 0). apply Z.pow_pos_nonneg; lia. }
  apply Qle_shift_div_l; [done|].
  unfold Qdiv. rewrite <- Qmult_assoc, (Qmult_comm (/ _)), Qmult_assoc.
  apply Qle_shift_div_r; [done|].
  rewrite <- !inject_Z_mult, <- Zle_Qle.
  replace (Z.succ b) with (b + 1)%Z in Hb by lia. nia.
Qed.

(** The power of two above the binade exponent is above the number. *)
Lemma ilog2_lt (n d : positive) : (Z.pos n # d < 2 ^ (Py.ilog2 n d + 1))%Q.
Proof.
  unfold Py.ilog2. set (a := Z.log2 (Z.pos n)). set (b := Z.log2 (Z.pos d)).
  destruct (Qle_bool (2 ^ (a - b)) (Z.pos n # d)) eqn:E.
  - clear E.
    destruct (Z.log2_spec (Z.pos n) ltac:(lia)) as [_ Ha].
    destruct (Z.log2_spec (Z.pos d) ltac:(lia)) as [Hb _].
    fold a in Ha. fold b in Hb.
    assert (H0a : (0 <= a)%Z) by apply Z.log2_nonneg.
    assert (H0b : (0 <= b)%Z) by apply Z.log2_nonneg.
    replace (a - b + 1)%Z with (a + 1 - b)%Z by lia.
    rewrite Qpower_minus by apply two_nonzero.
    rewrite (pow2_inject (a + 1)), (pow2_inject b) by lia.
    rewrite (Qmake_Qdiv (Z.pos n) d).
    assert (Hd : (0 < inject_Z (Z.pos d))%Q) by (rewrite <- (Zlt_Qlt 0); lia).
    assert (Hp : (0 < inject_Z (2 ^ b))%Q).
    { rewrite <- (Zlt_Qlt 0). apply Z.pow_pos_nonneg; lia. }
    apply Qlt_shift_div_r; [done|].
    unfold Qdiv. rewrite <- Qmult_assoc, (Qmult_comm (/ _)), Qmult_assoc.
    apply Qlt_shift_div_l; [done|].
    rewrite <- !inject_Z_mult, <- Zlt_Qlt.
    replace (Z.succ a) with (a + 1)%Z in Ha by lia. nia.
  - replace (a - b - 1 + 1)%Z with (a - b)%Z by lia.
    apply Qnot_le_lt. intros H. apply Qle_bool_iff in H. congruence.
Qed.

(** Rounding keeps a positive number between the multiples of a quarter
    that enclose it, up to [2 ^ 51]: there the doubles are spaced by a
    quarter or less. *)
Lemma float_pos_between (n d : positive) (a b : Z) :
  (inject_Z a / 4 <= Z.pos n # d)%Q → (Z.pos n # d <= inject_Z b / 4)%Q →
  (b < 2 ^ 53)%Z →
  (inject_Z a / 4 <= Py.float_pos n d <= inject_Z b / 4)%Q.
Proof.
  intros Ha Hb Hb53. unfold Py.float_pos.
  set (X := (Z.pos n # d)%Q) in *. set (e := Py.ilog2 n d).
  pose proof (ilog2_le n d) as He. fold e in He. fold X in He.
  assert (He51 : (e < 51)%Z).
  { apply (Qpower_lt_compat_l_inv 2); [|done].
    eapply Qle_lt_trans; [exact He|]. eapply Qle_lt_trans; [exact Hb|].
    apply Qlt_shift_div_r; [done|].
    rewrite (pow2_inject 51) by lia.
    change 4%Q with (inject_Z 4). rewrite <- inject_Z_mult, <- Zlt_Qlt. lia. }
  set (s := Z.max (e - 52) (-1074)).
  assert (Hs : ∃ t, (0 <= t)%Z ∧ s = (- (t + 2))%Z).
  { exists (- s - 2)%Z. unfold s. lia. }
  destruct Hs as (t & Ht & Hs). rewrite Hs. clearbody s. clear Hs s.
  set (T := inject_Z (2 ^ t)).
  assert (HT : (0 < T)%Q).
  { unfold T. rewrite <- (Zlt_Qlt 0). apply Z.pow_pos_nonneg; lia. }
  assert (Hpow : (2 ^ (- (t + 2)) == / (4 * T))%Q).
  { rewrite Qpower_opp, Qpower_plus by apply two_nonzero.
    rewrite (pow2_inject t) by lia. fold T.
    change (2 ^ 2)%Q with 4%Q. by rewrite Qmult_comm. }
  set (y := (X / 2 ^ (- (t + 2)))%Q).
  assert (Hy : (y == X * (4 * T))%Q).
  { unfold y, Qdiv. rewrite Hpow, Qinv_involutive. reflexivity. }
  assert (H4T : (0 < 4 * T)%Q) by lra.
  destruct (rne_Q_bounds y (a * 2 ^ t) (b * 2 ^ t)) as [Hlo Hhi].
  { rewrite Hy, inject_Z_mult. fold T.
    assert (Ha' : (inject_Z a <= X * 4)%Q).
    { setoid_replace (inject_Z a) with (inject_Z a / 4 * 4)%Q using relation Qeq by field.
      by apply Qmult_le_compat_r. }
    setoid_replace (X * (4 * T))%Q with ((X * 4) * T)%Q using relation Qeq by ring.
    by apply Qmult_le_compat_r; [|apply Qlt_le_weak]. }
  { rewrite Hy, inject_Z_mult. fold T.
    assert (Hb' : (X * 4 <= inject_Z b)%Q).
    { setoid_replace (inject_Z b) with (inject_Z b / 4 * 4)%Q using relation Qeq by field.
      by apply Qmult_le_compat_r. }
    setoid_replace (X * (4 * T))%Q with ((X * 4) * T)%Q using relation Qeq by ring.
    by apply Qmult_le_compat_r; [|apply Qlt_le_weak]. }
  set (m := Py.rne (Qnum y) (QDen y)) in *.
  rewrite Hpow.
  rewrite Zle_Qle in Hlo, Hhi. rewrite inject_Z_mult in Hlo, Hhi. fold T in Hlo, Hhi.
  assert (Hm : (inject_Z m * / (4 * T) == inject_Z m / T / 4)%Q).
  { field. intros E. rewrite E in HT. by apply Qlt_irrefl in HT. }
  rewrite Hm. split.
  - apply Qmult_le_compat_r; [|done]. by apply Qle_shift_div_l.
  - apply Qmult_le_compat_r; [|done]. by apply Qle_shift_div_r.
Qed.

(** [float_pos] returns a multiple of the spacing of its binade, at most
    half a spacing away from the number. *)
Lemma float_pos_near (n d : positive) :
  let s := Z.max (Py.ilog2 n d - 52) (-1074) in
  ∃ m : Z, Py.float_pos n d = (inject_Z m * 2 ^ s)%Q
    ∧ (- (2 ^ s / 2) <= Py.float_pos n d - (Z.pos n # d) <= 2 ^ s / 2)%Q.
Proof.
  intros s. unfold Py.float_pos. fold s.
  set (x := (Z.pos n # d)%Q). set (y := (x / 2 ^ s)%Q).
  exists (Py.rne (Qnum y) (QDen y)). split; [done|].
  pose proof (rne_Q_near y) as Hy. set (m := inject_Z (Py.rne _ _)) in *.
  assert (Hs : (0 < 2 ^ s)%Q) by (by apply Qpower_0_lt).
  assert (Hx : (x == y * 2 ^ s)%Q).
  { unfold y. field. intros E. rewrite E in Hs. by apply Qlt_irrefl in Hs. }
  clearbody y m. rewrite Hx. set (p := (2 ^ s)%Q) in *. clearbody p.
  setoid_replace (m * p - y * p)%Q with ((m - y) * p)%Q using relation Qeq by ring.
  setoid_replace (- (p / 2))%Q with (- (1 / 2) * p)%Q using relation Qeq by field.
  setoid_replace (p / 2)%Q with (1 / 2 * p)%Q using relation Qeq by field.
  destruct Hy. split; apply Qmult_le_compat_r; try done; by apply Qlt_le_weak.
Qed.

(** Equal numbers round to the same double. *)
Lemma float_proper (x y : Q) : (x == y)%Q → Py.float x = Py.float y.
Proof. intros H. unfold Py.float. by rewrite (Qred_complete x y H). Qed.

Lemma float_between (x : Q) (a b : Z) :
  (0 <= x)%Q → (inject_Z a / 4 <= x)%Q → (x <= inject_Z b / 4)%Q →
  (b < 2 ^ 53)%Z →
  (inject_Z a / 4 <= Py.float x <= inject_Z b / 4)%Q.
Proof.
  intros H0 Ha Hb Hb53. unfold Py.float.
  pose proof (Qred_correct x) as Hx.
  destruct (Qred x) as [n d] eqn:E. simpl Qnum. simpl Qden. destruct n as [|n|n].
  - assert (x == 0)%Q as H by (by rewrite <- Hx). rewrite H in Ha, Hb. by split.
  - rewrite <- Hx in Ha, Hb. by apply float_pos_between.
  - exfalso. rewrite <- Hx in H0. unfold Qle in H0. simpl in H0. lia.
Qed.

(** A multiple of a quarter from 0 to [2 ^ 51] is a double. *)
Lemma float_quarter (x : Q) (k : Z) :
  (x == inject_Z k / 4)%Q → (0 <= k < 2 ^ 53)%Z → (Py.float x == x)%Q.
Proof.
  intros Hx Hk.
  assert (H0 : (0 <= x)%Q).
  { rewrite Hx. apply Qle_shift_div_l; [done|]. rewrite Qmult_0_l.
    rewrite <- (Zle_Qle 0). lia. }
  destruct (float_between x k k) as [H1 H2]; try done; try lia.
  - rewrite Hx. apply Qle_refl.
  - rewrite Hx. apply Qle_refl.
  - rewrite <- Hx in H1, H2. by apply Qle_antisym.
Qed.

(** ** The health summary *)

Lemma gradedb_graded (x : Q) : gradedb x = true → graded x.
Proof.
  unfold gradedb. pose proof (Qred_correct (x * 4)) as Hq.
  destruct (Qred (x * 4)) as [n d]. cbn [Qnum Qden].
  intros [[Hd H0]%andb_true_iff H400]%andb_true_iff.
  apply Z.eqb_eq in Hd. apply Z.leb_le in H0. apply Z.leb_le in H400.
  exists n. split; [lia|].
  assert (d = 1%positive) as -> by lia.
  change (n # 1) with (inject_Z n) in Hq. rewrite Hq. field.
Qed.

Lemma graded_scoresb_graded (a : RunbookAnalysis) :
  graded_scoresb a = true → graded_scores a.
Proof.
  unfold graded_scoresb, graded_scores. rewrite !andb_true_iff.
  intros [[[[? ?] ?] ?] ?]. by split_and!; apply gradedb_graded.
Qed.

(** The additions of a sum of scores are exact. *)
Lemma sum_exact_from (values : list Q) (acc : Q) (k : Z) :
  (acc == inject_Z k / 4)%Q → (0 <= k)%Z →
  (k + 400 * Z.of_nat (length values) < 2 ^ 53)%Z →
  Forall graded values →
  (foldl Py.fadd acc values == acc + foldr Qplus 0 values)%Q.
Proof.
  intros Hacc Hk Hlen Hv. revert acc k Hacc Hk Hlen.
  induction Hv as [|v values (kv & Hkv & Hv) Hvs IH]; intros acc k Hacc Hk Hlen.
  { simpl. ring. }
  cbn [foldl foldr]. change (length (v :: values)) with (Datatypes.S (length values)) in Hlen.
  assert (Hsum : (acc + v == inject_Z (k + kv) / 4)%Q).
  { rewrite Hacc, Hv, inject_Z_plus. field. }
  assert (Hf : (Py.fadd acc v == acc + v)%Q).
  { unfold Py.fadd. apply (float_quarter _ (k + kv)); [done|lia]. }
  rewrite (IH (Py.fadd acc v) (k + kv)%Z); [|by rewrite Hf|lia|lia].
  rewrite Hf. ring.
Qed.

Lemma foldr_map_scores (f : RunbookAnalysis → Q) (l : list RunbookAnalysis) :
  (foldr Qplus 0 (map f l) == foldr (λ a acc, f a + acc) 0 l)%Q.
Proof. induction l as [|a l IH]; simpl; [reflexivity|]. by rewrite IH. Qed.

(** An average of scores is their arithmetic mean, rounded once. *)
Lemma avg_rounded_mean (f : RunbookAnalysis → Q) (l : list RunbookAnalysis) :
  (Z.of_nat (length l) < 2 ^ 44)%Z → Forall (λ a, graded (f a)) l →
  avg (map f l) = Py.float (arithmetic_mean f l).
Proof.
  intros Hlen Hl. unfold avg, Py.truediv, arithmetic_mean. apply float_proper.
  rewrite length_map. unfold Py.sum.
  rewrite (sum_exact_from (map f l) 0 0).
  - rewrite Qplus_0_l, foldr_map_scores.
    rewrite (float_quarter _ (4 * Z.of_nat (length l))); [reflexivity| |lia].
    rewrite inject_Z_mult. field.
  - reflexivity.
  - lia.
  - rewrite length_map. lia.
  - by apply Forall_map.
Qed.
Lemma count_positive (l : list RunbookAnalysis) :
  l ≠ [] → (0 < inject_Z (Z.of_nat (length l)))%Q.
Proof.
  intros Hl. change 0%Q with (inject_Z 0). rewrite <- Zlt_Qlt.
  destruct l; [done|]. simpl length. lia.
Qed.

(** The exact mean of scores that lie between two bounds lies between
    them. *)
Lemma mean_range (f : RunbookAnalysis → Q) (lo hi : Q) (l : list RunbookAnalysis) :
  l ≠ [] → Forall (λ a, (lo <= f a <= hi)%Q) l →
  (lo <= arithmetic_mean f l <= hi)%Q.
Proof.
  intros Hne Hl. unfold arithmetic_mean.
  pose proof (count_positive l Hne) as Hn.
  assert (Hs : (lo * inject_Z (Z.of_nat (length l))
                <= foldr (λ a acc, f a + acc) 0 l
                <= hi * inject_Z (Z.of_nat (length l)))%Q).
  { clear Hne Hn. induction Hl as [|a l Ha Hl IH].
    { change (inject_Z (Z.of_nat (length (@nil RunbookAnalysis)))) with 0%Q.
      cbn [foldr]. lra. }
    cbn [foldr]. change (length (a :: l)) with (Datatypes.S (length l)).
    rewrite Nat2Z.inj_succ. unfold Z.succ. rewrite inject_Z_plus.
    change (inject_Z 1) with 1%Q. lra. }
  split.
  - apply Qle_shift_div_l; [done|lra].
  - apply Qle_shift_div_r; [done|lra].
Qed.

(** An average of scores between two multiples of a quarter lies between
    them: rounding does not leave the interval. *)
Lemma avg_range (f : RunbookAnalysis → Q) (a b : Z) (lo hi : Q) (l : list RunbookAnalysis) :
  l ≠ [] → (Z.of_nat (length l) < 2 ^ 44)%Z → (0 <= a)%Z → (b <= 400)%Z →
  (lo == inject_Z a / 4)%Q → (hi == inject_Z b / 4)%Q →
  Forall (λ x, graded (f x) ∧ (lo <= f x <= hi)%Q) l →
  (lo <= avg (map f l) <= hi)%Q.
Proof.
  intros Hne Hlen Ha Hb Elo Ehi Hl.
  rewrite avg_rounded_mean; [|done|by eapply Forall_impl; [exact Hl|]; intros ? [? ?]].
  destruct (mean_range f lo hi l Hne) as [Hlo Hhi].
  { eapply Forall_impl; [exact Hl|]. by intros ? [? ?]. }
  rewrite Elo, Ehi in *.
  apply float_between; [|done|done|lia].
  eapply Qle_trans; [|exact Hlo].
  apply Qle_shift_div_l; [done|]. rewrite Qmult_0_l, <- (Zle_Qle 0). lia.
Qed.

Lemma whole_Z (z : Z) : whole (z # 1).
Proof. by exists z. Qed.

Lemma whole_plus (x y : Q) : whole x → whole y → whole (x + y).
Proof. intros [a Ha] [b Hb]. exists (a + b)%Z. by rewrite Ha, Hb, inject_Z_plus. Qed.

Lemma whole_opp (x : Q) : whole x → whole (- x).
Proof. intros [a Ha]. exists (- a)%Z. by rewrite Ha, inject_Z_opp. Qed.

Lemma whole_mult (x y : Q) : whole x → whole y → whole (x * y).
Proof. intros [a Ha] [b Hb]. exists (a * b)%Z. by rewrite Ha, Hb, inject_Z_mult. Qed.

Lemma whole_min (x y : Q) : whole x → whole y → whole (Py.min x y).
Proof. intros Hx Hy. unfold Py.min. by destruct (Qle_bool x y). Qed.

Lemma whole_max (x y : Q) : whole x → whole y → whole (Py.max x y).
Proof. intros Hx Hy. unfold Py.max. by destruct (Qle_bool y x). Qed.

Lemma whole_eq (x y : Q) : (x == y)%Q → whole y → whole x.
Proof. intros Hxy [b Hb]. exists b. by rewrite Hxy. Qed.

Ltac whole_tac :=
  repeat first
    [ assumption | apply whole_Z | apply whole_plus | apply whole_opp | apply whole_mult
    | apply whole_min | apply whole_max
    | match goal with |- whole (if ?b then _ else _) => destruct b end ].

(** The four scores are whole numbers. *)
Lemma completeness_whole (metadata : gmap text text) (body : text) (headings : list text) :
  whole (score_of (_score_completeness metadata body headings)).
Proof.
  unfold _score_completeness. rewrite !check_score. unfold score_of. simpl. whole_tac.
Qed.

Lemma structure_whole (metadata : gmap text text) (body : text) (headings : list text) :
  whole (score_of (_score_structure metadata body headings)).
Proof.
  unfold _score_structure.
  set (mk := filter _ REQUIRED_METADATA_KEYS).
  set (pen := Py.min 40 (8 * inject_Z (Z.of_nat (length mk)))).
  assert (Hpen : whole pen) by (unfold pen; whole_tac).
  clearbody pen.
  set (t := check (Py.get_truthy metadata "service_owner") 15 _ _ _).
  assert (Ht : whole (score_of t)); [subst t|destruct t as [[s i] r]].
  - rewrite !check_score.
    destruct (bool_decide (metadata ≠ ∅)); [destruct mk|];
      unfold score_of; simpl; whole_tac.
  - unfold score_of in *. simpl in *. whole_tac.
Qed.

Lemma safety_whole (body : text) (headings : list text) :
  whole (score_of (_score_safety body headings)).
Proof.
  eapply whole_eq; [apply safety_score_eq|]. unfold safety_deductions. whole_tac.
Qed.

Lemma clarity_whole (body : text) : whole (score_of (_score_clarity body)).
Proof.
  unfold _score_clarity.
  destruct (filter _ _) as [|ln non_empty']; [unfold score_of; simpl; whole_tac|].
  set (non_empty := ln :: non_empty').
  match goal with |- context [existsb ?f non_empty] => destruct (existsb f non_empty) end;
  destruct (Py.contains "```" body);
  match goal with |- context [bool_decide ?P] => destruct (bool_decide P) end;
  match goal with |- context [filter ?P non_empty] => destruct (filter P non_empty) end;
  unfold score_of; simpl; whole_tac.
Qed.

Lemma whole_graded (x : Q) : whole x → (0 <= x <= 100)%Q → graded x.
Proof.
  intros [z Hz] [H0 H100]. rewrite Hz in H0, H100.
  change 0%Q with (inject_Z 0) in H0. change 100%Q with (inject_Z 100) in H100.
  rewrite <- Zle_Qle in H0, H100.
  exists (4 * z)%Z. split; [lia|]. rewrite Hz, inject_Z_mult. field.
Qed.

(** The scores of the analysis of any text are multiples of a quarter
    between 0 and 100. *)
Lemma analysis_of_graded (path content : text) : graded_scores (analysis_of path content).
Proof.
  unfold analysis_of, graded_scores.
  destruct (_parse_frontmatter content) as [metadata body].
  cbn [completeness_score structure_score safety_score clarity_score overall_score].
  set (headings := headings_of body).
  pose proof (completeness_range metadata body headings) as Hco.
  pose proof (structure_range metadata body headings) as Hst.
  pose proof (safety_score_eq body headings) as Hsa.
  pose proof (safety_deductions_range body headings) as Hd.
  pose proof (clarity_range body) as Hcl.
  pose proof (completeness_whole metadata body headings) as Wco.
  pose proof (structure_whole metadata body headings) as Wst.
  pose proof (safety_whole body headings) as Wsa.
  pose proof (clarity_whole body) as Wcl.
  assert (Hsar : (0 <= score_of (_score_safety body headings) <= 100)%Q) by lra.
  split; [|by split_and!; apply whole_graded].
  destruct Wco as [a Ha], Wst as [b Hb], Wsa as [c Hc], Wcl as [d Hd'].
  rewrite Ha in Hco. rewrite Hb in Hst. rewrite Hc in Hsar. rewrite Hd' in Hcl.
  change 0%Q with (inject_Z 0) in Hco, Hst, Hsar, Hcl.
  change 100%Q with (inject_Z 100) in Hco, Hst, Hsar, Hcl.
  rewrite <- !Zle_Qle in Hco, Hst, Hsar, Hcl.
  exists (a + b + c + d)%Z. split; [lia|].
  rewrite Ha, Hb, Hc, Hd', !inject_Z_plus. reflexivity.
Qed.

Lemma analyze_runbook_graded (fs : gmap text node) (path : text) (a : RunbookAnalysis) :
  analyze_runbook fs path = Ok a → graded_scores a.
Proof. intros (content & _ & ->)%analyze_runbook_inv. apply analysis_of_graded. Qed.

Lemma summary_lookups (a : RunbookAnalysis) (rest : list RunbookAnalysis) :
  let d := get_health_summary (a :: rest) in
  d !! "overall_health" = Some (avg (map overall_score (a :: rest)))
  ∧ d !! "average_completeness" = Some (avg (map completeness_score (a :: rest)))
  ∧ d !! "average_structure" = Some (avg (map structure_score (a :: rest)))
  ∧ d !! "average_safety" = Some (avg (map safety_score (a :: rest)))
  ∧ d !! "average_clarity" = Some (avg (map clarity_score (a :: rest))).
Proof.
  unfold get_health_summary.
  split_and!;
    repeat first [apply lookup_insert_eq | apply lookup_singleton_eq
                 | rewrite lookup_insert_ne by done].
Qed.

(** The double nearest to a number: the values that Python prints as
    [0.1], [0.3333333333333333], [70.83333333333333] and
    [75.83333333333333], a number half way between two doubles, and the
    smallest double. *)
Lemma float_examples :
  (Py.float (1 / 10) == 3602879701896397 # 36028797018963968)%Q
  ∧ (Py.float (1 / 3) == 6004799503160661 # 18014398509481984)%Q
  ∧ (Py.float (425 / 6) == 4984452712584533 # 70368744177664)%Q
  ∧ (Py.float (455 / 6) == 5336296433472853 # 70368744177664)%Q
  ∧ (Py.float (9007199254740993 # 1) == 9007199254740992 # 1)%Q
  ∧ (Py.float (9007199254740995 # 1) == 9007199254740996 # 1)%Q
  ∧ (Py.float (2 ^ (-1075) + 2 ^ (-1080)) == 2 ^ (-1074))%Q
  ∧ (Py.float (2 ^ (-1075)) == 0)%Q.
Proof. vm_compute. repeat split; reflexivity. Qed.

(** C9.  The summary of no analyses has 0 under each of its five keys,
    and no input makes the function raise: it is total.  For a non-empty
    list of fewer than [2 ^ 44] analyses whose scores are multiples of a
    quarter between 0 and 100, as all scores of [analyze_runbook] are
    ([analyze_runbook_graded]), the summary has under each key the
    arithmetic mean of the corresponding score rounded to the nearest
    double: the additions of [sum] are exact, the division rounds. *)
Theorem health_summary_fields :
  (get_health_summary [] !! "overall_health" = Some 0%Q
   ∧ get_health_summary [] !! "average_completeness" = Some 0%Q
   ∧ get_health_summary [] !! "average_structure" = Some 0%Q
   ∧ get_health_summary [] !! "average_safety" = Some 0%Q
   ∧ get_health_summary [] !! "average_clarity" = Some 0%Q)
  ∧ ∀ analyses : list RunbookAnalysis,
      analyses ≠ [] →
      (Z.of_nat (length analyses) < 2 ^ 44)%Z →
      Forall graded_scores analyses →
      let d := get_health_summary analyses in
      has_field d "overall_health" (Py.float (arithmetic_mean overall_score analyses))
      ∧ has_field d "average_completeness"
          (Py.float (arithmetic_mean completeness_score analyses))
      ∧ has_field d "average_structure" (Py.float (arithmetic_mean structure_score analyses))
      ∧ has_field d "average_safety" (Py.float (arithmetic_mean safety_score analyses))
      ∧ has_field d "average_clarity" (Py.float (arithmetic_mean clarity_score analyses)).
Proof.
  split; [vm_compute; by split_and!|].
  intros [|a rest] Hne Hlen Hg; [done|]. clear Hne.
  destruct (summary_lookups a rest) as (Ho & Hc & Hs & Hsa & Hcl).
  set (l := a :: rest) in *. intros d. subst d.
  assert (Hf : ∀ f, Forall (λ x, graded (f x)) l →
                (avg (map f l) == Py.float (arithmetic_mean f l))%Q).
  { intros f Hgf. by rewrite avg_rounded_mean. }
  split_and!; eexists; (split; [eassumption|]); apply Hf;
    (eapply Forall_impl; [exact Hg|]); by intros x (?&?&?&?&?).
Qed.

Lemma health_summary_fields_witness :
  get_health_summary sample_analyses !! "overall_health"
    = Some (5336296433472853 # 70368744177664)%Q
  ∧ (let d := get_health_summary sample_analyses in
     has_field d "overall_health" (Py.float (arithmetic_mean overall_score sample_analyses))
     ∧ has_field d "average_completeness"
         (Py.float (arithmetic_mean completeness_score sample_analyses))
     ∧ has_field d "average_structure"
         (Py.float (arithmetic_mean structure_score sample_analyses))
     ∧ has_field d "average_safety"
         (Py.float (arithmetic_mean safety_score sample_analyses))
     ∧ has_field d "average_clarity"
         (Py.float (arithmetic_mean clarity_score sample_analyses))).
Proof.
  split; [vm_compute; reflexivity|].
  apply (proj2 health_summary_fields sample_analyses); [done|vm_compute; reflexivity|].
  apply Forall_forall. intros a Ha. apply graded_scoresb_graded.
  revert a Ha. apply Forall_forall. vm_compute. repeat constructor.
Defined.

(** The summary of three analyses whose overall scores are 93.75, 93.75
    and 40 holds, as overall health, the double that Python prints as
    [75.83333333333333], and not the arithmetic mean 455/6 of the three
    scores, which is no double. *)
Lemma health_summary_mean_counterexample :
  arithmetic_mean overall_score sample_analyses == 455 / 6
  ∧ get_health_summary sample_analyses !! "overall_health"
    = Some (5336296433472853 # 70368744177664)%Q
  ∧ ¬ has_field (get_health_summary sample_analyses) "overall_health"
        (arithmetic_mean overall_score sample_analyses).
Proof.
  split; [vm_compute; reflexivity|].
  assert (H : get_health_summary sample_analyses !! "overall_health"
              = Some (5336296433472853 # 70368744177664)%Q) by (vm_compute; reflexivity).
  split; [exact H|].
  intros (x & Hx & Hv). pose proof (eq_trans (eq_sym Hx) H) as E.
  injection E as ->. revert Hv. vm_compute. discriminate.
Qed.

(** The ranges of the scores of the analysis of any text. *)
Lemma analysis_of_ranges (path content : text) :
  let a := analysis_of path content in
  (45 / 4 <= overall_score a <= 100)%Q
  ∧ (0 <= completeness_score a <= 100)%Q ∧ (0 <= structure_score a <= 100)%Q
  ∧ (10 <= safety_score a <= 100)%Q ∧ (0 <= clarity_score a <= 100)%Q.
Proof.
  intros a. split; [split; [apply analysis_of_overall_lower|]|]; subst a;
    unfold analysis_of; destruct (_parse_frontmatter content) as [metadata body];
    cbn [completeness_score structure_score safety_score clarity_score overall_score];
    set (headings := headings_of body);
    pose proof (completeness_range metadata body headings);
    pose proof (structure_range metadata body headings);
    pose proof (safety_score_eq body headings);
    pose proof (safety_deductions_range body headings);
    pose proof (clarity_range body).
  - setoid_replace 100%Q with (400 / 4)%Q using relation Qeq by reflexivity.
    apply quarter_le. lra.
  - repeat split; lra.
Qed.

(** X13.  For a non-empty list of fewer than [2 ^ 44] analyses that
    [analyze_runbook] returned, the summary has its five fields; the
    overall health lies between 11.25 and 100, the averages of
    completeness, structure and clarity between 0 and 100, and the
    average safety between 10 and 100: rounding to a double does not
    take an average out of the range of its scores. *)
Theorem summary_of_analyses (analyses : list RunbookAnalysis) :
  analyses ≠ [] →
  (Z.of_nat (length analyses) < 2 ^ 44)%Z →
  Forall (λ a, ∃ fs path, analyze_runbook fs path = Ok a) analyses →
  ∃ o c s sa cl,
    get_health_summary analyses !! "overall_health" = Some o
    ∧ get_health_summary analyses !! "average_completeness" = Some c
    ∧ get_health_summary analyses !! "average_structure" = Some s
    ∧ get_health_summary analyses !! "average_safety" = Some sa
    ∧ get_health_summary analyses !! "average_clarity" = Some cl
    ∧ (45 / 4 <= o <= 100)%Q
    ∧ (0 <= c <= 100)%Q ∧ (0 <= s <= 100)%Q ∧ (10 <= sa <= 100)%Q ∧ (0 <= cl <= 100)%Q.
Proof.
  intros Hne Hlen Hall.
  destruct analyses as [|a0 rest]; [done|].
  destruct (summary_lookups a0 rest) as (Ho & Hc & Hs & Hsa & Hcl).
  set (l := a0 :: rest) in *.
  assert (Hl : Forall (λ a, ∃ path content, a = analysis_of path content) l).
  { eapply Forall_impl; [exact Hall|].
    intros a (fs & path & (content & _ & ->)%analyze_runbook_inv). eauto. }
  exists (avg (map overall_score l)), (avg (map completeness_score l)),
    (avg (map structure_score l)), (avg (map safety_score l)),
    (avg (map clarity_score l)).
  do 5 (split; [done|]).
  split; [|split; [|split; [|split]]].
  - apply (avg_range overall_score 45 400); [done|done|lia|lia|done|done|].
    eapply Forall_impl; [exact Hl|]. intros a (path & content & ->).
    pose proof (analysis_of_graded path content) as (?&?&?&?&?).
    pose proof (analysis_of_ranges path content) as (?&?&?&?&?). done.
  - apply (avg_range completeness_score 0 400); [done|done|lia|lia|done|done|].
    eapply Forall_impl; [exact Hl|]. intros a (path & content & ->).
    pose proof (analysis_of_graded path content) as (?&?&?&?&?).
    pose proof (analysis_of_ranges path content) as (?&?&?&?&?). done.
  - apply (avg_range structure_score 0 400); [done|done|lia|lia|done|done|].
    eapply Forall_impl; [exact Hl|]. intros a (path & content & ->).
    pose proof (analysis_of_graded path content) as (?&?&?&?&?).
    pose proof (analysis_of_ranges path content) as (?&?&?&?&?). done.
  - apply (avg_range safety_score 40 400); [done|done|lia|lia|done|done|].
    eapply Forall_impl; [exact Hl|]. intros a (path & content & ->).
    pose proof (analysis_of_graded path content) as (?&?&?&?&?).
    pose proof (analysis_of_ranges path content) as (?&?&?&?&?). done.
  - apply (avg_range clarity_score 0 400); [done|done|lia|lia|done|done|].
    eapply Forall_impl; [exact Hl|]. intros a (path & content & ->).
    pose proof (analysis_of_graded path content) as (?&?&?&?&?).
    pose proof (analysis_of_ranges path content) as (?&?&?&?&?). done.
Qed.

Lemma summary_of_analyses_witness :
  ∃ o c s sa cl,
    get_health_summary sample_analyses !! "overall_health" = Some o
    ∧ get_health_summary sample_analyses !! "average_completeness" = Some c
    ∧ get_health_summary sample_analyses !! "average_structure" = Some s
    ∧ get_health_summary sample_analyses !! "average_safety" = Some sa
    ∧ get_health_summary sample_analyses !! "average_clarity" = Some cl
    ∧ (45 / 4 <= o <= 100)%Q
    ∧ (0 <= c <= 100)%Q ∧ (0 <= s <= 100)%Q ∧ (10 <= sa <= 100)%Q ∧ (0 <= cl <= 100)%Q.
Proof.
  apply (summary_of_analyses sample_analyses); [done|vm_compute; reflexivity|].
  repeat constructor.
  - exists ({[ "runbooks/latency.md" := File complete_runbook ]} : gmap text node),
      "runbooks/latency.md".
    apply analyze_runbook_file. apply lookup_singleton_eq.
  - exists ({[ "runbooks/pooler.md" := File complete_runbook ]} : gmap text node),
      "runbooks/pooler.md".
    apply analyze_runbook_file. apply lookup_singleton_eq.
  - exists sample_fs, "runbooks/db.md".
    apply analyze_runbook_file. vm_compute. reflexivity.
Defined.

(** ** The file name of an analysis *)

Lemma contains_slash_app (a n : text) : Py.contains "/" (a ++ "/"%char :: n) = true.
Proof. apply contains_char. set_solver. Qed.

Lemma basename_plain (n : text) : ("/"%char ∉ n) → Py.basename n = n.
Proof.
  intros Hn. destruct n as [|c n]; [done|].
  change (Py.basename (c :: n))
    with (if Py.contains "/" (c :: n) then Py.basename n else c :: n).
  destruct (Py.contains "/" (c :: n)) eqn:E; [|done]. by apply contains_char in E.
Qed.

Lemma basename_after_slash (a n : text) :
  ("/"%char ∉ n) → Py.basename (a ++ "/"%char :: n) = n.
Proof.
  intros Hn. induction a as [|c a IH].
  - change (Py.basename ([] ++ "/"%char :: n))
      with (if Py.contains "/" ("/"%char :: n) then Py.basename n else "/"%char :: n).
    assert (Py.contains "/" ("/"%char :: n) = true) as ->
      by apply (contains_slash_app [] n).
    by apply basename_plain.
  - change (Py.basename ((c :: a) ++ "/"%char :: n))
      with (if Py.contains "/" ((c :: a) ++ "/"%char :: n)
            then Py.basename (a ++ "/"%char :: n) else (c :: a) ++ "/"%char :: n).
    by rewrite (contains_slash_app (c :: a) n).
Qed.

Lemma endswith_slash (a : text) : Py.endswith "/" a = true → ∃ a', a = a' ++ "/".
Proof.
  unfold Py.endswith. intros H. destruct (rev a) as [|c r] eqn:E; [done|].
  change (Py.startswith (rev "/") (c :: r)) with (Ascii.eqb "/" c && true) in H.
  rewrite andb_true_r in H. apply Ascii.eqb_eq in H as <-.
  exists (rev r). by rewrite <- (rev_involutive a), E.
Qed.

(** The base name of the path of a directory entry is the entry's name. *)
Lemma basename_path_join (dir name : text) :
  ("/"%char ∉ name) → Py.basename (Py.path_join dir name) = name.
Proof.
  intros Hn. unfold Py.path_join.
  assert (Py.startswith "/" name = false) as ->.
  { destruct name as [|c name]; [done|].
    change (Py.startswith "/" (c :: name)) with (Ascii.eqb "/" c && true).
    rewrite andb_true_r. apply Ascii.eqb_neq. intros <-. apply Hn. by left. }
  destruct (negb (Py.truthy dir) || Py.endswith "/" dir) eqn:E.
  - apply orb_true_iff in E as [E|E].
    + destruct dir; [|done]. by apply basename_plain.
    + apply endswith_slash in E as [a' ->]. rewrite <- app_assoc.
      by apply basename_after_slash.
  - by apply basename_after_slash.
Qed.

(** X14.  The analysis of a directory entry whose name holds no slash
    carries that name as its file name. *)
Theorem batch_result_filename (fs : gmap text node) (dir name : text)
    (a : RunbookAnalysis) :
  ("/"%char ∉ name) →
  analyze_runbook fs (Py.path_join dir name) = Ok a →
  filename a = name.
Proof.
  intros Hn (content & _ & ->)%analyze_runbook_inv.
  unfold analysis_of. destruct (_parse_frontmatter content). simpl.
  by apply basename_path_join.
Qed.

Lemma batch_result_filename_witness :
  filename (analysis_of "runbooks/a.md" []) = "a.md".
Proof.
  apply (batch_result_filename batch_fs "runbooks" "a.md").
  - rewrite !elem_of_cons, elem_of_nil. intuition discriminate.
  - apply (analyze_runbook_file batch_fs "runbooks/a.md" []). vm_compute. reflexivity.
Defined.

(** ** Substrings and letter case *)


Lemma contains_unfold (t : text) (x : ascii) (hay : text) :
  Py.contains t (x :: hay) = Py.startswith t (x :: hay) || Py.contains t hay.
Proof. reflexivity. Qed.


Lemma contains_app_l (t pre hay : text) :
  Py.contains t hay = true → Py.contains t (pre ++ hay) = true.
Proof.
  intros H. induction pre as [|x pre IH]; [done|].
  rewrite <- app_comm_cons, contains_unfold, IH. apply orb_true_r.
Qed.

Lemma startswith_contains (t s : text) :
  Py.startswith t s = true → Py.contains t s = true.
Proof. intros H. destruct s; simpl in *; by rewrite H. Qed.

Lemma lower_app (a b : text) : Py.lower (a ++ b) = Py.lower a ++ Py.lower b.
Proof. apply map_app. Qed.

Lemma lower_char_idemp (c : ascii) : Py.lower_char (Py.lower_char c) = Py.lower_char c.
Proof. destruct c as [[] [] [] [] [] [] [] []]; vm_compute; reflexivity. Qed.

Lemma lower_idemp (s : text) : Py.lower (Py.lower s) = Py.lower s.
Proof.
  unfold Py.lower. rewrite map_map. apply map_ext. intros c. apply lower_char_idemp.
Qed.

(** ** The keyword score *)


(** X16.  Retrieval ignores the letter case of the alert and of the
    content: lowering the alert changes neither its tokens nor the path
    that the finder returns, and lowering a content does not change its
    keyword score. *)
Theorem retrieval_ignores_case (fs : gmap text node) (dir alert : text)
    (toks : list text) (content : text) :
  _tokens (Py.lower alert) = _tokens alert
  ∧ _find_best_runbook fs dir (Py.lower alert) = _find_best_runbook fs dir alert
  ∧ _keyword_score toks (Py.lower content) = _keyword_score toks content.
Proof.
  assert (Ht : _tokens (Py.lower alert) = _tokens alert).
  { unfold _tokens. by rewrite lower_idemp. }
  split_and!; [done| |].
  - by rewrite !find_best_unfold, Ht.
  - unfold _keyword_score. by rewrite lower_idemp.
Qed.

(** ** The shape of a token *)

Lemma plus_match_consumes (f : flags) (a : atom) (c : cursor)
    (accept : cursor → bool) (m : match_obj) :
  match_at f (Plus a) c accept = Some m →
  ∃ consumed rest, after c = consumed ++ rest
    ∧ m_start m = offset c ∧ m_end m = offset c + length consumed
    ∧ Forall (λ x, atom_match f a x = true) consumed.
Proof.
  unfold match_at. destruct (run f (Plus a) c _) as [e|] eqn:R; [|done].
  intros [= <-]. simpl in R. destruct (after c) as [|x s] eqn:Ea; [done|].
  destruct (atom_match f a x) eqn:Ex; [|done].
  apply greedy_continues in R as (pre & rest & b' & -> & Hp & Hk).
  destruct (accept _); [|done]. injection Hk as <-.
  exists (x :: pre), rest. simpl. split_and!; [done|done|lia|by constructor].
Qed.

Lemma matches_here_elem (f : flags) (r : regex) (c : cursor) (m : match_obj) :
  m ∈ matches_here f r c → ∃ accept, match_at f r c accept = Some m.
Proof.
  unfold matches_here. destruct (match_at f r c (λ _, true)) as [m0|] eqn:E0.
  - destruct (m_end m0 =? m_start m0)%nat.
    + destruct (match_at f r c (λ e, negb (offset e =? offset c)%nat)) as [m1|] eqn:E1.
      * intros [->|[->|H]%elem_of_cons]%elem_of_cons; [by eauto..|].
        by apply elem_of_nil in H.
      * intros [->|H]%elem_of_cons; [by eauto|]. by apply elem_of_nil in H.
    + intros [->|H]%elem_of_cons; [by eauto|]. by apply elem_of_nil in H.
  - by intros ?%elem_of_nil.
Qed.

(** Every match that [finditer] reports is a match at some position of
    the text. *)
Lemma finditer_from_elem (f : flags) (r : regex) (s : text) (skip : nat)
    (b : option ascii) (off : nat) (m : match_obj) :
  m ∈ finditer_from f r skip b off s →
  ∃ pre s1 b1 accept, s = pre ++ s1
    ∧ match_at f r (Cursor b1 (off + length pre) s1 None) accept = Some m.
Proof.
  revert skip b off. induction s as [|x s IH]; intros skip b off Hm.
  - destruct skip as [|n]; simpl in Hm; [|by apply elem_of_nil in Hm].
    rewrite app_nil_r in Hm. apply matches_here_elem in Hm as [accept Hm].
    exists [], [], b, accept. by rewrite Nat.add_0_r.
  - destruct skip as [|n]; simpl in Hm.
    + apply elem_of_app in Hm as [Hm|Hm].
      * apply matches_here_elem in Hm as [accept Hm].
        exists [], (x :: s), b, accept. by rewrite Nat.add_0_r.
      * apply IH in Hm as (pre & s1 & b1 & accept & -> & Hm).
        exists (x :: pre), s1, b1, accept. split; [done|].
        simpl length. by rewrite Nat.add_succ_r.
    + apply IH in Hm as (pre & s1 & b1 & accept & -> & Hm).
      exists (x :: pre), s1, b1, accept. split; [done|].
      simpl length. by rewrite Nat.add_succ_r.
Qed.

Lemma token_class_lower (c : ascii) :
  atom_match NOFLAG (Class [("a"%char, "z"%char); ("A"%char, "Z"%char);
                            ("0"%char, "9"%char); ("_"%char, "_"%char)]) c = true →
  Py.lower_char c = c → token_char c = true.
Proof. destruct c as [[] [] [] [] [] [] [] []]; vm_compute; congruence. Qed.

(** X17.  Every token of an alert has at least three characters, each a
    lower-case ASCII letter, a digit or the underscore. *)
Theorem tokens_shape (alert t : text) :
  t ∈ _tokens alert → 3 ≤ length t ∧ Forall (λ c, token_char c = true) t.
Proof.
  unfold _tokens. intros [Hlen Ht]%list_elem_of_filter. split; [done|].
  unfold findall in Ht. apply list_elem_of_fmap in Ht as (m & -> & Hm).
  change (has_group token_re) with false. cbv iota.
  apply finditer_from_elem in Hm as (pre & s1 & b1 & accept & Hs & Hm).
  apply plus_match_consumes in Hm as (consumed & rest & Ha & Hstart & Hend & Hc).
  simpl in Ha, Hstart, Hend. subst s1.
  assert (Hslice : slice (m_start m) (m_end m) (Py.lower alert) = consumed).
  { unfold slice. rewrite Hs, Hstart, Hend.
    replace (length pre + length consumed - length pre) with (length consumed) by lia.
    by rewrite drop_app_length, take_app_length. }
  rewrite Hslice.
  assert (Hl : Forall (λ c, Py.lower_char c = c) (Py.lower alert)).
  { unfold Py.lower. apply Forall_forall. intros c (c0 & -> & _)%list_elem_of_fmap.
    apply lower_char_idemp. }
  rewrite Hs in Hl. apply Forall_app in Hl as [_ Hl]. apply Forall_app in Hl as [Hl _].
  apply Forall_forall. intros c Hin.
  rewrite Forall_forall in Hc, Hl. by apply token_class_lower; auto.
Qed.

Lemma tokens_shape_witness :
  3 ≤ length ("latency" : text) ∧ Forall (λ c, token_char c = true) ("latency" : text).
Proof.
  apply (tokens_shape "Database Latency High").
  assert (E : _tokens "Database Latency High" = ["database"; "latency"; "high"])
    by (vm_compute; reflexivity).
  rewrite E. right. by left.
Defined.

(** ** Sections *)

Lemma section_re_unfold (name : text) :
  section_re name
  = ReX.XCat
      (ReX.Base (Cat Bol (Cat (Star Space) (Cat (lit "##") (Cat (Plus Space)
         (Cat (lit name) (Cat (Star Space) (Cat Eol (Cat (One (Chr LF))
            (Group (StarLazy Dot)))))))))))
      (ReX.Lookahead
         (ReX.XAlt (ReX.Base (Cat Bol (Cat (Star Space) (Cat (lit "##") (Plus Space)))))
                   ReX.EndZ)).
Proof. reflexivity. Qed.

(** A match of the section pattern goes through the name of the
    section. *)
Lemma section_match_has_name (name : text) (c : cursor) (m : match_obj) :
  ReX.xmatch_at ReX.MS (section_re name) c = Some m →
  Py.contains name (after c) = true.
Proof.
  unfold ReX.xmatch_at. rewrite section_re_unfold.
  destruct (ReX.xrun _ _ c Some) as [e|] eqn:R; [|done]. intros _.
  cbn [ReX.xrun] in R.
  advance R p1 c1. advance R p2 c2. advance R p3 c3. advance R p4 c4.
  rewrite run_cat in R. destruct c4 as [b4 o4 a4 g4].
  destruct (Py.startswith name a4) eqn:E.
  - simpl in *. rewrite Ha, Ha0, Ha1, Ha2, !app_assoc.
    by apply contains_app_l, startswith_contains.
  - by rewrite run_lit_starts in R.
Qed.

Lemma contains_cons_false (t : text) (x : ascii) (s : text) :
  Py.contains t (x :: s) = false → Py.contains t s = false.
Proof. rewrite contains_unfold. by intros [_ ?]%orb_false_iff. Qed.

Lemma xsearch_from_absent (name : text) (b : option ascii) (off : nat) (s : text) :
  Py.contains name s = false →
  ReX.xsearch_from ReX.MS (section_re name) b off s = None.
Proof.
  revert b off. induction s as [|x s IH]; intros b off H.
  - simpl. destruct (ReX.xmatch_at _ _ _) as [m|] eqn:E; [|done].
    apply section_match_has_name in E. cbn [after] in E. congruence.
  - cbn [ReX.xsearch_from].
    destruct (ReX.xmatch_at _ _ _) as [m|] eqn:E.
    + apply section_match_has_name in E. cbn [after] in E. congruence.
    + apply IH. by eapply contains_cons_false.
Qed.

(** X18.  A section whose name does not occur in the body, in the same
    letter case, is empty. *)
Theorem section_needs_name (body name : text) :
  Py.contains name body = false → section body name = [].
Proof.
  intros H. unfold section, ReX.xsearch. by rewrite xsearch_from_absent.
Qed.

Lemma section_needs_name_witness :
  section "## DIAGNOSIS
1. Look at the slow query log.
" "Diagnosis" = [].
Proof. apply section_needs_name. vm_compute. reflexivity. Defined.

(** ** The response to an alert *)

Lemma candidates_in_path (fs : gmap text node) (dir : text) (names : list text)
    (p c : text) :
  (p, c) ∈ candidates_in fs dir names →
  ∃ name, name ∈ names ∧ is_markdown name = true ∧ p = Py.path_join dir name.
Proof.
  unfold candidates_in. intros (name & Hn & H)%list_elem_of_omap.
  exists name. destruct (is_markdown name); [|done].
  destruct (fs !! Py.path_join dir name) as [[content|?]|]; [|done..].
  injection H as <- _. done.
Qed.

Lemma path_join_truthy (dir name : text) :
  name ≠ [] → Py.truthy (Py.path_join dir name) = true.
Proof.
  intros Hn. unfold Py.path_join.
  destruct (Py.startswith "/" name); [by destruct name|].
  destruct (negb (Py.truthy dir) || Py.endswith "/" dir); destruct dir; by destruct name.
Qed.

(** A path that the finder returns is not empty and names a file. *)
Lemma find_best_some (fs : gmap text node) (dir alert p : text) :
  _find_best_runbook fs dir alert = Ok (Some p) →
  Py.truthy p = true ∧ ∃ content, fs !! p = Some (File content).
Proof.
  intros H. pose proof (find_best_returned _ _ _ _ H) as Hr.
  rewrite (find_best_readable _ _ _ Hr) in H. injection H as H.
  destruct (pick_from_zero (_tokens alert) (candidates fs dir))
    as [[Hnone _]|(p' & Hsome & Hfirst)]; [congruence|].
  assert (p' = p) as -> by congruence.
  apply first_best_positive in Hfirst as (c & Hin & _).
  split; [|exists c; by eapply candidates_in_file].
  apply candidates_in_path in Hin as (name & _ & Hmd & ->).
  apply path_join_truthy. by intros ->.
Qed.

Lemma handle_alert_matched (fs : gmap text node) (dir alert p content : text) :
  _find_best_runbook fs dir alert = Ok (Some p) →
  fs !! p = Some (File content) →
  handle_alert fs dir alert
  = Ok (let body := (_parse_frontmatter content).2 in
        matched_response (Py.basename p)
          (or_else (section body "Diagnosis") "No explicit Diagnosis steps found.")
          (or_else (section body "Remediation") "No explicit Remediation steps found.")
          (or_else (section body "Rollback") "No explicit Rollback steps found.")).
Proof.
  intros H Hc. destruct (find_best_some _ _ _ _ H) as [Hp _].
  unfold handle_alert. rewrite H. cbn [mbind result_bind].
  rewrite Hp. cbn [negb]. unfold RunbookAgent._read_text, Os.read_text. rewrite Hc.
  cbn [mbind result_bind]. by destruct (_parse_frontmatter content).
Qed.


(** X20.  [handle_alert] answers with the message that no runbook
    matches exactly when the finder returns no path. *)
Theorem handle_alert_no_match (fs : gmap text node) (dir alert : text) :
  handle_alert fs dir alert = Ok no_match_message
  ↔ _find_best_runbook fs dir alert = Ok None.
Proof.
  split.
  - intros H. destruct (_find_best_runbook fs dir alert) as [[p|]|e] eqn:E; [|done|].
    + destruct (find_best_some _ _ _ _ E) as [_ [content Hc]].
      rewrite (handle_alert_matched _ _ _ _ _ E Hc) in H. by injection H.
    + unfold handle_alert in H. by rewrite E in H.
  - intros H. unfold handle_alert. by rewrite H.
Qed.

(** The body is what is left of the document after the frontmatter. *)
Lemma body_is_suffix (content : text) :
  ∃ pre, content = pre ++ (_parse_frontmatter content).2.
Proof.
  unfold _parse_frontmatter.
  destruct (match_ S _YAML_FRONTMATTER_RE content) as [m|] eqn:E; [|by exists []].
  apply frontmatter_match_consumes in E as (pre & rest & -> & -> & _).
  exists pre. simpl. by rewrite drop_app_length.
Qed.

Lemma section_absent_in_document (content name : text) :
  Py.contains name content = false →
  section (_parse_frontmatter content).2 name = [].
Proof.
  intros H. unfold section, ReX.xsearch. rewrite xsearch_from_absent; [done|].
  destruct (body_is_suffix content) as [pre Hpre].
  destruct (Py.contains name (_parse_frontmatter content).2) eqn:E; [|done].
  apply (contains_app_l name pre) in E. congruence.
Qed.

(** X21.  When the matched runbook holds none of the words Diagnosis,
    Remediation and Rollback, the response names the file and gives the
    three placeholder lines. *)
Theorem handle_alert_without_sections (fs : gmap text node)
    (dir alert p content : text) :
  _find_best_runbook fs dir alert = Ok (Some p) →
  fs !! p = Some (File content) →
  Py.contains "Diagnosis" content = false →
  Py.contains "Remediation" content = false →
  Py.contains "Rollback" content = false →
  handle_alert fs dir alert
  = Ok (matched_response (Py.basename p)
          "No explicit Diagnosis steps found."
          "No explicit Remediation steps found."
          "No explicit Rollback steps found.").
Proof.
  intros H Hc Hd Hr Hb. rewrite (handle_alert_matched _ _ _ _ _ H Hc). cbv zeta.
  by rewrite !section_absent_in_document.
Qed.

Lemma handle_alert_without_sections_witness :
  handle_alert retrieval_fs "runbooks" "Database Latency High"
  = Ok (matched_response "db.MD"
          "No explicit Diagnosis steps found."
          "No explicit Remediation steps found."
          "No explicit Rollback steps found.").
Proof.
  apply (handle_alert_without_sections retrieval_fs "runbooks" "Database Latency High"
           "runbooks/db.MD" "Database LATENCY: look at slow queries.");
    vm_compute; reflexivity.
Defined.

(** ** The text under a heading *)

Lemma before_after_app (b : option ascii) (p : text) (x : ascii) :
  before_after b (p ++ [x]) = Some x.
Proof. unfold before_after. by rewrite last_snoc. Qed.

Lemma before_after_cons (b : option ascii) (x : ascii) (p : text) :
  before_after b (x :: p) = before_after (Some x) p.
Proof. unfold before_after. rewrite last_cons. by destruct (last p). Qed.

(** A literal at the cursor is consumed. *)
Lemma run_lit_app (f : flags) (p : text) b off s g k :
  ignorecase f = false →
  run f (lit p) (Cursor b off (p ++ s) g) k
  = k (Cursor (before_after b p) (off + length p) s g).
Proof.
  intros Hf. revert b off. induction p as [|c p IH]; intros b off.
  { simpl. by rewrite Nat.add_0_r. }
  assert (Hm : atom_match f (Chr c) c = true).
  { simpl. rewrite Hf. apply Ascii.eqb_refl. }
  rewrite before_after_cons. simpl length. rewrite Nat.add_succ_r.
  destruct p as [|c2 p].
  - simpl lit. simpl app. rewrite run_one, Hm. simpl length. by rewrite Nat.add_0_r.
  - change (lit (c :: c2 :: p)) with (Cat (One (Chr c)) (lit (c2 :: p))).
    rewrite <- app_comm_cons, run_cat, run_one, Hm. apply IH.
Qed.

(** Where a lazy repetition stops, the rest of the pattern matches, and
    it matches at no earlier position. *)
Lemma lazy_first (p : ascii → bool) b off s g k e :
  lazy p b off s g k = Some e →
  ∃ pre rest, s = pre ++ rest
    ∧ k (Cursor (before_after b pre) (off + length pre) rest g) = Some e
    ∧ ∀ pre1 x pre2, pre = pre1 ++ x :: pre2 →
        k (Cursor (before_after b pre1) (off + length pre1) (x :: pre2 ++ rest) g) = None.
Proof.
  revert b off. induction s as [|x s IH]; intros b off H; rewrite lazy_unfold in H.
  - destruct (k (Cursor b off [] g)) as [e'|] eqn:E; [|done]. injection H as ->.
    exists [], []. simpl. rewrite Nat.add_0_r. split_and!; [done..|].
    intros pre1 ? ? Heq. by destruct pre1.
  - destruct (k (Cursor b off (x :: s) g)) as [e'|] eqn:E.
    + injection H as ->. exists [], (x :: s). simpl. rewrite Nat.add_0_r.
      split_and!; [done..|]. intros pre1 ? ? Heq. by destruct pre1.
    + destruct (p x); [|done].
      destruct (IH _ _ H) as (pre & rest & -> & Hk & Hmin).
      exists (x :: pre), rest. rewrite before_after_cons. simpl length.
      rewrite Nat.add_succ_r. split_and!; [done..|].
      intros pre1 y pre2 Heq. destruct pre1 as [|z pre1]; simplify_eq/=.
      * by rewrite Nat.add_0_r.
      * rewrite before_after_cons, Nat.add_succ_r. by apply Hmin.
Qed.

(** A lazy repetition finds a match when the rest of the pattern matches
    somewhere within its reach. *)
Lemma lazy_finds (p : ascii → bool) (pre rest : text) b off g k e0 :
  Forall (λ x, p x = true) pre →
  k (Cursor (before_after b pre) (off + length pre) rest g) = Some e0 →
  ∃ e, lazy p b off (pre ++ rest) g k = Some e.
Proof.
  intros Hp. revert b off. induction Hp as [|x pre Hx Hp IH]; intros b off Hk.
  - simpl in Hk. rewrite Nat.add_0_r in Hk. rewrite lazy_unfold. simpl app.
    change (before_after b []) with b in Hk. rewrite Hk. by eauto.
  - rewrite lazy_unfold. rewrite <- app_comm_cons.
    destruct (k (Cursor b off (x :: pre ++ rest) g)); [by eauto|].
    rewrite Hx. apply IH. rewrite before_after_cons in Hk. simpl length in Hk.
    by rewrite Nat.add_succ_r in Hk.
Qed.

Lemma greedy_some (p : ascii → bool) b off s g :
  ∃ e, greedy p b off s g Some = Some e.
Proof.
  revert b off. induction s as [|x s IH]; intros b off; simpl; [by eauto|].
  destruct (p x); [|by eauto].
  destruct (IH (Some x) (Datatypes.S off)) as [e ->]. by eauto.
Qed.

Lemma xsearch_from_unfold f r b off s :
  ReX.xsearch_from f r b off s
  = match ReX.xmatch_at f r (Cursor b off s None) with
    | Some m => Some m
    | None =>
        match s with
        | x :: s' => ReX.xsearch_from f r (Some x) (Datatypes.S off) s'
        | [] => None
        end
    end.
Proof. by destruct s. Qed.

Lemma section_re_parts (name : text) :
  section_re name
  = ReX.XCat (ReX.Base (heading_line name)) (ReX.Lookahead heading_ahead).
Proof. reflexivity. Qed.

Lemma run_plus f a b off x s g k :
  run f (Plus a) (Cursor b off (x :: s) g) k
  = if atom_match f a x
    then greedy (atom_match f a) (Some x) (Datatypes.S off) s g k else None.
Proof. reflexivity. Qed.

Lemma run_eol f c k : run f Eol c k = if at_eol f c then k c else None.
Proof. reflexivity. Qed.

Lemma run_bol_if f c k : run f Bol c k = if at_bol f c then k c else None.
Proof. reflexivity. Qed.

(** *** The lookahead *)

Lemma ahead_at_end (c : cursor) :
  after c = [] → ∃ e, ReX.xrun ReX.MS heading_ahead c Some = Some e.
Proof.
  intros H. unfold heading_ahead. cbn [ReX.xrun].
  destruct (run ReX.MS _ c Some); [by eauto|]. rewrite H. by eauto.
Qed.

Lemma ahead_at_heading (off : nat) (more : text) (g : option text) :
  ∃ e, ReX.xrun ReX.MS heading_ahead (Cursor (Some LF) off ("## " ++ more) g) Some
       = Some e.
Proof.
  unfold heading_ahead. cbn [ReX.xrun].
  assert (∃ e, run ReX.MS (seq [Bol; Star Space; lit "##"; Plus Space])
                 (Cursor (Some LF) off ("## " ++ more) g) Some = Some e) as [e ->];
    [|by eauto].
  change (seq [Bol; Star Space; lit "##"; Plus Space])
    with (Cat Bol (Cat (Star Space) (Cat (lit "##") (Plus Space)))).
  change ("## " ++ more) with ("#"%char :: "#"%char :: " "%char :: more).
  rewrite run_cat, run_bol_if. change (at_bol ReX.MS (Cursor (Some LF) off _ g)) with true.
  cbv iota. rewrite run_cat, run_star, greedy_stop by done.
  change ("#"%char :: "#"%char :: " "%char :: more) with ("##" ++ " "%char :: more).
  rewrite run_cat, run_lit_app by done. rewrite run_plus.
  change (atom_match ReX.MS Space " ") with true. cbv iota. apply greedy_some.
Qed.

(** Where the lookahead succeeds, the text has ended or continues with
    whitespace and a number sign. *)
Lemma ahead_inv (c : cursor) (e : cursor) :
  ReX.xrun ReX.MS heading_ahead c Some = Some e →
  after c = [] ∨ ∃ ws r, after c = ws ++ "#"%char :: r
                         ∧ Forall (λ x, Py.isspace x = true) ws.
Proof.
  unfold heading_ahead. cbn [ReX.xrun].
  destruct (run ReX.MS _ c Some) as [e'|] eqn:R.
  - intros _. right.
    change (seq [Bol; Star Space; lit "##"; Plus Space])
      with (Cat Bol (Cat (Star Space) (Cat (lit "##") (Plus Space)))) in R.
    rewrite run_cat, run_bol_if in R. destruct (at_bol ReX.MS c); [|done].
    rewrite run_cat in R. destruct c as [b1 o1 a1 g1].
    rewrite run_star in R.
    apply greedy_continues in R as (ws & rest & b' & Hs & Hws & R).
    rewrite run_cat in R.
    destruct (Py.startswith "##" rest) eqn:E; [|by rewrite run_lit_starts in R].
    destruct rest as [|x rest]; [done|]. rewrite startswith_cons in E.
    apply andb_true_iff in E as [Ex _]. apply Ascii.eqb_eq in Ex as <-.
    exists ws, rest. by split.
  - destruct (after c); [by left|done].
Qed.

(** *** The heading line *)

(** From the number signs of the heading on, the pattern consumes the
    line of the heading and goes on with the lazy group at the start of
    the content. *)
Lemma run_heading (name content tail : text) b off g k :
  starts_plain name → starts_plain content →
  run ReX.MS
    (Cat (lit "##") (Cat (Plus Space) (Cat (lit name) (Cat (Star Space)
       (Cat Eol (Cat (One (Chr LF)) (Group (StarLazy Dot))))))))
    (Cursor b off ("## " ++ name ++ LF :: content ++ tail) g) k
  = lazy (atom_match ReX.MS Dot) (Some LF) (off + (4 + length name))
      (content ++ tail) g
      (λ c', k (Cursor (before c') (offset c') (after c')
                  (Some (take (offset c' - (off + (4 + length name)))
                           (content ++ tail))))).
Proof.
  intros (n & ns & -> & Hn) (c & cs & -> & Hc).
  change ("## " ++ (n :: ns) ++ LF :: (c :: cs) ++ tail)
    with ("##" ++ " "%char :: n :: (ns ++ LF :: c :: cs ++ tail)).
  rewrite run_cat, run_lit_app by done.
  rewrite run_cat, run_plus. change (atom_match ReX.MS Space " ") with true. cbv iota.
  rewrite greedy_stop by done.
  change (n :: ns ++ LF :: c :: cs ++ tail) with ((n :: ns) ++ LF :: c :: cs ++ tail).
  rewrite run_cat, run_lit_app by done.
  rewrite run_cat, run_star, greedy_more by done.
  rewrite greedy_stop by done.
  rewrite run_cat, run_eol.
  assert (at_eol ReX.MS
            (Cursor (Some LF)
               (Datatypes.S (Datatypes.S (off + length ("##" : text)) + length (n :: ns)))
               (c :: cs ++ tail) g) = false) as ->.
  { unfold at_eol. cbn [after]. by rewrite (isspace_not_LF c Hc). }
  rewrite run_cat, run_eol.
  change (at_eol ReX.MS (Cursor _ _ (LF :: c :: cs ++ tail) g)) with true. cbv iota.
  rewrite run_cat, run_one. change (atom_match ReX.MS (Chr LF) LF) with true. cbv iota.
  rewrite run_group_lazy.
  replace (Datatypes.S (Datatypes.S (off + length ("##" : text)) + length (n :: ns)))
    with (off + (4 + length (n :: ns))) by (simpl; lia).
  done.
Qed.

(** *** Stripping what follows the content *)

Lemma rstrip_by_blank_app (p : ascii → bool) (x w : text) :
  Forall (λ c, p c = true) w → Py.rstrip_by p (x ++ w) = Py.rstrip_by p x.
Proof.
  intros Hw. induction x as [|c x IH].
  - simpl. induction Hw as [|d w Hd Hw IHw]; [done|].
    rewrite rstrip_by_cons, IHw. by rewrite Hd.
  - rewrite <- app_comm_cons, !rstrip_by_cons. by rewrite IH.
Qed.

Lemma strip_blank_app (x w : text) :
  Forall (λ c, Py.isspace c = true) w → Py.strip (x ++ w) = Py.strip x.
Proof.
  intros Hw. unfold Py.strip, Py.strip_by.
  by rewrite <- !lstrip_rstrip_comm, rstrip_by_blank_app.
Qed.

(** A text without number sign that is followed by whitespace and a
    number sign ends before the number sign. *)
Lemma blank_before_hash (w tail ws r : text) :
  ("#"%char ∉ w) → Forall (λ x, Py.isspace x = true) ws →
  w ++ tail = ws ++ "#"%char :: r → Forall (λ x, Py.isspace x = true) w.
Proof.
  intros Hw Hws. revert w Hw. induction Hws as [|x ws Hx Hws IH]; intros w Hw Heq.
  - destruct w as [|y w]; [done|]. simpl in Heq. injection Heq as -> _.
    exfalso. apply Hw. by left.
  - destruct w as [|y w]; [done|]. simpl in Heq. injection Heq as -> Heq.
    constructor; [done|]. apply IH; [|done]. intros Hin. apply Hw. by right.
Qed.

(** *** The lazy group *)

Section Extraction.

Variables name content tail : text.
Hypothesis Hname : starts_plain name.
Hypothesis Hstart : starts_plain content.
Hypothesis Hhash : "#"%char ∉ content.
Hypothesis Htail : tail = [] ∨ ∃ more, tail = LF :: "## " ++ more.

Lemma after_group_some (off : nat) (pre rest : text) (b : option ascii)
    (g : option text) (e0 : cursor) :
  ReX.xrun ReX.MS heading_ahead
    (Cursor b (off + length pre) rest
       (Some (take (off + length pre - off) (content ++ tail)))) Some = Some e0 →
  ∃ e, after_group (content ++ tail) off (Cursor b (off + length pre) rest g)
       = Some e.
Proof.
  intros H. unfold after_group. cbn [ReX.xrun before offset after]. rewrite H. by eauto.
Qed.

Lemma group_exists (off : nat) (g : option text) :
  ∃ e, lazy (atom_match ReX.MS Dot) (Some LF) off (content ++ tail) g
         (after_group (content ++ tail) off) = Some e.
Proof.
  set (k := after_group (content ++ tail) off).
  destruct Htail as [Ht|[more Ht]].
  - destruct (ahead_at_end (Cursor (before_after (Some LF) content)
                (off + length content) []
                (Some (take (off + length content - off) (content ++ tail)))))
      as [e1 He1]; [done|].
    destruct (after_group_some off content [] (before_after (Some LF) content) g e1 He1)
      as [e0 He0].
    fold k in He0.
    assert (Heq : content ++ tail = content ++ []) by (f_equal; exact Ht).
    rewrite Heq. by apply (lazy_finds _ content [] _ _ _ k e0); [apply Forall_true|].
  - assert (Hb : before_after (Some LF) (content ++ [LF]) = Some LF)
      by apply before_after_app.
    destruct (ahead_at_heading (off + length (content ++ [LF])) more
                (Some (take (off + length (content ++ [LF]) - off) (content ++ tail))))
      as [e1 He1].
    destruct (after_group_some off (content ++ [LF]) ("## " ++ more) (Some LF) g e1 He1)
      as [e0 He0].
    fold k in He0.
    assert (Heq : content ++ tail = (content ++ [LF]) ++ "## " ++ more).
    { rewrite <- app_assoc. f_equal. exact Ht. }
    rewrite Heq.
    apply (lazy_finds _ (content ++ [LF]) ("## " ++ more) _ _ _ k e0);
      [by apply Forall_true|].
    by rewrite Hb.
Qed.

(** What the group holds when the match succeeds: the content up to
    trailing whitespace. *)
Lemma group_result (off : nat) (g : option text) (e : cursor) :
  lazy (atom_match ReX.MS Dot) (Some LF) off (content ++ tail) g
    (after_group (content ++ tail) off) = Some e →
  ∃ g1, group1 e = Some g1 ∧ Py.strip g1 = Py.strip content.
Proof.
  intros H. apply lazy_first in H as (pre & rest & Heq & Hk & Hmin).
  unfold after_group in Hk. cbn [ReX.xrun before offset after] in Hk.
  destruct (ReX.xrun ReX.MS heading_ahead _ Some) as [e1|] eqn:A; [|done].
  injection Hk as <-. cbn [group1]. exists pre. split.
  { replace (off + length pre - off) with (length pre) by lia.
    by rewrite Heq, take_app_length. }
  apply ahead_inv in A. cbn [after] in A.
  apply app_eq_inv in Heq as [(w & Hc & Hr)|(w & Hp & Ht)].
  - rewrite Hc. symmetry. apply strip_blank_app.
    assert (Hw : "#"%char ∉ w).
    { intros Hin. apply Hhash. rewrite Hc. apply elem_of_app. by right. }
    destruct A as [A|(ws & r & A & Hws)].
    + rewrite Hr in A. apply app_eq_nil in A as [-> _]. constructor.
    + rewrite Hr in A. by eapply blank_before_hash.
  - destruct w as [|x w]; [by rewrite Hp, app_nil_r|].
    destruct Htail as [Ht0|[more Ht0]]; [by rewrite Ht0 in Ht|].
    rewrite Ht0 in Ht. simpl in Ht. injection Ht as <- Ht.
    destruct w as [|y w].
    { rewrite Hp. by apply strip_blank_app, Forall_singleton. }
    exfalso. specialize (Hmin (content ++ [LF]) y w).
    rewrite Hp, <- app_assoc in Hmin. specialize (Hmin eq_refl).
    unfold after_group in Hmin. cbn [ReX.xrun before offset after] in Hmin.
    rewrite before_after_app in Hmin.
    change (y :: w ++ rest) with ((y :: w) ++ rest) in Hmin. rewrite <- Ht in Hmin.
    destruct (ahead_at_heading (off + length (content ++ [LF])) more
                (Some (take (off + length (content ++ [LF]) - off) (content ++ tail))))
      as [e2 He2].
    change ("## " ++ more) with ("#"%char :: "#"%char :: " "%char :: more) in He2.
    by rewrite He2 in Hmin.
Qed.

(** *** The first match *)

#[local] Abbreviation heading_text := ("## " ++ name ++ LF :: content ++ tail).

#[local] Abbreviation heading_rest :=
  (Cat (lit "##") (Cat (Plus Space) (Cat (lit name) (Cat (Star Space)
     (Cat Eol (Cat (One (Chr LF)) (Group (StarLazy Dot)))))))).

Lemma heading_line_unfold :
  heading_line name = Cat Bol (Cat (Star Space) heading_rest).
Proof. reflexivity. Qed.

Lemma run_heading_rest b off g :
  run ReX.MS heading_rest (Cursor b off heading_text g)
    (λ c', ReX.xrun ReX.MS (ReX.Lookahead heading_ahead) c' Some)
  = lazy (atom_match ReX.MS Dot) (Some LF) (off + (4 + length name))
      (content ++ tail) g (after_group (content ++ tail) (off + (4 + length name))).
Proof. by rewrite run_heading. Qed.

(** Whitespace that leads from inside the prefix to two number signs
    leads to the heading. *)
Lemma prefix_split (q ws rest : text) :
  Py.contains "##" q = false → (∀ x, last q = Some x → x = LF) →
  Forall (λ x, Py.isspace x = true) ws → Py.startswith "##" rest = true →
  q ++ heading_text = ws ++ rest → ws = q ∧ rest = heading_text.
Proof.
  intros Hq Hlast Hws Hrest. revert ws Hws.
  induction q as [|y q IH]; intros ws Hws Heq.
  - destruct ws as [|x ws]; [done|]. simpl in Heq. injection Heq as <- _.
    by apply Forall_cons_1 in Hws as [? _].
  - destruct ws as [|x ws].
    + simpl in Heq. subst rest. exfalso.
      rewrite startswith_cons in Hrest. apply andb_true_iff in Hrest as [Hy Hrest].
      apply Ascii.eqb_eq in Hy as <-.
      destruct q as [|z q].
      * by specialize (Hlast _ eq_refl).
      * rewrite <- app_comm_cons, startswith_cons in Hrest.
        apply andb_true_iff in Hrest as [Hz _]. apply Ascii.eqb_eq in Hz as <-.
        by rewrite contains_unfold in Hq.
    + simpl in Heq. injection Heq as <- Heq.
      apply Forall_cons_1 in Hws as [_ Hws].
      destruct IH with (ws := ws) as [-> ->]; try done.
      * by eapply contains_cons_false.
      * intros x Hx. apply Hlast. rewrite last_cons, Hx. done.
Qed.

(** A match that starts in the prefix or at the heading holds the content
    in its group. *)
Lemma attempt_in_prefix (q : text) b off (m : match_obj) :
  Py.contains "##" q = false → (∀ x, last q = Some x → x = LF) →
  ReX.xmatch_at ReX.MS (section_re name) (Cursor b off (q ++ heading_text) None) = Some m →
  ∃ g1, m_group1 m = Some g1 ∧ Py.strip g1 = Py.strip content.
Proof.
  intros Hq Hlast. unfold ReX.xmatch_at. rewrite section_re_parts.
  cbn [ReX.xrun]. rewrite heading_line_unfold.
  destruct (run ReX.MS _ _ _) as [e|] eqn:R; [|done]. intros [= <-]. cbn [m_group1].
  rewrite run_cat, run_bol_if in R. destruct (at_bol ReX.MS _); [|done].
  rewrite run_cat, run_star in R.
  apply greedy_continues in R as (ws & rest & b' & Hs & Hws & R).
  assert (Hrest : Py.startswith "##" rest = true).
  { destruct (Py.startswith "##" rest) eqn:E; [done|].
    by rewrite run_cat, run_lit_starts in R. }
  destruct (prefix_split q ws rest) as [-> ->]; try done.
  rewrite run_heading_rest in R. by eapply group_result.
Qed.

Lemma attempt_at_heading b off :
  at_bol ReX.MS (Cursor b off heading_text None) = true →
  ∃ m, ReX.xmatch_at ReX.MS (section_re name) (Cursor b off heading_text None) = Some m.
Proof.
  intros Hb. unfold ReX.xmatch_at. rewrite section_re_parts.
  cbn [ReX.xrun]. rewrite heading_line_unfold.
  rewrite run_cat, run_bol_if, Hb, run_cat, run_star.
  change heading_text with ("#"%char :: "#"%char :: " "%char :: name ++ LF :: content ++ tail).
  rewrite greedy_stop by done.
  change ("#"%char :: "#"%char :: " "%char :: name ++ LF :: content ++ tail)
    with heading_text.
  rewrite run_heading_rest.
  destruct (group_exists (off + (4 + length name)) None) as [e ->]. by eauto.
Qed.

Lemma search_finds (q : text) b off :
  Py.contains "##" q = false → (∀ x, last q = Some x → x = LF) →
  (q = [] → b = None ∨ b = Some LF) →
  ∃ m, ReX.xsearch_from ReX.MS (section_re name) b off (q ++ heading_text) = Some m
       ∧ ∃ g1, m_group1 m = Some g1 ∧ Py.strip g1 = Py.strip content.
Proof.
  revert b off. induction q as [|y q IH]; intros b off Hq Hlast Hb.
  - rewrite xsearch_from_unfold.
    destruct (attempt_at_heading b off) as [m Hm].
    { by destruct (Hb eq_refl) as [-> | ->]. }
    change ([] ++ heading_text) with heading_text. rewrite Hm. exists m. split; [done|].
    by apply (attempt_in_prefix [] b off).
  - rewrite xsearch_from_unfold.
    destruct (ReX.xmatch_at _ _ _) as [m|] eqn:E.
    + exists m. split; [done|]. by apply (attempt_in_prefix (y :: q) b off).
    + rewrite <- app_comm_cons. apply IH.
      * by eapply contains_cons_false.
      * intros x Hx. apply Hlast. by rewrite last_cons, Hx.
      * intros ->. right. f_equal. by apply Hlast.
Qed.

End Extraction.

(** X22.  The text under a heading.  Let the body be a prefix without two
    adjacent number signs that is empty or ends with a line feed, the
    heading line [## name], a content without number sign that starts
    with a character that is not whitespace, and then either nothing or
    a line feed and the next heading.  For a name that starts with a
    character that is not whitespace, [section] returns the content
    stripped of the whitespace at its end. *)
Theorem section_extracts (prefix name content tail : text) :
  Py.contains "##" prefix = false → (∀ x, last prefix = Some x → x = LF) →
  starts_plain name → starts_plain content → ("#"%char ∉ content) →
  (tail = [] ∨ ∃ more, tail = LF :: "## " ++ more) →
  section (prefix ++ "## " ++ name ++ LF :: content ++ tail) name = Py.strip content.
Proof.
  intros Hq Hlast Hname Hstart Hhash Htail. unfold section, ReX.xsearch.
  destruct (search_finds name content tail Hname Hstart Hhash Htail prefix None 0)
    as (m & -> & g1 & -> & Hg); auto.
Qed.

Lemma section_extracts_witness :
  section ("# Database latency

" ++ "## " ++ "Diagnosis" ++ LF :: "1. Look at the slow query log.
" ++ "
## Remediation
1. Restart the replica.") "Diagnosis"
  = Py.strip "1. Look at the slow query log.
".
Proof.
  apply (section_extracts "# Database latency

" "Diagnosis" "1. Look at the slow query log.
" "
## Remediation
1. Restart the replica.").
  - vm_compute. reflexivity.
  - intros x Hx. vm_compute in Hx. by injection Hx as <-.
  - eexists _, _. split; [reflexivity|vm_compute; reflexivity].
  - eexists _, _. split; [reflexivity|vm_compute; reflexivity].
  - apply (bool_decide_unpack _). vm_compute. reflexivity.
  - right. eexists. reflexivity.
Defined.

(** ** Mode detection *)

Lemma analysis_re_words : RunbookChatbot.analysis_re = whole_word_re analysis_stems.
Proof. reflexivity. Qed.

Lemma incident_re_words : RunbookChatbot.incident_re = whole_word_re incident_words.
Proof. reflexivity. Qed.

Lemma isword_lower (c : ascii) : Py.isword (Py.lower_char c) = Py.isword c.
Proof. destruct c as [[] [] [] [] [] [] [] []]; vm_compute; reflexivity. Qed.

Lemma search_from_unfold f r b off s :
  search_from f r b off s
  = match match_at f r (Cursor b off s None) (λ _, true) with
    | Some m => Some m
    | None =>
        match s with
        | x :: s' => search_from f r (Some x) (Datatypes.S off) s'
        | [] => None
        end
    end.
Proof. by destruct s. Qed.

(** A match somewhere in the text makes the search succeed. *)
Lemma search_from_finds f r (pre rest : text) b off m :
  match_at f r (Cursor (before_after b pre) (off + length pre) rest None) (λ _, true)
  = Some m →
  ∃ m', search_from f r b off (pre ++ rest) = Some m'.
Proof.
  revert b off. induction pre as [|x pre IH]; intros b off H; rewrite search_from_unfold.
  - change (before_after b []) with b in H. simpl in H. rewrite Nat.add_0_r in H.
    simpl app. rewrite H. by eauto.
  - rewrite <- app_comm_cons.
    destruct (match_at f r (Cursor b off (x :: pre ++ rest) None) _); [by eauto|].
    apply IH. rewrite before_after_cons in H. simpl length in H.
    by rewrite Nat.add_succ_r in H.
Qed.

(** An alternative that matches makes the alternation match. *)
Lemma run_alts_member f (rs : list regex) (r : regex) c k e :
  r ∈ rs → run f r c k = Some e → ∃ e', run f (alts rs) c k = Some e'.
Proof.
  intros Hin Hr. induction rs as [|r0 rs IH]; [by apply elem_of_nil in Hin|].
  destruct rs as [|r1 rs].
  - apply elem_of_cons in Hin as [->|Hin]; [by eauto|]. by apply elem_of_nil in Hin.
  - change (alts (r0 :: r1 :: rs)) with (Alt r0 (alts (r1 :: rs))).
    change (run f (Alt r0 (alts (r1 :: rs))) c k)
      with (match run f r0 c k with
            | Some e => Some e
            | None => run f (alts (r1 :: rs)) c k
            end).
    destruct (run f r0 c k) as [e0|] eqn:E0; [by eauto|].
    apply elem_of_cons in Hin as [->|Hin]; [congruence|]. by apply IH.
Qed.

Lemma run_wordb f c k : run f WordB c k = if at_wordb c then k c else None.
Proof. reflexivity. Qed.

Lemma run_group f r c k :
  run f (Group r) c k
  = run f r c (λ c', k (Cursor (before c') (offset c') (after c')
                          (Some (take (offset c' - offset c) (after c))))).
Proof. reflexivity. Qed.

(** One of the words, standing as a whole word, is found. *)
Lemma whole_word_found (words : list text) (pre w post : text) :
  w ∈ words → (∃ c r, w = c :: r ∧ Py.isword c = true ∧
                 ∀ x, last w = Some x → Py.isword x = true) →
  whole_word pre w post →
  found NOFLAG (whole_word_re words) (pre ++ w ++ post) = true.
Proof.
  intros Hin (c & r & Hw & Hc & Hlast) [Hpre Hpost].
  assert (∃ m, match_at NOFLAG (whole_word_re words)
                 (Cursor (before_after None pre) (0 + length pre) (w ++ post) None)
                 (λ _, true) = Some m) as [m Hm].
  { unfold match_at, whole_word_re.
    change (seq [WordB; Group (alts (map lit words)); WordB])
      with (Cat WordB (Cat (Group (alts (map lit words))) WordB)).
    rewrite run_cat, run_wordb.
    assert (at_wordb (Cursor (before_after None pre) (0 + length pre) (w ++ post) None)
            = true) as ->.
    { unfold at_wordb. cbn [before after]. rewrite Hw. cbn [app head is_word_opt].
      rewrite Hc. unfold before_after. destruct (last pre) as [x|] eqn:El; [|done].
      cbn [is_word_opt]. by rewrite (Hpre x). }
    rewrite run_cat, run_group.
    match goal with
    | |- context [run NOFLAG (alts (map lit words)) ?c0 ?k0] =>
        assert (∃ e, run NOFLAG (alts (map lit words)) c0 k0 = Some e) as [e ->]
    end; [|by eauto].
    eapply run_alts_member; [apply list_elem_of_fmap; by exists w|].
    rewrite run_lit_app by done. cbv beta. cbn [before offset after]. rewrite run_wordb.
    match goal with
    | |- context [at_wordb ?c1] => assert (at_wordb c1 = true) as ->
    end; [|reflexivity].
    unfold at_wordb. cbn [before after].
    assert (before_after (before_after None pre) w = last w) as ->.
    { unfold before_after at 1. rewrite Hw, last_cons. by destruct (last r). }
    destruct (last w) as [x|] eqn:El; [|by rewrite Hw, last_cons in El; destruct (last r)].
    cbn [is_word_opt]. rewrite (Hlast x eq_refl).
    destruct post as [|y post]; [done|]. cbn [head is_word_opt].
    by rewrite (Hpost y). }
  unfold found, search. apply search_from_finds in Hm as [m' ->]. done.
Qed.

Lemma last_map {A B} (f : A → B) (l : list A) :
  last (map f l) = option_map f (last l).
Proof.
  induction l as [|x l IH]; [done|].
  change (map f (x :: l)) with (f x :: map f l).
  rewrite !last_cons, IH. by destruct (last l).
Qed.

Lemma whole_word_lower (pre w post : text) :
  whole_word pre w post → whole_word (Py.lower pre) (Py.lower w) (Py.lower post).
Proof.
  intros [Hpre Hpost]. split.
  - intros c. unfold Py.lower. rewrite last_map.
    destruct (last pre) as [c0|]; [|done]. intros [= <-].
    rewrite isword_lower. by apply Hpre.
  - intros c Hc. destruct post as [|y post]; [done|]. injection Hc as <-.
    rewrite isword_lower. by apply Hpost.
Qed.

Lemma stems_are_words (w : text) :
  w ∈ analysis_stems ++ incident_words →
  ∃ c r, w = c :: r ∧ Py.isword c = true ∧ ∀ x, last w = Some x → Py.isword x = true.
Proof.
  unfold analysis_stems, incident_words. cbn [app].
  rewrite !elem_of_cons, elem_of_nil.
  intros H. repeat destruct H as [->|H]; try done;
    (eexists _, _; split; [reflexivity|split; [reflexivity|]]);
    intros x Hx; vm_compute in Hx; injection Hx as <-; reflexivity.
Qed.

(** X23.  A message in which one of the seven alternatives of the
    analysis pattern stands as a whole word, in any letter case, is in
    analysis mode, whatever else it holds. *)
Theorem analysis_stem_detected (pre w post : text) :
  Py.lower w ∈ analysis_stems → whole_word pre w post →
  RunbookChatbot._detect_mode (pre ++ w ++ post) = "analysis".
Proof.
  intros Hw Hww. unfold RunbookChatbot._detect_mode. rewrite !lower_app, analysis_re_words.
  rewrite whole_word_found; [done|done| |by apply whole_word_lower].
  apply stems_are_words, elem_of_app. by left.
Qed.

(** X24.  A message in which one of the eight incident words stands as a
    whole word, in any letter case, is in analysis or in incident mode,
    never in general mode. *)
Theorem incident_word_detected (pre w post : text) :
  Py.lower w ∈ incident_words → whole_word pre w post →
  RunbookChatbot._detect_mode (pre ++ w ++ post) = "analysis"
  ∨ RunbookChatbot._detect_mode (pre ++ w ++ post) = "incident".
Proof.
  intros Hw Hww. unfold RunbookChatbot._detect_mode.
  destruct (found NOFLAG RunbookChatbot.analysis_re _); [by left|right].
  rewrite !lower_app, incident_re_words.
  rewrite whole_word_found; [done|done| |by apply whole_word_lower].
  apply stems_are_words, elem_of_app. by right.
Qed.

(** Without a word character there is no word boundary, and the patterns
    of [RunbookChatbot._detect_mode] start with one. *)
Lemma no_word_no_match (words : list text) (s : text) (b : option ascii) (off : nat) :
  is_word_opt b = false → Forall (λ c, Py.isword c = false) s →
  search_from NOFLAG (whole_word_re words) b off s = None.
Proof.
  intros Hb Hs. revert b off Hb. induction Hs as [|x s Hx Hs IH]; intros b off Hb;
    rewrite search_from_unfold; unfold match_at, whole_word_re;
    change (seq [WordB; Group (alts (map lit words)); WordB])
      with (Cat WordB (Cat (Group (alts (map lit words))) WordB));
    rewrite run_cat, run_wordb; unfold at_wordb; cbn [before after head is_word_opt];
    rewrite Hb.
  - done.
  - rewrite Hx. cbn [xorb]. cbv iota. by apply IH.
Qed.

(** X25.  A message without a word character (empty, blank or
    punctuation only) is in general mode. *)
Theorem no_word_general (message : text) :
  Forall (λ c, Py.isword c = false) message → RunbookChatbot._detect_mode message = "general".
Proof.
  intros H. unfold RunbookChatbot._detect_mode.
  assert (Hl : Forall (λ c, Py.isword c = false) (Py.lower message)).
  { unfold Py.lower. induction H as [|c s Hc Hs IH]; [constructor|].
    simpl. constructor; [by rewrite isword_lower|done]. }
  unfold found, search. rewrite analysis_re_words, incident_re_words.
  by rewrite !no_word_no_match.
Qed.

Lemma analysis_stem_detected_witness :
  RunbookChatbot._detect_mode ("Database outage: please " ++ "REVIEW" ++ " the runbook") = "analysis".
Proof.
  apply (analysis_stem_detected "Database outage: please " "REVIEW" " the runbook").
  - right. right. right. by left.
  - split; intros c Hc; vm_compute in Hc; injection Hc as <-; reflexivity.
Defined.

Lemma incident_word_detected_witness :
  RunbookChatbot._detect_mode ("High " ++ "Latency" ++ " on the primary") = "analysis"
  ∨ RunbookChatbot._detect_mode ("High " ++ "Latency" ++ " on the primary") = "incident".
Proof.
  apply (incident_word_detected "High " "Latency" " on the primary").
  - right. right. right. right. by left.
  - split; intros c Hc; vm_compute in Hc; injection Hc as <-; reflexivity.
Defined.

Lemma no_word_general_witness : RunbookChatbot._detect_mode "?!  ..." = "general".
Proof. apply no_word_general. by repeat constructor. Defined.
